(** * stereopy: the spatial expression dataset [StereoExpData]

    A shallow embedding of [stereo/core/stereo_exp_data.py] and
    [stereo/core/cell.py], with the properties of the dataset's subsetting,
    binning, ingestion and persistence.

    Python objects ([StereoExpData], [Cell], [Gene]) live in a store and are
    referred to by location, so that mutation in place, object identity and
    [copy.deepcopy] are visible.  A method is a function of the store that
    returns an outcome (a value or a raised exception) and the store it
    leaves behind: the store after an exception keeps every assignment made
    before the [raise].

    Numbers.  Integer columns and counts are [Z], and the arithmetic of
    numpy on them wraps around at 64 bits.  A finite float64 is modelled by
    the rational it denotes ([Q]), and an operation on floats rounds its
    exact result to 53 bits, to nearest, ties to even; a result that is not
    finite is [None].  The bins of [read_txt] are computed that way, so that
    what is said of them holds as the code computes them: the formulas of
    the specification hold while the operands stay below 2^53, and fail
    beyond.  The centroid of a hull is the exception: it is kept exact. *)

From Stdlib Require Import ZArith QArith Qround Qabs Qpower Lia Lqa.
From stdpp Require Import base list strings gmap sorting pretty.

Open Scope Z_scope.

(** ** Exceptions and outcomes *)

(** The exception classes the modelled code can raise.  [Exception] is the
    bare [raise Exception] of [bin_type_check]: it carries no message. *)
Inductive exn :=
| Exception
| TypeError (msg : string)
| IndexError (msg : string)
| ValueError (msg : string)
| AttributeError (msg : string)
| FileExistsError (msg : string).

(** [Undefined] is not a Python behaviour: it marks what no run of the
    program reaches, such as a location that is not an object of the store. *)
Inductive outcome (A : Type) :=
| Val (a : A)
| Raise (e : exn)
| Undefined.
Arguments Val {A} a.
Arguments Raise {A} e.
Arguments Undefined {A}.

Global Instance outcome_ret : MRet outcome := λ A a, Val a.
Global Instance outcome_bind : MBind outcome := λ A B f o,
  match o with
  | Val a => f a
  | Raise e => Raise e
  | Undefined => Undefined
  end.
Global Instance outcome_fmap : FMap outcome := λ A B f o,
  match o with
  | Val a => Val (f a)
  | Raise e => Raise e
  | Undefined => Undefined
  end.

Definition exn_message (e : exn) : string :=
  match e with
  | Exception => ""
  | TypeError m | IndexError m | ValueError m
  | AttributeError m | FileExistsError m => m
  end.

(** [key in msg] on strings: [key] starts at some position of [msg]. *)
Fixpoint mentions (key msg : string) : bool :=
  String.prefix key msg
  || match msg with
     | String _ rest => mentions key rest
     | EmptyString => false
     end.

(** ** numpy: values, arrays and integer-array indexing *)

(** The values an attribute can be assigned, as far as the type tests of the
    code distinguish them. *)
Inductive pyval :=
| PyNone
| PyInt (z : Z)
| PyStr (s : string)
| PyList (l : list string)
| PyNdarray (a : list string).

(** [isinstance(v, np.ndarray)] *)
Definition is_ndarray (v : pyval) : bool :=
  match v with PyNdarray _ => true | _ => false end.

(** The array that a value is, when it is one: what an attribute of the model
    that holds an array or [None] keeps of the value. *)
Definition as_ndarray (v : pyval) : option (list string) :=
  match v with PyNdarray a => Some a | _ => None end.

(** An index [i] into an axis of size [n]: numpy counts a negative index from
    the end and rejects anything outside [-n, n). *)
Definition norm_index (n : nat) (i : Z) : option nat :=
  if bool_decide (0 <= i < Z.of_nat n) then Some (Z.to_nat i)
  else if bool_decide (- Z.of_nat n <= i < 0) then Some (Z.to_nat (Z.of_nat n + i))
  else None.

Definition out_of_bounds (i : Z) (n : nat) : exn :=
  IndexError ("index " +:+ pretty i +:+ " is out of bounds for axis 0 with size "
              +:+ pretty n).

(** scipy reports an index out of range in its own words. *)
Definition sparse_bounds (i : Z) (n : nat) : exn :=
  IndexError ("index (" +:+ pretty i +:+ ") out of range").

(** Resolve every index of a selection against an axis of size [n]; the first
    one out of range raises [err]. *)
Fixpoint norm_indices (err : Z → nat → exn) (n : nat) (index : list Z)
    : outcome (list nat) :=
  match index with
  | [] => Val []
  | i :: rest =>
      match norm_index n i with
      | None => Raise (err i n)
      | Some k => cons k <$> norm_indices err n rest
      end
  end.

(** [l[k] for k in ks], for positions already known to be in range. *)
Definition gather {A} (l : list A) (ks : list nat) : list A :=
  omap (λ k, l !! k) ks.

(** [a[index]] for a one-dimensional array and a list of integers: a new
    array, one element per index, in the order of the index. *)
Definition np_take {A} (a : list A) (index : list Z) : outcome (list A) :=
  gather a <$> norm_indices out_of_bounds (length a) index.

(** [np.argwhere(names == i)]: the positions of [i], in increasing order.  A
    name array that is [None] compares as the scalar [False], whose
    [argwhere] is empty as well. *)
Fixpoint positions_from {A} `{EqDecision A} (k : nat) (names : list A) (i : A)
    : list nat :=
  match names with
  | [] => []
  | x :: rest =>
      if bool_decide (x = i) then k :: positions_from (S k) rest i
      else positions_from (S k) rest i
  end.

Definition argwhere_eq (names : option (list string)) (i : string) : list nat :=
  match names with
  | None => []
  | Some a => positions_from 0 a i
  end.

(** [np.argwhere(names == i)[0][0]] *)
Definition first_match (names : option (list string)) (i : string) : outcome nat :=
  match argwhere_eq names i with
  | [] => Raise (out_of_bounds 0 0)
  | k :: _ => Val k
  end.

(** ** The expression matrix *)

(** A dense [np.ndarray] of shape [(nrows, ncols)], or a scipy sparse matrix
    in compressed-row or compressed-column form.  A compressed matrix is kept
    line by line: line [i] of a [csr_matrix] is the slice
    [indptr[i]:indptr[i+1]] of [(indices, data)], the stored entries of row
    [i] with their column; a [csc_matrix] is the same by column. *)
Inductive matrix :=
| Ndarray (nrows ncols : nat) (rows : list (list Z))
| Csr (nrows ncols : nat) (rows : list (list (nat * Z)))
| Csc (nrows ncols : nat) (cols : list (list (nat * Z))).

Definition shape (m : matrix) : nat * nat :=
  match m with
  | Ndarray r c _ | Csr r c _ | Csc r c _ => (r, c)
  end.

(** The value a compressed line holds at minor index [j]: stored entries at
    the same index add up, an index without stored entry is zero. *)
Definition line_value (line : list (nat * Z)) (j : nat) : Z :=
  foldr Z.add 0 (snd <$> filter (λ e, e.1 = j) line).

(** [m[i, j]] for indices inside the shape. *)
Definition entry (m : matrix) (i j : nat) : option Z :=
  match m with
  | Ndarray _ _ rows => rows !! i ≫= (.!! j)
  | Csr _ c rows =>
      if bool_decide (j < c)%nat then (λ line, line_value line j) <$> rows !! i
      else None
  | Csc r _ cols =>
      if bool_decide (i < r)%nat then (λ line, line_value line i) <$> cols !! j
      else None
  end.

(** Selection along the minor axis of a compressed line: every stored entry
    whose index is selected at position [k] is emitted at [k], once for every
    such [k]. *)
Definition line_select (ks : list nat) (line : list (nat * Z)) : list (nat * Z) :=
  e ← line; (λ k, (k, e.2)) <$> positions_from 0 ks e.1.

(** [m[index, :]] *)
Definition select_rows (m : matrix) (index : list Z) : outcome matrix :=
  match m with
  | Ndarray r c rows =>
      (λ ks, Ndarray (length ks) c (gather rows ks)) <$> norm_indices out_of_bounds r index
  | Csr r c rows =>
      (λ ks, Csr (length ks) c (gather rows ks)) <$> norm_indices sparse_bounds r index
  | Csc r c cols =>
      (λ ks, Csc (length ks) c (line_select ks <$> cols)) <$> norm_indices sparse_bounds r index
  end.

(** [m[:, index]] *)
Definition select_cols (m : matrix) (index : list Z) : outcome matrix :=
  match m with
  | Ndarray r c rows =>
      (λ ks, Ndarray r (length ks) ((λ row, gather row ks) <$> rows)) <$> norm_indices out_of_bounds c index
  | Csr r c rows =>
      (λ ks, Csr r (length ks) (line_select ks <$> rows)) <$> norm_indices sparse_bounds c index
  | Csc r c cols =>
      (λ ks, Csc r (length ks) (gather cols ks)) <$> norm_indices sparse_bounds c index
  end.

(** The shape agrees with the data: what numpy and scipy maintain. *)
Definition matrix_wf (m : matrix) : Prop :=
  match m with
  | Ndarray r c rows => length rows = r ∧ Forall (λ row, length row = c) rows
  | Csr r c rows => length rows = r ∧ Forall (Forall (λ e, (e.1 < c)%nat)) rows
  | Csc r c cols => length cols = c ∧ Forall (Forall (λ e, (e.1 < r)%nat)) cols
  end.

(** ** shapely geometries *)

(** The geometries a convex hull can be; coordinates are the integer
    coordinates of the input points. *)
Inductive geometry :=
| GeometryEmpty
| Point (p : Z * Z)
| LineString (p q : Z * Z)
| Polygon (exterior : list (Z * Z)).

(** ** The hierarchical container *)

(** Modelled from the spec: the container that the module [h5ad] of the
    repository reads and writes through h5py; [h5ad] is not among the
    sources.  Sections 4.4 and 6 of the specification describe it as named
    groups and typed datasets: a metadata table is a group holding the name
    sequence and one dataset per populated attribute, a sparse matrix is a
    group with a format tag and its index and data arrays, a dense matrix,
    the positions and the bin type are plain datasets. *)
Inductive h5data :=
| Str (s : string)
| Strs (a : list string)
| Nats (a : list nat)
| Ints (a : list Z)
| Floats (a : list Q)
| Ints2 (nrows ncols : nat) (rows : list (list Z))
| Floats2 (rows : list (Q * Q)).

Inductive h5obj :=
| Dataset (d : h5data)
| Group (encoding : string) (members : list (string * h5data)).

(** ** Objects and the store *)

Abbreviation loc := positive (only parsing).

(** [class Cell] of cell.py.  [cell_point] is the attribute that [read_txt]
    adds in cell-boundary mode; [None] also stands for its absence. *)
Record Cell := mkCell {
  _cell_name : option (list string);
  total_counts : option (list Q);
  pct_counts_mt : option (list Q);
  n_genes_by_counts : option (list Q);
  cell_point : option (list geometry) }.

(** Modelled from the spec: [class Gene] of gene.py, which is not among the
    sources.  Section 3 of the specification gives both metadata tables one
    shape: the name sequence and zero or more named scalar attribute arrays
    aligned with it. *)
Record Gene := mkGene {
  _gene_name : option (list string);
  gene_attrs : list (string * list Q) }.

(** [class StereoExpData].  The first four fields are the attributes of the
    base class [Data] (data.py, not among the sources), as the constructor
    passes them on. *)
Record StereoExpData := mkData {
  file : option string;
  file_format : option string;
  partitions : Z;
  output : option string;
  _exp_matrix : option matrix;
  _genes : loc;
  _cells : loc;
  _position : option (list (Q * Q));
  _bin_type : option string;
  bin_size : Z }.

(** The store: the three classes of objects, the files of the file system
    that hold a container (its members in name order, as h5py lists them),
    and the records the logger has emitted, oldest first. *)
Record world := mkWorld {
  cell_objs : gmap loc Cell;
  gene_objs : gmap loc Gene;
  data_objs : gmap loc StereoExpData;
  files : gmap string (list (string * h5obj));
  log : list (string * string) }.

Definition py (A : Type) : Type := world → outcome A * world.

Global Instance py_ret : MRet py := λ A a w, (Val a, w).
Global Instance py_bind : MBind py := λ A B f m w,
  match m w with
  | (Val a, w') => f a w'
  | (Raise e, w') => (Raise e, w')
  | (Undefined, w') => (Undefined, w')
  end.

Global Instance py_fmap : FMap py := λ A B f m w,
  match m w with
  | (Val a, w') => (Val (f a), w')
  | (Raise e, w') => (Raise e, w')
  | (Undefined, w') => (Undefined, w')
  end.

Definition raise {A} (e : exn) : py A := λ w, (Raise e, w).
Definition lift {A} (o : outcome A) : py A := λ w, (o, w).

Definition with_cells (f : gmap loc Cell → gmap loc Cell) (w : world) : world :=
  mkWorld (f (cell_objs w)) (gene_objs w) (data_objs w) (files w) (log w).
Definition with_genes (f : gmap loc Gene → gmap loc Gene) (w : world) : world :=
  mkWorld (cell_objs w) (f (gene_objs w)) (data_objs w) (files w) (log w).
Definition with_data (f : gmap loc StereoExpData → gmap loc StereoExpData)
    (w : world) : world :=
  mkWorld (cell_objs w) (gene_objs w) (f (data_objs w)) (files w) (log w).
Definition with_files
    (f : gmap string (list (string * h5obj)) → gmap string (list (string * h5obj)))
    (w : world) : world :=
  mkWorld (cell_objs w) (gene_objs w) (data_objs w) (f (files w)) (log w).

Definition get_cell (l : loc) : py Cell := λ w,
  (from_option Val Undefined (cell_objs w !! l), w).
Definition put_cell (l : loc) (c : Cell) : py unit := λ w,
  (Val (), with_cells <[l := c]> w).
Definition new_cell (c : Cell) : py loc := λ w,
  let l := fresh (dom (cell_objs w)) in (Val l, with_cells <[l := c]> w).

Definition get_gene (l : loc) : py Gene := λ w,
  (from_option Val Undefined (gene_objs w !! l), w).
Definition put_gene (l : loc) (g : Gene) : py unit := λ w,
  (Val (), with_genes <[l := g]> w).
Definition new_gene (g : Gene) : py loc := λ w,
  let l := fresh (dom (gene_objs w)) in (Val l, with_genes <[l := g]> w).

Definition get_data (l : loc) : py StereoExpData := λ w,
  (from_option Val Undefined (data_objs w !! l), w).
Definition put_data (l : loc) (d : StereoExpData) : py unit := λ w,
  (Val (), with_data <[l := d]> w).
Definition new_data (d : StereoExpData) : py loc := λ w,
  let l := fresh (dom (data_objs w)) in (Val l, with_data <[l := d]> w).

(** [logger.error(msg)] and [logger.info(msg)] *)
Definition logger_error (msg : string) : py unit := λ w,
  (Val (), mkWorld (cell_objs w) (gene_objs w) (data_objs w) (files w)
             (log w ++ [("ERROR", msg)])).
Definition logger_info (msg : string) : py unit := λ w,
  (Val (), mkWorld (cell_objs w) (gene_objs w) (data_objs w) (files w)
             (log w ++ [("INFO", msg)])).

(** [for x in xs], collecting the results. *)
Fixpoint for_each {A B} (f : A → py B) (xs : list A) : py (list B) :=
  match xs with
  | [] => mret []
  | x :: rest => y ← f x; ys ← for_each f rest; mret (y :: ys)
  end.

(** ** cell.py *)

Definition Cell_init (cell_name : option (list string)) : py loc :=
  new_cell (mkCell cell_name None None None None).

(** The property [cell_name] and its setter. *)
Definition Cell_cell_name (self : loc) : py (option (list string)) :=
  c ← get_cell self; mret (_cell_name c).

Definition Cell_set_cell_name (self : loc) (name : pyval) : py unit :=
  if negb (is_ndarray name)
  then raise (TypeError "cell name must be a np.ndarray object.")
  else
    c ← get_cell self;
    put_cell self (mkCell (as_ndarray name) (total_counts c) (pct_counts_mt c)
                     (n_genes_by_counts c) (cell_point c)).

Definition Cell_sub_set (self : loc) (index : list Z) : py loc :=
  name ← Cell_cell_name self;
  match name with
  | Some a => a' ← lift (np_take a index); Cell_set_cell_name self (PyNdarray a')
  | None => mret ()
  end;;
  c ← get_cell self;
  match total_counts c with
  | Some a =>
      a' ← lift (np_take a index);
      put_cell self (mkCell (_cell_name c) (Some a') (pct_counts_mt c)
                       (n_genes_by_counts c) (cell_point c))
  | None => mret ()
  end;;
  c ← get_cell self;
  match pct_counts_mt c with
  | Some a =>
      a' ← lift (np_take a index);
      put_cell self (mkCell (_cell_name c) (total_counts c) (Some a')
                       (n_genes_by_counts c) (cell_point c))
  | None => mret ()
  end;;
  c ← get_cell self;
  match n_genes_by_counts c with
  | Some a =>
      a' ← lift (np_take a index);
      put_cell self (mkCell (_cell_name c) (total_counts c) (pct_counts_mt c)
                       (Some a') (cell_point c))
  | None => mret ()
  end;;
  mret self.

Definition Cell_get_property (self : loc) (name : string) : py (option (list Q)) :=
  c ← get_cell self;
  if bool_decide (name = "total_counts") then mret (total_counts c)
  else if bool_decide (name = "pct_counts_mt") then mret (pct_counts_mt c)
  else if bool_decide (name = "n_genes_by_counts") then mret (n_genes_by_counts c)
  else mret None.

(** ** gene.py *)

(** Modelled from the spec: [Gene.sub_set], which is not among the sources.
    Section 3: [sub_set(index)] mutates the table in place and returns the
    same identity with all arrays sliced, never partially: either every
    array is sliced or none is. *)
Fixpoint slice_attrs (attrs : list (string * list Q)) (index : list Z)
    : outcome (list (string * list Q)) :=
  match attrs with
  | [] => Val []
  | (k, a) :: rest =>
      a' ← np_take a index; rest' ← slice_attrs rest index; mret ((k, a') :: rest')
  end.

(** Modelled from the spec: [Gene.sub_set], as [Cell.sub_set] of cell.py on
    the gene table. *)
Definition Gene_sub_set (self : loc) (index : list Z) : py loc :=
  g ← get_gene self;
  names ← lift (match _gene_name g with
                | Some a => Some <$> np_take a index
                | None => Val None
                end);
  attrs ← lift (slice_attrs (gene_attrs g) index);
  put_gene self (mkGene names attrs);;
  mret self.

(** Modelled from the spec: [Gene(gene_name=...)], a new table that holds
    the names and no attribute array. *)
Definition Gene_init (gene_name : option (list string)) : py loc :=
  new_gene (mkGene gene_name []).

(** ** stereo_exp_data.py: attributes, validation and subsetting *)

(** [__init__].  [genes] and [cells] are either an object of the class or
    what is handed to its constructor as the names.  The call to [init] at
    the end of the constructor is commented out in the source: the bin type
    is stored unchecked. *)
Definition StereoExpData_init (file_path file_format bin_type : option string)
    (bin_size : Z) (exp_matrix : option matrix)
    (genes cells : loc + option (list string)) (position : option (list (Q * Q)))
    (output : option string) (partitions : Z) : py loc :=
  g ← match genes with inl g => mret g | inr names => Gene_init names end;
  c ← match cells with inl c => mret c | inr names => Cell_init names end;
  new_data (mkData file_path file_format partitions output exp_matrix g c position
              bin_type bin_size).

Definition set_exp_matrix (d : StereoExpData) (m : option matrix) : StereoExpData :=
  mkData (file d) (file_format d) (partitions d) (output d) m (_genes d) (_cells d)
    (_position d) (_bin_type d) (bin_size d).
Definition set_genes (d : StereoExpData) (g : loc) : StereoExpData :=
  mkData (file d) (file_format d) (partitions d) (output d) (_exp_matrix d) g
    (_cells d) (_position d) (_bin_type d) (bin_size d).
Definition set_cells (d : StereoExpData) (c : loc) : StereoExpData :=
  mkData (file d) (file_format d) (partitions d) (output d) (_exp_matrix d)
    (_genes d) c (_position d) (_bin_type d) (bin_size d).
Definition set_position (d : StereoExpData) (p : option (list (Q * Q)))
    : StereoExpData :=
  mkData (file d) (file_format d) (partitions d) (output d) (_exp_matrix d)
    (_genes d) (_cells d) p (_bin_type d) (bin_size d).
Definition set_bin_type (d : StereoExpData) (b : option string) : StereoExpData :=
  mkData (file d) (file_format d) (partitions d) (output d) (_exp_matrix d)
    (_genes d) (_cells d) (_position d) b (bin_size d).

(** [self.attr = v] for the plain setters. *)
Definition assign (self : loc) (f : StereoExpData → StereoExpData) : py unit :=
  d ← get_data self; put_data self (f d).

(** [str(bin_type)] inside the f-string. *)
Definition py_str (v : option string) : string :=
  match v with Some s => s | None => "None" end.

(** [bin_type_check], a static method. *)
Definition bin_type_check (bin_type : option string) : py unit :=
  if bool_decide (bin_type ≠ None)
     && bool_decide (bin_type ∉ [Some "bins"; Some "cell_bins"])
  then
    logger_error ("the bin type `" +:+ py_str bin_type
                  +:+ "` is not in the range, please check!");;
    raise Exception
  else mret ().

(** The setter of the property [bin_type]. *)
Definition set_bin_type_checked (self : loc) (b_type : option string) : py unit :=
  bin_type_check b_type;;
  assign self (λ d, set_bin_type d b_type).

(** [check].  [super_check] is [Data.check] of the base class, which is not
    among the sources. *)
Definition check (super_check : loc → py unit) (self : loc) : py unit :=
  super_check self;;
  d ← get_data self;
  bin_type_check (_bin_type d).

Definition not_subscriptable : exn :=
  TypeError "'NoneType' object is not subscriptable".

(** [position[index, :]] *)
Definition select_position (p : list (Q * Q)) (index : list Z)
    : outcome (list (Q * Q)) :=
  np_take p index.

(** The two blocks of [sub_by_index]: [if cell_index is not None: ...] and
    [if gene_index is not None: ...]. *)
Definition sub_cells (self : loc) (cell_index : option (list Z)) : py unit :=
  match cell_index with
  | Some index =>
      d ← get_data self;
      m ← lift (from_option (λ m, select_rows m index) (Raise not_subscriptable)
                  (_exp_matrix d));
      assign self (λ d, set_exp_matrix d (Some m));;
      d ← get_data self;
      p ← lift (from_option (λ p, select_position p index) (Raise not_subscriptable)
                  (_position d));
      assign self (λ d, set_position d (Some p));;
      d ← get_data self;
      c ← Cell_sub_set (_cells d) index;
      assign self (λ d, set_cells d c)
  | None => mret ()
  end.

Definition sub_genes (self : loc) (gene_index : option (list Z)) : py unit :=
  match gene_index with
  | Some index =>
      d ← get_data self;
      m ← lift (from_option (λ m, select_cols m index) (Raise not_subscriptable)
                  (_exp_matrix d));
      assign self (λ d, set_exp_matrix d (Some m));;
      d ← get_data self;
      g ← Gene_sub_set (_genes d) index;
      assign self (λ d, set_genes d g)
  | None => mret ()
  end.

Definition sub_by_index (self : loc) (cell_index gene_index : option (list Z))
    : py loc :=
  sub_cells self cell_index;;
  sub_genes self gene_index;;
  mret self.

(** [copy.deepcopy(self)]: a new dataset object with new [Cell] and [Gene]
    objects; arrays are values of the model, so that copying them is the
    identity. *)
Definition deepcopy (self : loc) : py loc :=
  d ← get_data self;
  g ← get_gene (_genes d);
  c ← get_cell (_cells d);
  g' ← new_gene g;
  c' ← new_cell c;
  new_data (set_cells (set_genes d g') c').

(** [data.cells.cell_name] and [data.genes.gene_name] *)
Definition cell_names (self : loc) : py (option (list string)) :=
  d ← get_data self; Cell_cell_name (_cells d).
Definition gene_names (self : loc) : py (option (list string)) :=
  d ← get_data self; g ← get_gene (_genes d); mret (_gene_name g).

(** [[np.argwhere(a == i)[0][0] for i in names]], where [read] evaluates the
    name sequence [a] at every turn. *)
Definition resolve_names (read : py (option (list string))) (names : list string)
    : py (list Z) :=
  for_each (λ i, a ← read; k ← lift (first_match a i); mret (Z.of_nat k)) names.

Definition sub_by_name (self : loc) (cell_name gene_name : option (list string))
    : py loc :=
  data ← deepcopy self;
  cell_index ←
    match cell_name with
    | Some names => Some <$> resolve_names (cell_names data) names
    | None => mret None
    end;
  gene_index ←
    match gene_name with
    | Some names => Some <$> resolve_names (gene_names data) names
    | None => mret None
    end;
  sub_by_index data cell_index gene_index.

(** ** Grid bins *)

(** A line of the raw file as [pd.read_csv] parses it, after [dropna]: the
    required columns and, for cell-boundary files, the column [label] (a file
    of grid-bin mode has no such column and the field is not looked at).  The
    coordinates and the counts are the int64 values of their columns. *)
Record record := mkRecord {
  col_x : Z;
  col_y : Z;
  geneID : string;
  UMICount : Z;
  label : string }.

(** [df.dropna(inplace=True)]: a parsed line is [None] when one of its
    columns holds no value. *)
Definition dropna (df : list (option record)) : list record := omap id df.

(** A value stored with [dtype=np.int]: 64 bits, two's complement.  The
    arithmetic of numpy on such values wraps around. *)
Definition int64 (z : Z) : Z := (z + 2 ^ 63) mod 2 ^ 64 - 2 ^ 63.

(** The nearest integer, the even one of two that are equally near. *)
Definition round_half_even (x : Q) : Z :=
  let f := Qfloor x in
  match (x - inject_Z f ?= 1 # 2)%Q with
  | Lt => f
  | Gt => f + 1
  | Eq => if Z.even f then f else f + 1
  end.

(** The binary exponent of a positive [q]: the [e] with
    [2 ^ e <= q < 2 ^ (e + 1)]. *)
Definition Qlog2 (q : Q) : Z :=
  let k := Z.log2 (Qnum q) - Z.log2 (Zpos (Qden q)) in
  if Qle_bool (2 ^ k) q then k else k - 1.

(** The float64 nearest to [q]: a significand of 53 bits, rounded to
    nearest, ties to even.  A finite float is modelled by the rational it
    stands for.  The range of the exponent is not modelled: the numbers
    rounded below are integers of 64 bits, their quotients and their halves,
    which are far from overflow and underflow. *)
Definition round53 (q : Q) : Q :=
  if Qeq_bool q 0 then 0%Q
  else
    let e := Qlog2 (Qabs q) - 52 in
    let m := round_half_even (Qabs q / 2 ^ e) in
    ((if Qle_bool 0 q then 1 else -1) * inject_Z m * 2 ^ e)%Q.

(** [a / b] of numpy on an int64 and an integer: both are converted to
    float64 and divided in float64.  [None] stands for a result that is not
    finite, inf or nan: the division by zero. *)
Definition true_divide (a b : Z) : option Q :=
  let x := round53 (inject_Z a) in
  let y := round53 (inject_Z b) in
  if Qeq_bool y 0 then None else Some (round53 (x / y)).

(** [np.floor(x)] *)
Definition np_floor (x : option Q) : option Q := (λ v, inject_Z (Qfloor v)) <$> x.

(** [int(q)] on a float: truncation towards zero. *)
Definition py_int (q : Q) : Z :=
  if Qle_bool 0 q then Qfloor q else Qceiling q.

(** [x.astype(np.int)] on a float: the integer part as an int64.  For a value
    that is not finite or does not fit, numpy hands over what the conversion
    instruction of the processor gives, on x86-64 the least int64. *)
Definition astype_int (x : option Q) : Z :=
  match x with
  | Some v =>
      let z := py_int v in
      if bool_decide (- 2 ^ 63 <= z < 2 ^ 63) then z else - 2 ^ 63
  | None => - 2 ^ 63
  end.

(** [np.floor((coor-coor_min)/bin_size).astype(np.int)]: [coor] is the int64
    array of a column and [coor_min] its least value, so that the difference
    is taken in int64; the quotient is a float64. *)
Definition merge_bin_coor (coor : list Z) (coor_min bin_size : Z) : list Z :=
  (λ c, astype_int (np_floor (true_divide (int64 (c - coor_min)) bin_size))) <$> coor.

(** [bin_coor*bin_size+coor_min+int(bin_size/2)]: [bin_coor] is an int64
    column, and so is the result; [bin_size/2] is the float quotient of
    Python. *)
Definition get_bin_center (bin_coor : list Z) (coor_min bin_size : Z) : list Z :=
  (λ b, int64 (b * bin_size + coor_min + py_int (round53 (inject_Z bin_size / 2))))
    <$> bin_coor.

(** [df[c].min()].  The minimum of an empty column is NaN in pandas; no line
    of the frame uses it then, and the model puts 0 in its place. *)
Definition col_min (col : list Z) : Z :=
  match col with
  | [] => 0
  | c :: rest => foldr Z.min c rest
  end.

(** A line of the frame that [parse_bin_coor] returns: the raw line and the
    five columns added to it. *)
Record binned := mkBinned {
  raw : record;
  bin_x : Z;
  bin_y : Z;
  cell_id : string;
  x_center : Z;
  y_center : Z }.

Definition parse_bin_coor (df : list record) (bin_size : Z) : list binned :=
  let x_min := col_min (col_x <$> df) in
  let y_min := col_min (col_y <$> df) in
  let bin_x := merge_bin_coor (col_x <$> df) x_min bin_size in
  let bin_y := merge_bin_coor (col_y <$> df) y_min bin_size in
  let cell_id := zip_with (λ bx by_, pretty bx +:+ "_" +:+ pretty by_) bin_x bin_y in
  let x_center := get_bin_center bin_x x_min bin_size in
  let y_center := get_bin_center bin_y y_min bin_size in
  zip_with (λ r '(bx, by_, id, xc, yc), mkBinned r bx by_ id xc yc) df
    (zip (zip (zip (zip bin_x bin_y) cell_id) x_center) y_center).

(** ** Cell boundaries *)

(** The order in which the hull construction visits the points: leftmost
    first, the lower one first among points of the same abscissa. *)
Definition point_le (p q : Z * Z) : Prop :=
  p.1 < q.1 ∨ (p.1 = q.1 ∧ p.2 <= q.2).

Global Instance point_le_dec : RelDecision point_le.
Proof. intros p q. unfold point_le. apply _. Defined.

(** Twice the signed area of the triangle [o a b]: positive when [o], [a],
    [b] turn counter-clockwise. *)
Definition cross (o a b : Z * Z) : Z :=
  (a.1 - o.1) * (b.2 - o.2) - (a.2 - o.2) * (b.1 - o.1).

(** One step of the monotone chain: drop the points of the chain (last
    point first) that do not turn counter-clockwise towards [p], then add
    [p]. *)
Fixpoint chain_push (p : Z * Z) (chain : list (Z * Z)) : list (Z * Z) :=
  match chain with
  | a :: rest =>
      match rest with
      | o :: _ =>
          if bool_decide (cross o a p <= 0) then chain_push p rest else p :: chain
      | [] => p :: chain
      end
  | [] => [p]
  end.

Definition half_hull (pts : list (Z * Z)) : list (Z * Z) :=
  reverse (foldl (λ chain p, chain_push p chain) [] pts).

(** The vertices of the hull of sorted distinct points, counter-clockwise
    from the leftmost one: the lower chain, then the upper chain, each
    without its last point, which starts the other. *)
Definition hull_vertices (pts : list (Z * Z)) : list (Z * Z) :=
  let lower := half_hull pts in
  let upper := half_hull (reverse pts) in
  take (length lower - 1) lower ++ take (length upper - 1) upper.

(** The distinct values of a sequence in the order of their first
    occurrence: [Series.unique()], the keys of [groupby], and the distinct
    coordinates that GEOS collects from a geometry. *)
Definition unique {A} `{EqDecision A} (col : list A) : list A :=
  reverse (remove_dups (reverse col)).

(** The order in which GEOS looks for the point its scan starts from: the
    lowest first, the leftmost one first among points of the same ordinate. *)
Definition point_lower (p q : Z * Z) : Prop :=
  p.2 < q.2 ∨ (p.2 = q.2 ∧ p.1 <= q.1).

Global Instance point_lower_dec : RelDecision point_lower.
Proof. intros p q. unfold point_lower. apply _. Defined.

(** The ring of GEOS for vertices given counter-clockwise: clockwise from the
    lowest vertex, which is repeated at the end to close the ring. *)
Definition clockwise_ring (ring : list (Z * Z)) : list (Z * Z) :=
  match merge_sort point_lower ring with
  | o :: _ =>
      let k := default 0%nat (fst <$> list_find (λ v, v = o) ring) in
      o :: reverse (drop 1 (rotate k ring)) ++ [o]
  | [] => []
  end.

(** [MultiPoint(p).convex_hull] of shapely, which GEOS computes.  The
    distinct points are taken in the order of their first occurrence.  One
    point gives a point, and two give the segment from the first to the
    second.  Three or more are sorted and scanned: they give the segment
    between the two extreme points, from the lower one, when they are all on
    one line, and otherwise the polygon of the extreme points.  GEOS scans
    the points in radial order around the lowest one; the model finds the
    same vertices with the monotone chain over the points in
    leftmost-lower-first order, the construction of section 4.2 of the
    specification. *)
Definition convex_hull (p : list (Z * Z)) : geometry :=
  match unique p with
  | [] => GeometryEmpty
  | [a] => Point a
  | [a; b] => LineString a b
  | pts =>
      match hull_vertices (merge_sort point_le pts) with
      | [a; b] => if decide (point_lower a b) then LineString a b else LineString b a
      | ring => Polygon (clockwise_ring ring)
      end
  end.

(** Sums over the edges of a ring: twice the signed area, and the moments
    from which the centroid of the area is taken. *)
Fixpoint ring_sums (ring : list (Z * Z)) : Z * Z * Z :=
  match ring with
  | a :: rest =>
      match rest with
      | b :: _ =>
          let '(area2, mx, my) := ring_sums rest in
          let w := a.1 * b.2 - b.1 * a.2 in
          (area2 + w, mx + (a.1 + b.1) * w, my + (a.2 + b.2) * w)
      | [] => (0, 0, 0)
      end
  | [] => (0, 0, 0)
  end.

(** [g.centroid]: the centroid of the area of a polygon, the middle of a
    segment, the point itself.  The empty geometry has none.  GEOS computes
    it in float64 from the vertices of the geometry; the model keeps the
    exact value, of which the float is an approximation. *)
Definition centroid (g : geometry) : option (Q * Q) :=
  match g with
  | GeometryEmpty => None
  | Point a => Some (inject_Z a.1, inject_Z a.2)
  | LineString a b =>
      Some ((inject_Z (a.1 + b.1) / 2)%Q, (inject_Z (a.2 + b.2) / 2)%Q)
  | Polygon ring =>
      let '(area2, mx, my) := ring_sums ring in
      Some ((inject_Z mx / inject_Z (3 * area2))%Q,
            (inject_Z my / inject_Z (3 * area2))%Q)
  end.

(** The [pd.Series] that [make_multipoint] returns. *)
Record hull := mkHull {
  hull_cell_point : geometry;
  hull_x_center : Q;
  hull_y_center : Q }.

(** [Point(i)] holds its coordinates as float64: an int64 of the column is
    converted, which changes it only from [2 ^ 53] on. *)
Definition Point_coordinate (z : Z) : Z := Qfloor (round53 (inject_Z z)).

(** [[Point(i) for i in zip(x['x'], x['y'])]] *)
Definition group_points (x : list record) : list (Z * Z) :=
  zip (Point_coordinate ∘ col_x <$> x) (Point_coordinate ∘ col_y <$> x).

(** [make_multipoint], a static method; [x] is the group of lines of one
    cell.  pandas hands it no empty group, and the coordinates of the
    centroid of the empty geometry are left undefined. *)
Definition make_multipoint (x : list record) : outcome hull :=
  let p := group_points x in
  let mlp := convex_hull p in
  match centroid mlp with
  | Some (x_center, y_center) => Val (mkHull mlp x_center y_center)
  | None => Undefined
  end.

(** [df.groupby('cell_id').apply(make_multipoint)]: a frame indexed by cell
    identifier, after [label] was renamed to [cell_id].  It is only ever
    read by key, so that the order of its lines (pandas sorts the keys) is
    not observed; the model keeps the order of first occurrence. *)
Fixpoint apply_groups (keys : list string) (df : list record)
    : outcome (list (string * hull)) :=
  match keys with
  | [] => Val []
  | k :: rest =>
      h ← make_multipoint (filter (λ r, label r = k) df);
      hs ← apply_groups rest df;
      mret ((k, h) :: hs)
  end.

Definition parse_cell_bin_coor (df : list record) : outcome (list (string * hull)) :=
  apply_groups (unique (label <$> df)) df.

(** ** scipy: construction and conversion of sparse matrices *)

(** The canonical line of the entries [(index, value)] that fall on it: one
    stored entry per distinct index, in increasing order of the index, its
    value the sum of the values given for that index. *)
Definition csr_line (es : list (nat * Z)) : list (nat * Z) :=
  (λ j, (j, int64 (line_value es j))) <$> merge_sort le (remove_dups (fst <$> es)).

(** [csr_matrix((data, (rows, cols)), shape=shape, dtype=np.int)] *)
Definition csr_matrix (data : list Z) (rows cols : list nat) (shape : nat * nat)
    : outcome matrix :=
  if bool_decide (Exists (λ i, shape.1 ≤ i)%nat rows)
  then Raise (ValueError "row index exceeds matrix dimensions")
  else if bool_decide (Exists (λ j, shape.2 ≤ j)%nat cols)
  then Raise (ValueError "column index exceeds matrix dimensions")
  else
    let coo := zip rows (zip cols data) in
    Val (Csr shape.1 shape.2
           ((λ i, csr_line (snd <$> filter (λ e, e.1 = i) coo)) <$> seq 0 shape.1)).

(** The entries of the other axis: line [j] of the result holds every stored
    entry of index [j], under the number of the line it comes from. *)
Definition transpose_lines (n : nat) (lines : list (list (nat * Z)))
    : list (list (nat * Z)) :=
  (λ j, '(i, line) ← imap pair lines;
        (λ e, (i, e.2)) <$> filter (λ e, e.1 = j) line) <$> seq 0 n.

(** [m.toarray()] *)
Definition toarray (m : matrix) : matrix :=
  match m with
  | Ndarray r c rows => Ndarray r c rows
  | Csr r c rows => Ndarray r c ((λ line, line_value line <$> seq 0 c) <$> rows)
  | Csc r c cols =>
      Ndarray r c ((λ line, line_value line <$> seq 0 c) <$> transpose_lines r cols)
  end.

(** ** Ingestion *)

(** [dict(zip(keys, range(0, len(keys))))]: a later pair replaces an earlier
    one with the same key. *)
Definition dict_zip (keys : list string) : gmap string nat :=
  list_to_map (reverse (zip keys (seq 0 (length keys)))).

(** [col.map(d)].  A value without key would become NaN; the columns mapped
    here only hold keys of the dictionary. *)
Fixpoint series_map (col : list string) (d : gmap string nat) : outcome (list nat) :=
  match col with
  | [] => Val []
  | v :: rest =>
      match d !! v with
      | Some k => cons k <$> series_map rest d
      | None => Undefined
      end
  end.

(** Lines 257 to 267 of [read_txt]: the names, the matrix and their
    assignment to the dataset, from the columns [cell_id], [geneID] and
    [UMICount] of the frame.  Returns [cells]. *)
Definition exp_matrix_of (cell_id geneID : list string) (UMICount : list Z)
    : outcome matrix :=
  let cells := unique cell_id in
  let genes := unique geneID in
  let cells_dict := dict_zip cells in
  let genes_dict := dict_zip genes in
  rows ← series_map cell_id cells_dict;
  cols ← series_map geneID genes_dict;
  csr_matrix UMICount rows cols (length cells, length genes).

Definition ingest (self : loc) (cell_id geneID : list string) (UMICount : list Z)
    (is_sparse : bool) : py (list string) :=
  let cells := unique cell_id in
  let genes := unique geneID in
  logger_info ("the martrix has " +:+ pretty (length cells) +:+ " cells, and "
               +:+ pretty (length genes) +:+ " genes.");;
  exp_matrix ← lift (exp_matrix_of cell_id geneID UMICount);
  c ← Cell_init (Some cells);
  assign self (λ d, set_cells d c);;
  g ← Gene_init (Some genes);
  assign self (λ d, set_genes d g);;
  assign self (λ d, set_exp_matrix d
                      (Some (if is_sparse then exp_matrix else toarray exp_matrix)));;
  mret cells.

(** [gdf.loc[cells]]: the lines of the frame for the keys [cells], in the
    order of [cells]; every cell is a key of [gdf]. *)
Fixpoint gdf_loc (gdf : list (string * hull)) (cells : list string)
    : outcome (list hull) :=
  match cells with
  | [] => Val []
  | k :: rest =>
      match list_find (λ e, e.1 = k) gdf with
      | Some (_, (_, h)) => cons h <$> gdf_loc gdf rest
      | None => Undefined
      end
  end.

Definition no_loc : exn := AttributeError "'NoneType' object has no attribute 'loc'".

(** [read_txt].  [df] is the frame that [pd.read_csv] parses from
    [self.file].  The two tests of [self.bin_type] are followed in turn: a
    bin type that is neither ['cell_bins'] nor ['bins'] takes the grid-bin
    branch first and then reads [gdf], which is [None]. *)
Definition read_txt (self : loc) (df : list (option record)) (bin_size : Z)
    (is_sparse : bool) : py loc :=
  let df := dropna df in
  d ← get_data self;
  (if bool_decide (_bin_type d = Some "cell_bins") then
     gdf ← lift (parse_cell_bin_coor df);
     cells ← ingest self (label <$> df) (geneID <$> df) (UMICount <$> df) is_sparse;
     hs ← lift (gdf_loc gdf cells);
     assign self (λ d, set_position d
                         (Some ((λ h, (hull_x_center h, hull_y_center h)) <$> hs)));;
     d ← get_data self;
     c ← get_cell (_cells d);
     put_cell (_cells d)
       (mkCell (_cell_name c) (total_counts c) (pct_counts_mt c)
          (n_genes_by_counts c) (Some (hull_cell_point <$> hs)))
   else
     let df := parse_bin_coor df bin_size in
     ingest self (cell_id <$> df) (geneID ∘ raw <$> df) (UMICount ∘ raw <$> df)
       is_sparse;;
     if bool_decide (_bin_type d = Some "bins") then
       assign self (λ d, set_position d
                           (Some ((λ c, (inject_Z c.1, inject_Z c.2)) <$>
                                    unique ((λ r, (x_center r, y_center r)) <$> df))))
     else raise no_loc);;
  mret self.

(** ** The codec *)

(** [m.tocsr()] and [m.tocsc()] on a sparse matrix. *)
Definition tocsr (m : matrix) : matrix :=
  match m with
  | Csc r c cols => Csr r c (transpose_lines r cols)
  | m => m
  end.
Definition tocsc (m : matrix) : matrix :=
  match m with
  | Csr r c rows => Csc r c (transpose_lines c rows)
  | m => m
  end.

(** The three arrays of a compressed matrix: where each line starts in the
    other two, and the index and the value of every stored entry. *)
Fixpoint indptr_from (start : nat) (lines : list (list (nat * Z))) : list nat :=
  match lines with
  | [] => [start]
  | line :: rest => start :: indptr_from (start + length line) rest
  end.

Fixpoint split_lines (indptr : list nat) (entries : list (nat * Z))
    : list (list (nat * Z)) :=
  match indptr with
  | a :: rest =>
      match rest with
      | b :: _ => take (b - a) entries :: split_lines rest (drop (b - a) entries)
      | [] => []
      end
  | [] => []
  end.

(** Modelled from the spec: the encodings of the module [h5ad], which is not
    among the sources.  Section 4.4: a metadata table is a group with the
    name sequence and each populated attribute array, under its own name; a
    sparse matrix is a group tagged with its format; a dense matrix, the
    positions and the bin type are plain datasets.  The geometry attribute
    of the cells is not among the attribute arrays that section 3 lists. *)
Definition member (k : string) (a : option h5data) : list (string * h5data) :=
  match a with Some d => [(k, d)] | None => [] end.

(** Modelled from the spec: [h5ad.write] on a [Cell], section 4.4. *)
Definition encode_cell (c : Cell) : h5obj :=
  Group "cell"
    (member "cell_name" (Strs <$> _cell_name c)
     ++ member "total_counts" (Floats <$> total_counts c)
     ++ member "pct_counts_mt" (Floats <$> pct_counts_mt c)
     ++ member "n_genes_by_counts" (Floats <$> n_genes_by_counts c)).

(** Modelled from the spec: [h5ad.write] on a [Gene], section 4.4. *)
Definition encode_gene (g : Gene) : h5obj :=
  Group "gene"
    (member "gene_name" (Strs <$> _gene_name g)
     ++ (prod_map id Floats <$> gene_attrs g)).

(** Modelled from the spec: a sparse matrix as a group tagged with its
    format, holding the shape and the three compressed arrays. *)
Definition encode_sparse (tag : string) (r c : nat) (lines : list (list (nat * Z)))
    : h5obj :=
  Group tag [("shape", Nats [r; c]);
             ("indptr", Nats (indptr_from 0 lines));
             ("indices", Nats (fst <$> concat lines));
             ("data", Ints (snd <$> concat lines))].

(** Modelled from the spec: [h5ad.write] on a matrix, with the format tag
    that the caller passes for a sparse one. *)
Definition encode_matrix (m : matrix) (sp_format : string) : h5obj :=
  match m with
  | Ndarray r c rows => Dataset (Ints2 r c rows)
  | _ =>
      if bool_decide (sp_format = "csr") then
        match tocsr m with
        | Csr r c rows => encode_sparse "csr_matrix" r c rows
        | _ => Dataset (Ints [])
        end
      else
        match tocsc m with
        | Csc r c cols => encode_sparse "csc_matrix" r c cols
        | _ => Dataset (Ints [])
        end
  end.

(** Modelled from the spec: what a group or a dataset decodes to. *)
Inductive decoded :=
| ACell (c : Cell)
| AGene (g : Gene)
| AMatrix (m : matrix)
| APosition (p : list (Q * Q))
| AString (s : string)
| AnArray (d : h5data)
| ADict (members : list (string * h5data)).

Definition lookup_member (k : string) (members : list (string * h5data))
    : option h5data :=
  snd <$> (snd <$> list_find (λ e, e.1 = k) members).

Definition strs_of (d : option h5data) : option (list string) :=
  match d with Some (Strs a) => Some a | _ => None end.
Definition floats_of (d : option h5data) : option (list Q) :=
  match d with Some (Floats a) => Some a | _ => None end.

(** Modelled from the spec: the decodings that [h5ad.read_group] chooses by
    the tag of the group. *)
Definition decode_cell (members : list (string * h5data)) : Cell :=
  mkCell (strs_of (lookup_member "cell_name" members))
    (floats_of (lookup_member "total_counts" members))
    (floats_of (lookup_member "pct_counts_mt" members))
    (floats_of (lookup_member "n_genes_by_counts" members))
    None.

Definition attrs_of (members : list (string * h5data)) : list (string * list Q) :=
  omap (λ e, match e.2 with Floats a => Some (e.1, a) | _ => None end) members.

Definition decode_gene (members : list (string * h5data)) : Gene :=
  match members with
  | (k, Strs a) :: rest =>
      if bool_decide (k = "gene_name") then mkGene (Some a) (attrs_of rest)
      else mkGene None (attrs_of members)
  | _ => mkGene None (attrs_of members)
  end.

Definition decode_sparse (members : list (string * h5data))
    : option (nat * nat * list (list (nat * Z))) :=
  match lookup_member "shape" members, lookup_member "indptr" members,
        lookup_member "indices" members, lookup_member "data" members with
  | Some (Nats [r; c]), Some (Nats indptr), Some (Nats indices), Some (Ints data) =>
      Some (r, c, split_lines indptr (zip indices data))
  | _, _, _, _ => None
  end.

(** Modelled from the spec: [h5ad.read_group], section 4.4. *)
Definition read_group (o : h5obj) : decoded :=
  match o with
  | Group encoding members =>
      if bool_decide (encoding = "cell") then ACell (decode_cell members)
      else if bool_decide (encoding = "gene") then AGene (decode_gene members)
      else if bool_decide (encoding = "csr_matrix") then
        match decode_sparse members with
        | Some (r, c, rows) => AMatrix (Csr r c rows)
        | None => ADict members
        end
      else if bool_decide (encoding = "csc_matrix") then
        match decode_sparse members with
        | Some (r, c, cols) => AMatrix (Csc r c cols)
        | None => ADict members
        end
      else ADict members
  | Dataset d => AnArray d
  end.

(** Modelled from the spec: [h5ad.read_dataset], section 4.4. *)
Definition read_dataset (o : h5obj) : decoded :=
  match o with
  | Dataset (Str s) => AString s
  | Dataset (Floats2 rows) => APosition rows
  | Dataset (Ints2 r c rows) => AMatrix (Ndarray r c rows)
  | Dataset d => AnArray d
  | Group _ members => ADict members
  end.

(** [f[key] = o] on an open file: h5py keeps the members of a file by name
    and lists them in the order of their names. *)
Fixpoint h5_put (key : string) (o : h5obj) (f : list (string * h5obj))
    : list (string * h5obj) :=
  match f with
  | [] => [(key, o)]
  | (k, o') :: rest =>
      if bool_decide (k = key) then (key, o) :: rest
      else if String.ltb key k then (key, o) :: (k, o') :: rest
      else (k, o') :: h5_put key o rest
  end.

(** Modelled from the spec: [h5ad.write(value, f, key)]; [None] writes
    nothing. *)
Definition h5ad_write (path key : string) (o : option h5obj) : py unit :=
  match o with
  | Some o => λ w, (Val (), with_files (λ fs, <[path := h5_put key o (fs !!! path)]> fs) w)
  | None => mret ()
  end.

(** [h5py.File(name, mode='w')]: creates the file, or empties it.  A name
    that is [None] is refused when h5py turns it into a path. *)
Definition h5py_File_w (name : option string) : py string :=
  match name with
  | Some path => λ w, (Val path, with_files <[path := []]> w)
  | None => raise (TypeError "expected str, bytes or os.PathLike object, not NoneType")
  end.

(** [isinstance(m, csr_matrix)] *)
Definition is_csr (m : option matrix) : bool :=
  match m with Some (Csr _ _ _) => true | _ => false end.

Definition write_h5ad (self : loc) : py unit :=
  d ← get_data self;
  (if bool_decide (output d = None)
   then logger_error "the output path must be set before writting."
   else mret ());;
  f ← h5py_File_w (output d);
  g ← get_gene (_genes d);
  h5ad_write f "genes" (Some (encode_gene g));;
  c ← get_cell (_cells d);
  h5ad_write f "cells" (Some (encode_cell c));;
  h5ad_write f "position" (Dataset ∘ Floats2 <$> _position d);;
  let sp_format := if is_csr (_exp_matrix d) then "csr" else "csc" in
  h5ad_write f "exp_matrix" ((λ m, encode_matrix m sp_format) <$> _exp_matrix d);;
  h5ad_write f "bin_type" (Dataset ∘ Str <$> _bin_type d).

Definition write (self : loc) : py unit := write_h5ad self.

Definition not_exists : string := "the input file is not exists, please check!".

(** The dispatch of [read_h5ad] on one member of the file.  An attribute of
    the model has one class; a member that decodes to another class is left
    undefined. *)
Definition is_group (o : h5obj) : bool :=
  match o with Group _ _ => true | Dataset _ => false end.

Definition read_member (self : loc) (k : string) (o : h5obj) : py unit :=
  if bool_decide (k = "cells") then
    match read_group o with
    | ACell c => l ← new_cell c; assign self (λ d, set_cells d l)
    | _ => lift Undefined
    end
  else if bool_decide (k = "genes") then
    match read_group o with
    | AGene g => l ← new_gene g; assign self (λ d, set_genes d l)
    | _ => lift Undefined
    end
  else if bool_decide (k = "position") then
    match read_dataset o with
    | APosition p => assign self (λ d, set_position d (Some p))
    | _ => lift Undefined
    end
  else if bool_decide (k = "bin_type") then
    match read_dataset o with
    | AString s => set_bin_type_checked self (Some s)
    | _ => lift Undefined
    end
  else if bool_decide (k = "exp_matrix") then
    match (if is_group o then read_group o else read_dataset o) with
    | AMatrix m => assign self (λ d, set_exp_matrix d (Some m))
    | _ => lift Undefined
    end
  else mret ().

Definition read_h5ad (self : loc) : py loc :=
  d ← get_data self;
  f ← (λ w,
         match file d with
         | None => (Raise (AttributeError "'NoneType' object has no attribute 'exists'"), w)
         | Some path =>
             match files w !! path with
             | Some f => (Val f, w)
             | None =>
                 (logger_error not_exists;; raise (FileExistsError not_exists)) w
             end
         end);
  for_each (λ e, read_member self e.1 e.2) f;;
  mret self.

(** [read]: any other format falls through and returns [None]. *)
Definition read (self : loc) (df : list (option record)) (bin_size : Z)
    (is_sparse : bool) : py (option loc) :=
  d ← get_data self;
  if bool_decide (file_format d = Some "txt")
  then Some <$> read_txt self df bin_size is_sparse
  else if bool_decide (file_format d = Some "h5ad") then Some <$> read_h5ad self
  else mret None.

(** ** Views of the store *)

(** The content of a dataset object, with its cell and gene tables. *)
Definition snapshot (w : world) (l : loc) : option (StereoExpData * Cell * Gene) :=
  d ← data_objs w !! l;
  c ← cell_objs w !! _cells d;
  g ← gene_objs w !! _genes d;
  Some (d, c, g).

(** ** Statements about the dataset *)

(** The bin types that are permitted: unset, grid bins, cell boundaries. *)
Definition permitted (b : option string) : Prop :=
  b ∈ [None; Some "bins"; Some "cell_bins"].

(** A selection whose indices all lie in [-n, n), and the position that such
    an index denotes: a negative index counts from the end. *)
Definition in_range (n : nat) (index : list Z) : Prop :=
  Forall (λ i, - Z.of_nat n <= i < Z.of_nat n) index.

Definition resolve (n : nat) (i : Z) : nat :=
  Z.to_nat (if bool_decide (i < 0) then Z.of_nat n + i else i).

(** The invariant of section 3 of the specification for a dataset of
    [n_cells] cells and [n_genes] genes: matrix, positions and names are
    populated and agree on the two sizes, and so does every populated
    attribute array. *)
Definition aligned {A} (n : nat) (a : option (list A)) : Prop :=
  ∀ l, a = Some l → length l = n.

Definition consistent (n_cells n_genes : nat) (s : StereoExpData * Cell * Gene)
    : Prop :=
  (∃ m, _exp_matrix s.1.1 = Some m ∧ matrix_wf m ∧ shape m = (n_cells, n_genes))
  ∧ (∃ p, _position s.1.1 = Some p ∧ length p = n_cells)
  ∧ (∃ a, _cell_name s.1.2 = Some a ∧ length a = n_cells)
  ∧ aligned n_cells (total_counts s.1.2)
  ∧ aligned n_cells (pct_counts_mt s.1.2)
  ∧ aligned n_cells (n_genes_by_counts s.1.2)
  ∧ (∃ a, _gene_name s.2 = Some a ∧ length a = n_genes)
  ∧ Forall (λ kv, length kv.2 = n_genes) (gene_attrs s.2).

(** What [Cell.sub_set] and [Gene.sub_set] leave in the object, for the
    positions [ks] that the index denotes. *)
Definition slice_cell (c : Cell) (ks : list nat) : Cell :=
  mkCell ((λ a, gather a ks) <$> _cell_name c)
    ((λ a, gather a ks) <$> total_counts c)
    ((λ a, gather a ks) <$> pct_counts_mt c)
    ((λ a, gather a ks) <$> n_genes_by_counts c)
    (cell_point c).

Definition slice_gene (g : Gene) (ks : list nat) : Gene :=
  mkGene ((λ a, gather a ks) <$> _gene_name g)
    (prod_map id (λ a, gather a ks) <$> gene_attrs g).

(** The footprint of subsetting the dataset object [ld], whose tables are
    the objects [lc] and [lg].  [kept w0 w] holds of the stores [w] that a
    run from [w0] goes through: no other object and no file has changed. *)
Definition kept (ld lc lg : loc) (w0 w : world) : Prop :=
  (∀ l, l ≠ ld → data_objs w !! l = data_objs w0 !! l)
  ∧ (∀ l, l ≠ lc → cell_objs w !! l = cell_objs w0 !! l)
  ∧ (∀ l, l ≠ lg → gene_objs w !! l = gene_objs w0 !! l)
  ∧ files w = files w0
  ∧ (∃ d, data_objs w !! ld = Some d ∧ _cells d = lc ∧ _genes d = lg)
  ∧ is_Some (cell_objs w !! lc) ∧ is_Some (gene_objs w !! lg).

Definition keeps (ld lc lg : loc) {A} (m : py A) : Prop :=
  ∀ w0 w, kept ld lc lg w0 w → kept ld lc lg w0 (m w).2.

Definition yields (ld lc lg : loc) {A} (m : py A) (R : A → Prop) : Prop :=
  ∀ w0 w a, kept ld lc lg w0 w → (m w).1 = Val a → R a.

(** A requested name that the name sequence does not hold; an unset
    sequence holds none. *)
Definition absent (a : option (list string)) (i : string) : Prop :=
  ∀ l, a = Some l → i ∉ l.

(** Every requested name is in the name sequence. *)
Definition present (request a : option (list string)) : Prop :=
  ∀ names, request = Some names → ∃ l, a = Some l ∧ Forall (λ i, i ∈ l) names.


(** ** A small store *)

(** One dataset of three cells and two genes at location 1, with its cell
    table and its gene table, both at location 1 of their class. *)
Definition small_cells : Cell :=
  mkCell (Some ["c0"; "c1"; "c2"]) (Some [5%Q; 7%Q; 9%Q]) None None None.

Definition small_genes : Gene := mkGene (Some ["g0"; "g1"]) [("n_cells", [2%Q; 2%Q])].

Definition small_data : StereoExpData :=
  mkData None None 1 None
    (Some (Csr 3 2 [[(0%nat, 1)]; [(1%nat, 2)]; [(0%nat, 3); (1%nat, 4)]]))
    1%positive 1%positive
    (Some [(0%Q, 0%Q); (1%Q, 1%Q); (2%Q, 2%Q)]) (Some "bins") 100.

Definition small_world : world :=
  mkWorld {[ 1%positive := small_cells ]} {[ 1%positive := small_genes ]}
    {[ 1%positive := small_data ]} ∅ [].

(** ** The content of a dataset *)

(** What a dataset holds, whichever objects hold it: the fields that the
    codec persists. *)
Record content := mkContent {
  the_matrix : option matrix;
  the_position : option (list (Q * Q));
  the_bin_type : option string;
  the_cells : Cell;
  the_genes : Gene }.

Definition content_of (w : world) (l : loc) : option content :=
  (λ s : StereoExpData * Cell * Gene,
     mkContent (_exp_matrix s.1.1) (_position s.1.1) (_bin_type s.1.1) s.1.2 s.2)
  <$> snapshot w l.

(** The cell table without its geometry attribute, which is not persisted. *)
Definition scalar_attributes (c : Cell) : Cell :=
  mkCell (_cell_name c) (total_counts c) (pct_counts_mt c) (n_genes_by_counts c) None.

(** The members of the container that [write_h5ad] leaves, in the order in
    which h5py lists them. *)
Definition container_of (k : content) : list (string * h5obj) :=
  from_option (λ b, [("bin_type", Dataset (Str b))]) [] (the_bin_type k)
  ++ [("cells", encode_cell (the_cells k))]
  ++ from_option
       (λ m, [("exp_matrix",
               encode_matrix m (if is_csr (Some m) then "csr" else "csc"))])
       [] (the_matrix k)
  ++ [("genes", encode_gene (the_genes k))]
  ++ from_option (λ p, [("position", Dataset (Floats2 p))]) [] (the_position k).

(** The small dataset with an output path, in cell-boundary mode. *)
Definition written_data : StereoExpData :=
  mkData None None 1 (Some "out.h5ad")
    (Some (Csr 3 2 [[(0%nat, 1)]; [(1%nat, 2)]; [(0%nat, 3); (1%nat, 4)]]))
    1%positive 1%positive
    (Some [(1 # 2, 0%Q); (1%Q, 1%Q); (2%Q, 7 # 3)]) (Some "cell_bins") 100.

Definition written_world : world :=
  mkWorld {[ 1%positive := small_cells ]} {[ 1%positive := small_genes ]}
    {[ 1%positive := written_data ]} ∅ [].

(** ** Statements about bins and hulls *)

(** A column of coordinates on which the arithmetic of the bins is exact:
    every value lies in [[-2 ^ 52, 2 ^ 52)], so that every offset from the
    least value and every bin center lies below [2 ^ 53], where float64
    holds every integer and int64 is far from wrapping around. *)
Definition exact_column (col : list Z) : Prop :=
  Forall (λ c, - 2 ^ 52 <= c < 2 ^ 52) col.




(** ** More of the dataset, its frames and the scatter *)

(** A dataset constructed on a matrix alone: no positions and no names. *)
Definition bare_data : StereoExpData :=
  mkData None None 1 None (Some (Ndarray 2 1 [[1]; [2]])) 1%positive 1%positive
    None None 100.

Definition bare_world : world :=
  mkWorld {[ 1%positive := mkCell None None None None None ]}
    {[ 1%positive := mkGene None [] ]} {[ 1%positive := bare_data ]} ∅ [].

(** Two cells with their boundaries, as [read_txt] leaves the cell table in
    cell-boundary mode. *)
Definition outlined_cells : Cell :=
  mkCell (Some ["a"; "b"]) None None None (Some [Point (0, 0); LineString (1, 1) (3, 1)]).

Definition outlined_world : world :=
  mkWorld {[ 1%positive := outlined_cells ]} ∅ ∅ ∅ [].

(** The line of the original that line [k] of a selection by name comes
    from: the first position of the [k]-th requested name in the name
    sequence [a]; without request, the line [k] itself. *)
Definition origin (a request : option (list string)) (k : nat) : option nat :=
  match request with
  | Some names => nm ← names !! k; head (argwhere_eq a nm)
  | None => Some k
  end.

(** [init]: the check, then the read when a file is given.  [df] is the
    frame that [pd.read_csv] parses from the file, should [read_txt] be the
    reader; [read] is called with [bin_size=self.bin_size] and its other
    arguments by default. *)
Definition init (super_check : loc → py unit) (self : loc)
    (df : list (option record)) : py unit :=
  check super_check self;;
  d ← get_data self;
  (if bool_decide (file d ≠ None) then
     logger_info ("init the property of StereoData from a file, "
                  +:+ "which take some time if file is too large.");;
     d ← get_data self;
     read self df (bin_size d) true;;
     mret ()
   else mret ());;
  logger_info "init finish.".

(** A method that does not depend on the files of the store, and leaves
    them alone. *)
Definition ignores_files {A} (m : py A) : Prop :=
  ∀ f w, m (with_files f w) = ((m w).1, with_files f (m w).2).

(** The five names that [read_h5ad] looks for in a container. *)
Definition known_members : list string :=
  ["cells"; "genes"; "position"; "bin_type"; "exp_matrix"].

(** The small dataset with an output path and a bin type that was given to
    the constructor and never checked. *)
Definition unchecked_data : StereoExpData :=
  mkData None None 1 (Some "out.h5ad")
    (Some (Csr 3 2 [[(0%nat, 1)]; [(1%nat, 2)]; [(0%nat, 3); (1%nat, 4)]]))
    1%positive 1%positive
    (Some [(0%Q, 0%Q); (1%Q, 1%Q); (2%Q, 2%Q)]) (Some "bin") 100.

Definition unchecked_world : world :=
  mkWorld {[ 1%positive := small_cells ]} {[ 1%positive := small_genes ]}
    {[ 1%positive := unchecked_data ]} ∅ [].

(** A dataset constructed to read the container at ["in.h5ad"], before any
    read. *)
Definition reader_data : StereoExpData :=
  mkData (Some "in.h5ad") (Some "h5ad") 1 None None 1%positive 1%positive None None 100.

Definition reader_world : world :=
  mkWorld {[ 1%positive := mkCell None None None None None ]}
    {[ 1%positive := mkGene None [] ]} {[ 1%positive := reader_data ]} ∅ [].

(** The first position of each name of a request in the name sequence [a]. *)
Definition first_positions (a : option (list string)) (names : list string)
    : list nat :=
  omap (λ nm, head (argwhere_eq a nm)) names.

(** ** pandas: frames of values *)

(** The labels of an axis of a frame: the names handed to the constructor,
    or the default [RangeIndex] of as many places as the data has. *)
Inductive labels :=
| RangeIndex (n : nat)
| Index (names : list string).

Definition labels_length (l : labels) : nat :=
  match l with RangeIndex n => n | Index names => length names end.

(** What a frame holds: the values of the array it was built from, or NaN at
    every place of its axes when it was built from no data. *)
Inductive frame_values :=
| Values (rows : list (list Z))
| AllNaN.

Record DataFrame := mkFrame {
  frame_data : frame_values;
  frame_index : labels;
  frame_columns : labels }.

Definition shape_str (s : nat * nat) : string :=
  "(" +:+ pretty s.1 +:+ ", " +:+ pretty s.2 +:+ ")".

(** [pd.DataFrame(data, index=index, columns=columns)] for a two-dimensional
    array or [None] as data.  Labels that do not fit the shape of the array
    are refused.  The callers hand over no sparse matrix. *)
Definition pd_DataFrame (data : option matrix) (index columns : option (list string))
    : outcome DataFrame :=
  match data with
  | None => Val (mkFrame AllNaN (Index (default [] index)) (Index (default [] columns)))
  | Some (Ndarray r c rows) =>
      let index := from_option Index (RangeIndex r) index in
      let columns := from_option Index (RangeIndex c) columns in
      if bool_decide (labels_length index = r ∧ labels_length columns = c)
      then Val (mkFrame (Values rows) index columns)
      else if bool_decide (r = 0%nat)
      then Raise (ValueError "Empty data passed with indices specified.")
      else Raise (ValueError ("Shape of passed values is " +:+ shape_str (r, c)
                              +:+ ", indices imply "
                              +:+ shape_str (labels_length index, labels_length columns)))
  | Some _ => Undefined
  end.

(** [issparse(m)] *)
Definition issparse (m : option matrix) : bool :=
  match m with Some (Csr _ _ _) | Some (Csc _ _ _) => true | _ => false end.

(** [a[mask]] for a boolean mask: the elements at the places where the mask
    holds, in their order; the mask must be as long as the axis. *)
Definition mask_error (n n_mask : nat) : exn :=
  IndexError ("boolean index did not match indexed array along dimension 0; "
              +:+ "dimension is " +:+ pretty n
              +:+ " but corresponding boolean dimension is " +:+ pretty n_mask).

Definition compress {A} (mask : list bool) (a : list A) : list A :=
  snd <$> filter (λ e, e.1 = true) (zip mask a).

Definition np_mask {A} (a : list A) (mask : list bool) : outcome (list A) :=
  if bool_decide (length mask = length a) then Val (compress mask a)
  else Raise (mask_error (length a) (length mask)).

(** [m[mask, :]] on a dense matrix. *)
Definition mask_rows (m : matrix) (mask : list bool) : outcome matrix :=
  match m with
  | Ndarray r c rows =>
      if bool_decide (length mask = r)
      then Val (Ndarray (length (compress mask rows)) c (compress mask rows))
      else Raise (mask_error r (length mask))
  | _ => Undefined
  end.

(** ** stereo_exp_data.py: [to_df] *)

Definition to_df (self : loc) : py DataFrame :=
  d ← get_data self;
  let data := if issparse (_exp_matrix d) then toarray <$> _exp_matrix d
              else _exp_matrix d in
  columns ← gene_names self;
  index ← cell_names self;
  lift (pd_DataFrame data index columns).

(** ** data_helper.py *)

Definition no_toarray : exn :=
  AttributeError "'NoneType' object has no attribute 'toarray'".

(** [exp_matrix2df] *)
Definition exp_matrix2df (data : loc) (cell_name gene_name : option (list string))
    : py DataFrame :=
  cell_index ←
    match cell_name with
    | Some names => Some <$> resolve_names (cell_names data) names
    | None => mret None
    end;
  gene_index ←
    match gene_name with
    | Some names => Some <$> resolve_names (gene_names data) names
    | None => mret None
    end;
  d ← get_data data;
  x ← match cell_index with
      | Some index =>
          lift (from_option (λ m, Some <$> select_rows m index)
                  (Raise not_subscriptable) (_exp_matrix d))
      | None => mret (_exp_matrix d)
      end;
  x ← match gene_index with
      | Some index =>
          lift (from_option (λ m, Some <$> select_cols m index)
                  (Raise not_subscriptable) x)
      | None => mret x
      end;
  x ← match x with
      | Some (Ndarray r c rows) => mret (Ndarray r c rows)
      | Some m => mret (toarray m)
      | None => raise no_toarray
      end;
  index ← match cell_name with Some names => mret (Some names) | None => cell_names data end;
  columns ← match gene_name with Some names => mret (Some names) | None => gene_names data end;
  lift (pd_DataFrame (Some x) index columns).

(** [select_group].  [cluster] is the column ['group'] of the frame of the
    clustering, one label per cell; [groups] is one label or a list of
    them. *)
Definition select_group (st_data : loc) (groups : string + list string)
    (cluster : list string) : py DataFrame :=
  let groups := match groups with inl g => [g] | inr gs => gs end in
  for_each (λ g, if bool_decide (g ∉ cluster)
                 then raise (ValueError ("cluster " +:+ g +:+ " is not in all cluster."))
                 else mret ()) groups;;
  let group_index := (λ g, bool_decide (g ∈ groups)) <$> cluster in
  d ← get_data st_data;
  let exp_matrix := if issparse (_exp_matrix d) then toarray <$> _exp_matrix d
                    else _exp_matrix d in
  group_sub ← lift (from_option (λ m, mask_rows m group_index)
                      (Raise not_subscriptable) exp_matrix);
  names ← cell_names st_data;
  obs ← lift (from_option (λ a, np_mask a group_index) (Raise not_subscriptable) names);
  gene_name ← gene_names st_data;
  columns ← match gene_name with
            | Some a => mret a
            | None => raise (TypeError "'NoneType' object is not iterable")
            end;
  lift (pd_DataFrame (Some group_sub) (Some obs) (Some columns)).

(** ** interactive_scatter.py *)

(** What the methods below read and write of an [InteractiveScatter]: the
    dataset it shows, the number of lines of [scatter_df] (whose index is
    the default one, the positions from 0), and the result of the last
    selection. *)
Record InteractiveScatter := mkScatter {
  scatter_data : loc;
  scatter_rows : nat;
  selected_exp_data : option loc }.

(** The exceptions of this module: the [KeyError] of [Index.drop], whose
    argument is the array of the labels that the index does not hold, and
    the exceptions of the dataset. *)
Inductive scatter_exn :=
| KeyError (not_found : list Z)
| DataError (e : exn).

Inductive scatter_outcome :=
| Done (self : InteractiveScatter)
| Fails (e : scatter_exn)
| NotReached.

(** [index.drop(labels)] on the index of a frame of [n] lines: the labels
    of the index that are not dropped, in their order; every label to drop
    must be one of the index. *)
Definition Index_drop (n : nat) (labels : list Z) : list Z + list Z :=
  let not_found := filter (λ l, ¬ (0 <= l < Z.of_nat n)) labels in
  if decide (not_found = [])
  then inl (filter (λ i, i ∉ labels) (Z.of_nat <$> seq 0 n))
  else inr not_found.

Definition generate_selected_expr_matrix (self : InteractiveScatter)
    (selected_pos : option (list Z)) (drop : bool)
    : world → scatter_outcome * world := λ w,
  match selected_pos with
  | Some pos =>
      match (if drop then Index_drop (scatter_rows self) pos else inl pos) with
      | inl selected_index =>
          match (data_temp ← deepcopy (scatter_data self);
                 sub_by_index data_temp (Some selected_index) None) w with
          | (Val l, w') =>
              (Done (mkScatter (scatter_data self) (scatter_rows self) (Some l)), w')
          | (Raise e, w') => (Fails (DataError e), w')
          | (Undefined, w') => (NotReached, w')
          end
      | inr not_found => (Fails (KeyError not_found), w)
      end
  | None => (Done (mkScatter (scatter_data self) (scatter_rows self) None), w)
  end.

(** The dense array that [to_df] and the functions of data_helper.py make of
    a matrix before they frame it. *)
Definition dense (m : matrix) : matrix :=
  match m with
  | Ndarray r c rows => Ndarray r c rows
  | m => toarray m
  end.

Set Warnings "-clear-no-such-hyp".

(** * Properties *)

(** ** Running a method *)

Lemma run_bind {A B} (m : py A) (f : A → py B) (w : world) :
  (m ≫= f) w =
  match m w with
  | (Val a, w') => f a w'
  | (Raise e, w') => (Raise e, w')
  | (Undefined, w') => (Undefined, w')
  end.
Proof. reflexivity. Qed.

Lemma run_ret {A} (a : A) (w : world) : (mret a : py A) w = (Val a, w).
Proof. reflexivity. Qed.

Lemma run_lift {A} (o : outcome A) (w : world) : lift o w = (o, w).
Proof. reflexivity. Qed.

Ltac py_simp :=
  repeat first
    [ rewrite run_bind | rewrite run_ret | rewrite run_lift
    | progress cbn beta iota ].

Lemma run_get_data l d w :
  data_objs w !! l = Some d → get_data l w = (Val d, w).
Proof. intros H. unfold get_data. by rewrite H. Qed.

Lemma run_get_cell l c w :
  cell_objs w !! l = Some c → get_cell l w = (Val c, w).
Proof. intros H. unfold get_cell. by rewrite H. Qed.

Lemma run_get_gene l g w :
  gene_objs w !! l = Some g → get_gene l w = (Val g, w).
Proof. intros H. unfold get_gene. by rewrite H. Qed.

Lemma run_assign l f d w :
  data_objs w !! l = Some d →
  assign l f w = (Val (), with_data <[l := f d]> w).
Proof. intros H. unfold assign. rewrite run_bind, (run_get_data _ _ _ H). done. Qed.

(** ** Strings *)

Lemma prefix_app (s t : string) : String.prefix s (s +:+ t) = true.
Proof.
  induction s as [|a s IH]; [by destruct t|].
  change (String a s +:+ t) with (String a (s +:+ t)). simpl.
  destruct (Ascii.ascii_dec a a); [done | congruence].
Qed.

Lemma mentions_here (s t : string) : mentions s (s +:+ t) = true.
Proof.
  assert (H : ∀ k m, String.prefix k m = true → mentions k m = true)
    by (intros k [|b m] Hk; simpl in *; rewrite Hk; done).
  apply H, prefix_app.
Qed.

Lemma mentions_app (pre s post : string) : mentions s (pre +:+ s +:+ post) = true.
Proof.
  induction pre as [|a pre IH]; [exact (mentions_here s post)|].
  change (String a pre +:+ s +:+ post) with (String a (pre +:+ s +:+ post)).
  simpl. rewrite IH. apply orb_true_r.
Qed.

(** ** The type guard of [Cell.cell_name] *)

(** C10.  Assigning to [cell_name] a value that is not an ndarray raises a
    [TypeError] and leaves the store, hence the stored name, as it was;
    assigning an ndarray returns, the property then reads as that array and
    the other attributes of the cell keep their value. *)
Theorem cell_name_setter_guard (w : world) (self : loc) (c : Cell) (v : pyval) :
  cell_objs w !! self = Some c →
  (is_ndarray v = false →
     Cell_set_cell_name self v w
     = (Raise (TypeError "cell name must be a np.ndarray object."), w)
     ∧ Cell_cell_name self w = (Val (_cell_name c), w))
  ∧ (∀ a, v = PyNdarray a →
       ∃ w', Cell_set_cell_name self v w = (Val (), w')
             ∧ Cell_cell_name self w' = (Val (Some a), w')
             ∧ cell_objs w' !! self
               = Some (mkCell (Some a) (total_counts c) (pct_counts_mt c)
                         (n_genes_by_counts c) (cell_point c))).
Proof.
  intros Hc. split.
  - intros Hv. split.
    + unfold Cell_set_cell_name. by rewrite Hv.
    + unfold Cell_cell_name. by rewrite run_bind, (run_get_cell _ _ _ Hc).
  - intros a ->. eexists. split; [|split].
    + unfold Cell_set_cell_name. simpl.
      rewrite run_bind, (run_get_cell _ _ _ Hc). reflexivity.
    + unfold Cell_cell_name. rewrite run_bind. unfold get_cell. simpl.
      by rewrite lookup_insert_eq.
    + simpl. by rewrite lookup_insert_eq.
Qed.

Lemma cell_name_setter_guard_witness :
  Cell_set_cell_name 1%positive (PyList ["c0"; "c1"; "c2"]) small_world
  = (Raise (TypeError "cell name must be a np.ndarray object."), small_world)
  ∧ ∃ w', Cell_set_cell_name 1%positive (PyNdarray ["a"; "b"; "c"]) small_world
          = (Val (), w')
          ∧ Cell_cell_name 1%positive w' = (Val (Some ["a"; "b"; "c"]), w').
Proof.
  split.
  - apply (cell_name_setter_guard small_world 1%positive small_cells
             (PyList ["c0"; "c1"; "c2"]) eq_refl).
    reflexivity.
  - destruct (cell_name_setter_guard small_world 1%positive small_cells
                (PyNdarray ["a"; "b"; "c"]) eq_refl) as [_ H].
    destruct (H _ eq_refl) as (w' & H1 & H2 & _). by exists w'.
Defined.

(** ** Validation of the bin type *)

Lemma bin_type_check_permitted (b : option string) (w : world) :
  permitted b → bin_type_check b w = (Val (), w).
Proof.
  unfold permitted, bin_type_check. intros Hb.
  destruct b as [s|]; [|done].
  rewrite (bool_decide_eq_false_2 (Some s ∉ _)); [by rewrite andb_false_r|].
  intros Hn. apply Hn. revert Hb. rewrite !elem_of_cons. naive_solver.
Qed.

Lemma bin_type_check_rejected (b : option string) (w : world) :
  ¬ permitted b →
  bin_type_check b w
  = (Raise Exception,
     (logger_error ("the bin type `" +:+ py_str b
                    +:+ "` is not in the range, please check!") w).2).
Proof.
  unfold permitted, bin_type_check. intros Hb.
  rewrite !elem_of_cons in Hb.
  rewrite (bool_decide_eq_true_2 (b ≠ None)) by naive_solver.
  rewrite (bool_decide_eq_true_2 (b ∉ _))
    by (rewrite !elem_of_cons, elem_of_nil; naive_solver).
  reflexivity.
Qed.

(** C5, amended.  [bin_type_check], the setter of [bin_type] and [check]
    accept the three permitted values; on any other value they raise the
    bare [Exception], which carries no message, after logging an error whose
    text cites the value: the citation is in the log, not in the exception.
    The setter stores a permitted value and stores nothing otherwise.
    [check] first runs the check of the base class, [super_check]: once that
    one has returned, [check] returns exactly when the bin type is
    permitted. *)
Theorem bin_type_validation (super_check : loc → py unit) (w w1 : world)
    (self : loc) (d d1 : StereoExpData) (b : option string) :
  data_objs w !! self = Some d →
  super_check self w = (Val (), w1) →
  data_objs w1 !! self = Some d1 →
  (permitted b →
     bin_type_check b w = (Val (), w)
     ∧ set_bin_type_checked self b w
       = (Val (), with_data <[self := set_bin_type d b]> w))
  ∧ (¬ permitted b →
       ∃ msg, mentions (py_str b) msg = true
              ∧ bin_type_check b w = (Raise Exception, (logger_error msg w).2)
              ∧ set_bin_type_checked self b w
                = (Raise Exception, (logger_error msg w).2))
  ∧ (permitted (_bin_type d1) → check super_check self w = (Val (), w1))
  ∧ (¬ permitted (_bin_type d1) →
       ∃ msg, mentions (py_str (_bin_type d1)) msg = true
              ∧ check super_check self w
                = (Raise Exception, (logger_error msg w1).2)).
Proof.
  intros Hd Hs Hd1. repeat split.
  - by apply bin_type_check_permitted.
  - unfold set_bin_type_checked.
    rewrite run_bind, bin_type_check_permitted by done.
    by apply (run_assign _ (λ d, set_bin_type d b)).
  - intros Hb. eexists. split; [apply mentions_app|].
    unfold set_bin_type_checked.
    rewrite run_bind, bin_type_check_rejected by done. done.
  - intros Hb. unfold check.
    rewrite run_bind, Hs, run_bind, (run_get_data _ _ _ Hd1).
    by apply bin_type_check_permitted.
  - intros Hb. eexists. split; [apply mentions_app|].
    unfold check.
    rewrite run_bind, Hs, run_bind, (run_get_data _ _ _ Hd1).
    by apply bin_type_check_rejected.
Qed.

Lemma bin_type_validation_witness :
  bin_type_check (Some "cell_bins") small_world = (Val (), small_world)
  ∧ (bin_type_check (Some "bin") small_world).1 = Raise Exception
  ∧ check (λ _, mret ()) 1%positive small_world = (Val (), small_world).
Proof.
  pose proof (bin_type_validation (λ _, mret ()) small_world small_world
    1%positive _ _ (Some "cell_bins") eq_refl eq_refl eq_refl) as (H1 & _ & H3 & _).
  pose proof (bin_type_validation (λ _, mret ()) small_world small_world
    1%positive _ _ (Some "bin") eq_refl eq_refl eq_refl) as (_ & H2 & _).
  split; [apply H1; unfold permitted; rewrite !elem_of_cons; naive_solver|].
  split; [|apply H3; unfold permitted; simpl; rewrite !elem_of_cons; naive_solver].
  destruct H2 as (msg & _ & -> & _); [|done].
  unfold permitted. rewrite !elem_of_cons, elem_of_nil. naive_solver.
Defined.

(** C5 as it is stated fails: for the bin type "bin", which is not a
    permitted one, [bin_type_check], the setter and [check] raise an
    exception whose message does not contain "bin". *)
Lemma bin_type_error_cites_nothing :
  ∃ e, (bin_type_check (Some "bin") small_world).1 = Raise e
       ∧ (set_bin_type_checked 1%positive (Some "bin") small_world).1 = Raise e
       ∧ (check (λ _, mret ()) 1%positive unchecked_world).1 = Raise e
       ∧ mentions "bin" (exn_message e) = false.
Proof. exists Exception. repeat split; vm_compute; reflexivity. Qed.

(** ** Indices *)

Lemma norm_index_in_range (n : nat) (i : Z) :
  - Z.of_nat n <= i < Z.of_nat n →
  norm_index n i = Some (resolve n i) ∧ (resolve n i < n)%nat.
Proof.
  intros Hi. unfold norm_index, resolve.
  repeat case_bool_decide; first [lia | split; [done | lia]].
Qed.

Lemma norm_index_out_of_range (n : nat) (i : Z) :
  ¬ (- Z.of_nat n <= i < Z.of_nat n) → norm_index n i = None.
Proof. intros Hi. unfold norm_index. repeat case_bool_decide; first [lia | done]. Qed.

Lemma norm_indices_in_range (err : Z → nat → exn) (n : nat) (index : list Z) :
  in_range n index →
  norm_indices err n index = Val (resolve n <$> index)
  ∧ Forall (λ k, k < n)%nat (resolve n <$> index).
Proof.
  induction 1 as [|i index Hi _ [IH1 IH2]]; [by split; [|constructor]|].
  destruct (norm_index_in_range n i Hi) as [E Hlt].
  simpl. rewrite E, IH1. split; [done | by constructor].
Qed.

Lemma gather_cons {A} (l : list A) (k : nat) (ks : list nat) (x : A) :
  l !! k = Some x → gather l (k :: ks) = x :: gather l ks.
Proof. intros H. unfold gather. simpl. by rewrite H. Qed.

Lemma gather_spec {A} (l : list A) (ks : list nat) :
  Forall (λ k, k < length l)%nat ks →
  length (gather l ks) = length ks
  ∧ ∀ j k, ks !! j = Some k → gather l ks !! j = l !! k.
Proof.
  induction 1 as [|k ks Hk _ [IH1 IH2]]; [by split|].
  destruct (lookup_lt_is_Some_2 l k Hk) as [x Hx].
  rewrite (gather_cons _ _ _ _ Hx). split; [simpl; by rewrite IH1|].
  intros [|j] k' Hj; simpl in *; [congruence | by apply IH2].
Qed.

Lemma np_take_in_range {A} (a : list A) (index : list Z) :
  in_range (length a) index →
  np_take a index = Val (gather a (resolve (length a) <$> index)).
Proof.
  intros H. unfold np_take.
  by rewrite (proj1 (norm_indices_in_range _ _ _ H)).
Qed.

(** ** Compressed lines *)

Lemma filter_none {A} (P : A → Prop) `{∀ x, Decision (P x)} (l : list A) :
  Forall (λ x, ¬ P x) l → filter P l = [].
Proof.
  induction 1 as [|x l Hx _ IH]; [done|]. by rewrite filter_cons_False.
Qed.

Lemma foldr_add_app (l1 l2 : list Z) :
  foldr Z.add 0 (l1 ++ l2) = foldr Z.add 0 l1 + foldr Z.add 0 l2.
Proof. induction l1 as [|x l1 IH]; simpl; lia. Qed.

Lemma line_value_app (l1 l2 : list (nat * Z)) (j : nat) :
  line_value (l1 ++ l2) j = line_value l1 j + line_value l2 j.
Proof. unfold line_value. by rewrite filter_app, fmap_app, foldr_add_app. Qed.

Lemma line_value_cons (e : nat * Z) (l : list (nat * Z)) (j : nat) :
  line_value (e :: l) j = (if decide (e.1 = j) then e.2 else 0) + line_value l j.
Proof.
  unfold line_value. rewrite filter_cons. by destruct (decide (e.1 = j)).
Qed.

Lemma positions_from_bounds {A} `{EqDecision A} (s : nat) (l : list A) (x : A) :
  Forall (λ k, s ≤ k < s + length l)%nat (positions_from s l x).
Proof.
  revert s. induction l as [|y l IH]; intros s; simpl; [constructor|].
  specialize (IH (S s)).
  assert (Forall (λ k, s ≤ k < s + S (length l))%nat (positions_from (S s) l x))
    by (eapply Forall_impl; [exact IH | simpl; lia]).
  case_bool_decide; [constructor; [lia | done] | done].
Qed.

Lemma line_value_positions {A} `{EqDecision A} (s : nat) (l : list A) (x : A)
    (v : Z) (k : nat) :
  line_value ((λ k', (k', v)) <$> positions_from s l x) (s + k)
  = if decide (l !! k = Some x) then v else 0.
Proof.
  revert s k. induction l as [|y l IH]; intros s k; simpl.
  - done.
  - assert (Hrest : ∀ k', line_value ((λ k', (k', v)) <$> positions_from (S s) l x)
                            (s + S k') = if decide (l !! k' = Some x) then v else 0)
      by (intros k'; rewrite <- (IH (S s) k'); f_equal; lia).
    assert (Hnone : line_value ((λ k', (k', v)) <$> positions_from (S s) l x) (s + 0)
                    = 0).
    { unfold line_value. rewrite filter_none; [done|].
      apply Forall_fmap. eapply Forall_impl; [apply positions_from_bounds|].
      simpl. lia. }
    destruct k as [|k]; simpl.
    + case_bool_decide as Hy; subst.
      * rewrite fmap_cons, line_value_cons, Hnone. simpl.
        rewrite decide_True by done. rewrite decide_True by done. lia.
      * rewrite Hnone. rewrite decide_False; [done | congruence].
    + case_bool_decide as Hy; subst.
      * rewrite fmap_cons, line_value_cons, Hrest. simpl.
        rewrite decide_False by lia. lia.
      * apply Hrest.
Qed.

Lemma line_value_select (ks : list nat) (line : list (nat * Z)) (k i : nat) :
  ks !! k = Some i → line_value (line_select ks line) k = line_value line i.
Proof.
  intros Hk. induction line as [|e line IH]; [done|].
  unfold line_select in *. rewrite bind_cons, line_value_app, IH, line_value_cons.
  f_equal. rewrite <- (Nat.add_0_l k) at 1. rewrite line_value_positions, Hk.
  destruct (decide (e.1 = i)); [by rewrite decide_True by congruence|].
  rewrite decide_False; [done | congruence].
Qed.

Lemma line_select_bounds (ks : list nat) (line : list (nat * Z)) :
  Forall (λ e, e.1 < length ks)%nat (line_select ks line).
Proof.
  induction line as [|e line IH]; [constructor|].
  unfold line_select in *. rewrite bind_cons. apply Forall_app. split; [|done].
  apply Forall_fmap. eapply Forall_impl; [apply positions_from_bounds|].
  simpl. lia.
Qed.

(** ** Selections of the matrix *)

Lemma gather_Forall {A} (P : A → Prop) (l : list A) (ks : list nat) :
  Forall P l → Forall P (gather l ks).
Proof.
  intros Hl. apply Forall_forall. intros x Hx.
  apply list_elem_of_omap in Hx as (k & _ & Hk).
  eapply Forall_forall; [exact Hl|]. by eapply list_elem_of_lookup_2.
Qed.

Lemma select_rows_spec (m : matrix) (index : list Z) :
  matrix_wf m → in_range (shape m).1 index →
  ∃ m', select_rows m index = Val m'
        ∧ matrix_wf m'
        ∧ shape m' = (length index, (shape m).2)
        ∧ ∀ k i j, index !! k = Some i →
            entry m' k j = entry m (resolve (shape m).1 i) j.
Proof.
  intros Hwf Hin.
  assert (Hlook : ∀ k i, index !! k = Some i →
            (resolve (shape m).1 <$> index) !! k = Some (resolve (shape m).1 i))
    by (intros k i Hk; by rewrite list_lookup_fmap, Hk).
  destruct m as [r c rows|r c rows|r c cols]; simpl in *;
    destruct Hwf as [Hlen Hall];
    eexists; rewrite (proj1 (norm_indices_in_range _ _ _ Hin));
    pose proof (proj2 (norm_indices_in_range out_of_bounds _ _ Hin)) as Hks;
    (split; [reflexivity|]); rewrite length_fmap.
  - subst r. destruct (gather_spec rows _ Hks) as [Hl Hg].
    repeat split; [by rewrite Hl, length_fmap | by apply gather_Forall |].
    intros k i j Hk. simpl. by rewrite (Hg _ _ (Hlook _ _ Hk)).
  - subst r. destruct (gather_spec rows _ Hks) as [Hl Hg].
    repeat split; [by rewrite Hl, length_fmap | by apply gather_Forall |].
    intros k i j Hk. simpl. by rewrite (Hg _ _ (Hlook _ _ Hk)).
  - repeat split; [by rewrite length_fmap | |].
    + apply Forall_fmap, Forall_forall. intros line _. simpl.
      rewrite <- (length_fmap (resolve r) index). apply line_select_bounds.
    + intros k i j Hk. simpl.
      pose proof (lookup_lt_Some _ _ _ Hk) as Hklt.
      pose proof (Forall_lookup_1 _ _ _ _ Hks (Hlook _ _ Hk)) as Hilt.
      simpl in Hilt.
      rewrite !bool_decide_eq_true_2 by done.
      rewrite list_lookup_fmap. destruct (cols !! j) as [line|]; [simpl|done].
      f_equal. by apply line_value_select, Hlook.
Qed.

Lemma select_cols_spec (m : matrix) (index : list Z) :
  matrix_wf m → in_range (shape m).2 index →
  ∃ m', select_cols m index = Val m'
        ∧ matrix_wf m'
        ∧ shape m' = ((shape m).1, length index)
        ∧ ∀ i k j, index !! k = Some j →
            entry m' i k = entry m i (resolve (shape m).2 j).
Proof.
  intros Hwf Hin.
  assert (Hlook : ∀ k i, index !! k = Some i →
            (resolve (shape m).2 <$> index) !! k = Some (resolve (shape m).2 i))
    by (intros k i Hk; by rewrite list_lookup_fmap, Hk).
  destruct m as [r c rows|r c rows|r c cols]; simpl in *;
    destruct Hwf as [Hlen Hall];
    eexists; rewrite (proj1 (norm_indices_in_range _ _ _ Hin));
    pose proof (proj2 (norm_indices_in_range out_of_bounds _ _ Hin)) as Hks;
    (split; [reflexivity|]); rewrite length_fmap.
  - repeat split; [by rewrite length_fmap | |].
    + apply Forall_fmap, Forall_forall. intros row Hrow. simpl.
      pose proof (proj1 (Forall_forall _ _) Hall row Hrow) as Hc. simpl in Hc.
      assert (Hks' : Forall (λ k, k < length row)%nat (resolve c <$> index))
        by (by rewrite Hc).
      by rewrite (proj1 (gather_spec row _ Hks')), length_fmap.
    + intros i k j Hk. simpl. rewrite list_lookup_fmap.
      destruct (rows !! i) as [row|] eqn:Hi; [simpl|done].
      pose proof (Forall_lookup_1 _ _ _ _ Hall Hi) as Hc. simpl in Hc.
      assert (Hks' : Forall (λ k, k < length row)%nat (resolve c <$> index))
        by (by rewrite Hc).
      by rewrite (proj2 (gather_spec row _ Hks') _ _ (Hlook _ _ Hk)).
  - repeat split; [by rewrite length_fmap | |].
    + apply Forall_fmap, Forall_forall. intros line _. simpl.
      rewrite <- (length_fmap (resolve c) index). apply line_select_bounds.
    + intros i k j Hk. simpl.
      pose proof (lookup_lt_Some _ _ _ Hk) as Hklt.
      pose proof (Forall_lookup_1 _ _ _ _ Hks (Hlook _ _ Hk)) as Hjlt.
      simpl in Hjlt.
      rewrite !bool_decide_eq_true_2 by done.
      rewrite list_lookup_fmap. destruct (rows !! i) as [line|]; [simpl|done].
      f_equal. by apply line_value_select, Hlook.
  - subst c. destruct (gather_spec cols _ Hks) as [Hl Hg].
    repeat split; [by rewrite Hl, length_fmap | by apply gather_Forall |].
    intros i k j Hk. simpl. by rewrite (Hg _ _ (Hlook _ _ Hk)).
Qed.

(** ** Objects of the store under mutation *)

#[local] Arguments lift : simpl never.
#[local] Arguments get_cell : simpl never.
#[local] Arguments put_cell : simpl never.
#[local] Arguments get_gene : simpl never.
#[local] Arguments put_gene : simpl never.
#[local] Arguments get_data : simpl never.
#[local] Arguments put_data : simpl never.
#[local] Arguments assign : simpl never.

Lemma with_cells_twice l c1 c2 w :
  with_cells <[l := c2]> (with_cells <[l := c1]> w) = with_cells <[l := c2]> w.
Proof. unfold with_cells. simpl. by rewrite insert_insert_eq. Qed.

Lemma with_cells_id l c w : cell_objs w !! l = Some c → with_cells <[l := c]> w = w.
Proof. intros H. destruct w. unfold with_cells. simpl in *. by rewrite insert_id. Qed.

Lemma with_data_twice l d1 d2 w :
  with_data <[l := d2]> (with_data <[l := d1]> w) = with_data <[l := d2]> w.
Proof. unfold with_data. simpl. by rewrite insert_insert_eq. Qed.

Lemma with_data_id l d w : data_objs w !! l = Some d → with_data <[l := d]> w = w.
Proof. intros H. destruct w. unfold with_data. simpl in *. by rewrite insert_id. Qed.

Lemma with_genes_id l g w : gene_objs w !! l = Some g → with_genes <[l := g]> w = w.
Proof. intros H. destruct w. unfold with_genes. simpl in *. by rewrite insert_id. Qed.

Lemma run_lift_take {A} (a : list A) (n : nat) (index : list Z) (w : world) :
  length a = n → in_range n index →
  lift (np_take a index) w = (Val (gather a (resolve n <$> index)), w).
Proof. intros <- H. unfold lift. by rewrite np_take_in_range. Qed.

Lemma run_get_cell_put l c w : get_cell l (with_cells <[l := c]> w) = (Val c, with_cells <[l := c]> w).
Proof. unfold get_cell. simpl. by rewrite lookup_insert_eq. Qed.

Lemma run_set_cell_name_put l c a w :
  Cell_set_cell_name l (PyNdarray a) (with_cells <[l := c]> w)
  = (Val (),
     with_cells <[l := mkCell (Some a) (total_counts c) (pct_counts_mt c)
                         (n_genes_by_counts c) (cell_point c)]> w).
Proof.
  unfold Cell_set_cell_name. cbn [is_ndarray negb as_ndarray].
  rewrite run_bind. unfold get_cell at 1. simpl. rewrite lookup_insert_eq. simpl.
  unfold put_cell. by rewrite with_cells_twice.
Qed.

Lemma run_put_cell_put l c c' w :
  put_cell l c' (with_cells <[l := c]> w) = (Val (), with_cells <[l := c']> w).
Proof. unfold put_cell. by rewrite with_cells_twice. Qed.

Ltac cell_stage :=
  first
    [ rewrite run_bind
    | rewrite run_ret
    | rewrite run_get_cell_put
    | rewrite run_put_cell_put
    | rewrite run_set_cell_name_put
    | match goal with
      | |- context [lift (np_take ?a _) _] => rewrite (run_lift_take a _) by auto
      end
    | progress cbn beta iota delta
        [_cell_name total_counts pct_counts_mt n_genes_by_counts cell_point] ].

Lemma run_Cell_sub_set (w : world) (self : loc) (c : Cell) (n : nat) (index : list Z) :
  cell_objs w !! self = Some c →
  aligned n (_cell_name c) → aligned n (total_counts c) →
  aligned n (pct_counts_mt c) → aligned n (n_genes_by_counts c) →
  in_range n index →
  Cell_sub_set self index w
  = (Val self, with_cells <[self := slice_cell c (resolve n <$> index)]> w).
Proof.
  intros Hc H1 H2 H3 H4 Hin.
  rewrite <- (with_cells_id _ _ _ Hc) at 1.
  destruct c as [nm tc pm ng cp]. unfold aligned in *. simpl in *.
  unfold Cell_sub_set, Cell_cell_name, slice_cell. simpl.
  destruct nm, tc, pm, ng; repeat cell_stage; reflexivity.
Qed.

Lemma slice_attrs_in_range (attrs : list (string * list Q)) (n : nat) (index : list Z) :
  Forall (λ kv, length kv.2 = n) attrs → in_range n index →
  slice_attrs attrs index
  = Val (prod_map id (λ a, gather a (resolve n <$> index)) <$> attrs).
Proof.
  intros Hall Hin. induction Hall as [|[k a] attrs Ha _ IH]; [done|].
  simpl in *. subst n. rewrite np_take_in_range by done. simpl. by rewrite IH.
Qed.

Lemma run_Gene_sub_set (w : world) (self : loc) (g : Gene) (n : nat) (index : list Z) :
  gene_objs w !! self = Some g →
  aligned n (_gene_name g) → Forall (λ kv, length kv.2 = n) (gene_attrs g) →
  in_range n index →
  Gene_sub_set self index w
  = (Val self, with_genes <[self := slice_gene g (resolve n <$> index)]> w).
Proof.
  intros Hg H1 H2 Hin. unfold Gene_sub_set, slice_gene.
  rewrite run_bind, (run_get_gene _ _ _ Hg). cbn beta iota.
  assert (Hn : (match _gene_name g with
                | Some a => Some <$> np_take a index
                | None => Val None
                end)
               = Val ((λ a, gather a (resolve n <$> index)) <$> _gene_name g)).
  { destruct (_gene_name g) as [a|] eqn:E; [|done].
    rewrite <- (H1 a eq_refl) in Hin |- *. by rewrite np_take_in_range. }
  rewrite Hn, run_bind. unfold lift at 1. cbn beta iota.
  rewrite (slice_attrs_in_range _ _ _ H2 Hin), run_bind. unfold lift at 1.
  cbn beta iota. rewrite run_bind. reflexivity.
Qed.

(** ** [sub_by_index] *)

Lemma run_get_data_put l d w :
  get_data l (with_data <[l := d]> w) = (Val d, with_data <[l := d]> w).
Proof. unfold get_data. simpl. by rewrite lookup_insert_eq. Qed.

Lemma run_assign_put l f d w :
  assign l f (with_data <[l := d]> w) = (Val (), with_data <[l := f d]> w).
Proof.
  unfold assign. rewrite run_bind, run_get_data_put. cbn beta iota.
  unfold put_data. by rewrite with_data_twice.
Qed.

Lemma with_data_cells_data l d d' f w :
  with_data <[l := d']> (with_cells f (with_data <[l := d]> w))
  = with_cells f (with_data <[l := d']> w).
Proof. unfold with_data, with_cells. simpl. by rewrite insert_insert_eq. Qed.

Lemma with_data_genes_data l d d' f w :
  with_data <[l := d']> (with_genes f (with_data <[l := d]> w))
  = with_genes f (with_data <[l := d']> w).
Proof. unfold with_data, with_genes. simpl. by rewrite insert_insert_eq. Qed.

Lemma run_sub_cells (w : world) (self : loc) (d : StereoExpData) (c : Cell)
    (m : matrix) (p : list (Q * Q)) (n : nat) (index : list Z) :
  data_objs w !! self = Some d →
  cell_objs w !! _cells d = Some c →
  _exp_matrix d = Some m → matrix_wf m → (shape m).1 = n →
  _position d = Some p → length p = n →
  aligned n (_cell_name c) → aligned n (total_counts c) →
  aligned n (pct_counts_mt c) → aligned n (n_genes_by_counts c) →
  in_range n index →
  ∃ m', select_rows m index = Val m'
        ∧ sub_cells self (Some index) w
          = (Val (),
             with_cells <[_cells d := slice_cell c (resolve n <$> index)]>
               (with_data
                  <[self := set_position (set_exp_matrix d (Some m'))
                              (Some (gather p (resolve n <$> index)))]> w)).
Proof.
  intros Hd Hc Hm Hwf Hn Hp Hlen H1 H2 H3 H4 Hin.
  destruct (select_rows_spec m index Hwf) as (m' & Hsel & _); [by rewrite Hn|].
  exists m'. split; [done|].
  rewrite <- (with_data_id _ _ _ Hd) at 1.
  unfold sub_cells.
  rewrite run_bind, run_get_data_put. cbn beta iota.
  rewrite Hm. cbn [from_option]. rewrite Hsel.
  rewrite run_bind. unfold lift at 1. cbn beta iota.
  rewrite run_bind, run_assign_put. cbn beta iota.
  rewrite run_bind, run_get_data_put. cbn beta iota.
  cbn [_position set_exp_matrix]. rewrite Hp. cbn [from_option].
  unfold select_position.
  rewrite run_bind, (run_lift_take p n) by done. cbn beta iota.
  rewrite run_bind, run_assign_put. cbn beta iota.
  rewrite run_bind, run_get_data_put. cbn beta iota.
  cbn [_cells set_position set_exp_matrix].
  rewrite run_bind, (run_Cell_sub_set _ _ c n) by done. cbn beta iota.
  rewrite (run_assign _ _ (set_position (set_exp_matrix d (Some m'))
                             (Some (gather p (resolve n <$> index)))))
    by (simpl; apply lookup_insert_eq).
  by rewrite with_data_cells_data.
Qed.

Lemma run_sub_genes (w : world) (self : loc) (d : StereoExpData) (g : Gene)
    (m : matrix) (n : nat) (index : list Z) :
  data_objs w !! self = Some d →
  gene_objs w !! _genes d = Some g →
  _exp_matrix d = Some m → matrix_wf m → (shape m).2 = n →
  aligned n (_gene_name g) → Forall (λ kv, length kv.2 = n) (gene_attrs g) →
  in_range n index →
  ∃ m', select_cols m index = Val m'
        ∧ sub_genes self (Some index) w
          = (Val (),
             with_genes <[_genes d := slice_gene g (resolve n <$> index)]>
               (with_data <[self := set_exp_matrix d (Some m')]> w)).
Proof.
  intros Hd Hg Hm Hwf Hn H1 H2 Hin.
  destruct (select_cols_spec m index Hwf) as (m' & Hsel & _); [by rewrite Hn|].
  exists m'. split; [done|].
  rewrite <- (with_data_id _ _ _ Hd) at 1.
  unfold sub_genes.
  rewrite run_bind, run_get_data_put. cbn beta iota.
  rewrite Hm. cbn [from_option]. rewrite Hsel.
  rewrite run_bind. unfold lift at 1. cbn beta iota.
  rewrite run_bind, run_assign_put. cbn beta iota.
  rewrite run_bind, run_get_data_put. cbn beta iota.
  cbn [_genes set_exp_matrix].
  rewrite run_bind, (run_Gene_sub_set _ _ g n) by done. cbn beta iota.
  rewrite (run_assign _ _ (set_exp_matrix d (Some m'))) by (simpl; apply lookup_insert_eq).
  by rewrite with_data_genes_data.
Qed.

Lemma gather_names {A} (a : option (list A)) (n : nat) (index : list Z) :
  (∃ l, a = Some l ∧ length l = n) → in_range n index →
  length <$> ((λ l, gather l (resolve n <$> index)) <$> a) = Some (length index)
  ∧ ∀ k i, index !! k = Some i →
      ((λ l, gather l (resolve n <$> index)) <$> a) ≫= (.!! k)
      = a ≫= (.!! resolve n i).
Proof.
  intros (l & -> & <-) Hin.
  pose proof (proj2 (norm_indices_in_range out_of_bounds _ _ Hin)) as Hks.
  destruct (gather_spec l _ Hks) as [Hl Hg]. simpl. split.
  - by rewrite Hl, length_fmap.
  - intros k i Hk. apply Hg. by rewrite list_lookup_fmap, Hk.
Qed.

Lemma snapshot_intro (w : world) (l : loc) d c g :
  data_objs w !! l = Some d → cell_objs w !! _cells d = Some c →
  gene_objs w !! _genes d = Some g → snapshot w l = Some (d, c, g).
Proof. intros Hd Hc Hg. unfold snapshot. rewrite Hd. simpl. rewrite Hc. simpl. by rewrite Hg. Qed.

Lemma snapshot_elim (w : world) (l : loc) d c g :
  snapshot w l = Some (d, c, g) →
  data_objs w !! l = Some d ∧ cell_objs w !! _cells d = Some c
  ∧ gene_objs w !! _genes d = Some g.
Proof.
  unfold snapshot. intros H.
  destruct (data_objs w !! l) as [d0|]; [|done]. simpl in H.
  destruct (cell_objs w !! _cells d0) as [c0|] eqn:Hc; [|done]. simpl in H.
  destruct (gene_objs w !! _genes d0) as [g0|] eqn:Hg; [|done]. simpl in H.
  by injection H as -> -> ->.
Qed.

(** C4.  On a dataset that satisfies its invariant, [sub_by_index] with a
    row selection [index] whose entries lie in range returns its receiver,
    which it has mutated in place: the dataset object and its cell and gene
    objects are the same objects, with new contents.  Cell names, matrix rows
    and positions are as many as the selection is long, and the name, the
    matrix row and the position at [k] are those that the original had at
    the position that [index[k]] denotes; every populated attribute array of
    the cells is sliced alike.  With a column selection the columns of the
    matrix and the gene table are restricted in the same way.  The selection
    may repeat an index, and no other dataset object is touched. *)
Theorem sub_by_index_selects (w : world) (self : loc) (d : StereoExpData)
    (c : Cell) (g : Gene) (n_cells n_genes : nat) (index : list Z)
    (gene_index : option (list Z)) :
  snapshot w self = Some (d, c, g) →
  consistent n_cells n_genes (d, c, g) →
  in_range n_cells index →
  (∀ cols, gene_index = Some cols → in_range n_genes cols) →
  ∃ w' d' c' g',
    sub_by_index self (Some index) gene_index w = (Val self, w')
    ∧ snapshot w' self = Some (d', c', g')
    ∧ _cells d' = _cells d ∧ _genes d' = _genes d
    ∧ (∀ l, l ≠ self → data_objs w' !! l = data_objs w !! l)
    ∧ c' = slice_cell c (resolve n_cells <$> index)
    ∧ length <$> _cell_name c' = Some (length index)
    ∧ length <$> _position d' = Some (length index)
    ∧ (∀ k i, index !! k = Some i →
         _cell_name c' ≫= (.!! k) = _cell_name c ≫= (.!! resolve n_cells i)
         ∧ _position d' ≫= (.!! k) = _position d ≫= (.!! resolve n_cells i))
    ∧ match gene_index with
      | None =>
          shape <$> _exp_matrix d' = Some (length index, n_genes)
          ∧ g' = g
          ∧ ∀ k i j, index !! k = Some i →
              (_exp_matrix d' ≫= λ m, entry m k j)
              = (_exp_matrix d ≫= λ m, entry m (resolve n_cells i) j)
      | Some cols =>
          shape <$> _exp_matrix d' = Some (length index, length cols)
          ∧ g' = slice_gene g (resolve n_genes <$> cols)
          ∧ length <$> _gene_name g' = Some (length cols)
          ∧ ∀ k i l j, index !! k = Some i → cols !! l = Some j →
              (_exp_matrix d' ≫= λ m, entry m k l)
              = (_exp_matrix d ≫= λ m, entry m (resolve n_cells i) (resolve n_genes j))
              ∧ _gene_name g' ≫= (.!! l) = _gene_name g ≫= (.!! resolve n_genes j)
      end.
Proof.
  intros Hsnap Hcons Hin Hgin.
  destruct (snapshot_elim _ _ _ _ _ Hsnap) as (Hd & Hc & Hg).
  destruct Hcons as ((m & Hm & Hwf & Hshape) & (p & Hp & Hlen) & Hnames & Ht & Hpm
                     & Hng & Hgnames & Hattrs).
  simpl in *.
  assert (Hn1 : (shape m).1 = n_cells) by (by rewrite Hshape).
  assert (Hn2 : (shape m).2 = n_genes) by (by rewrite Hshape).
  assert (Hal : aligned n_cells (_cell_name c))
    by (destruct Hnames as (a & E & Ha); intros l; rewrite E; by intros [= <-]).
  assert (Hgal : aligned n_genes (_gene_name g))
    by (destruct Hgnames as (a & E & Ha); intros l; rewrite E; by intros [= <-]).
  destruct (run_sub_cells w self d c m p n_cells index) as (m1 & Hsel & Hrun);
    try done.
  destruct (select_rows_spec m index Hwf) as (m1' & Hsel' & Hwf1 & Hsh1 & Hent1);
    [by rewrite Hn1|].
  rewrite Hsel in Hsel'. injection Hsel' as <-. rewrite Hn1 in Hent1.
  destruct (gather_names (_cell_name c) n_cells index Hnames Hin) as [Hcl Hcg].
  destruct (gather_names (_position d) n_cells index) as [Hpl Hpg]; [by eauto | done|].
  rewrite Hp in Hpl, Hpg. simpl in Hpl, Hpg.
  unfold sub_by_index. rewrite run_bind, Hrun. cbn beta iota.
  destruct gene_index as [cols|].
  - set (d1 := set_position (set_exp_matrix d (Some m1))
                 (Some (gather p (resolve n_cells <$> index)))) in *.
    set (w1 := with_cells _ _) in *.
    destruct (run_sub_genes w1 self d1 g m1 n_genes cols) as (m2 & Hsel2 & Hrun2);
      try done.
    { subst w1. simpl. apply lookup_insert_eq. }
    { by rewrite Hsh1, Hn2. }
    { by apply Hgin. }
    destruct (select_cols_spec m1 cols Hwf1) as (m2' & Hsel2' & Hwf2 & Hsh2 & Hent2);
      [rewrite Hsh1, Hn2; by apply Hgin|].
    rewrite Hsel2 in Hsel2'. injection Hsel2' as <-.
    rewrite Hsh1 in Hsh2, Hent2. simpl in Hsh2, Hent2. rewrite Hn2 in Hent2.
    destruct (gather_names (_gene_name g) n_genes cols Hgnames (Hgin _ eq_refl))
      as [Hgl Hgg].
    rewrite run_bind, Hrun2. cbn beta iota. rewrite run_ret.
    eexists _, (set_exp_matrix d1 (Some m2)), _, _.
    split; [reflexivity|]. split.
    { subst w1 d1. apply snapshot_intro; simpl; apply lookup_insert_eq. }
    repeat split; try done.
    + intros l Hl. subst w1. simpl. by rewrite insert_insert_eq, lookup_insert_ne.
    + by apply Hcg.
    + subst d1. simpl. rewrite Hp. by apply Hpg.
    + simpl. by rewrite Hsh2.
    + simpl. rewrite Hm. simpl. by rewrite (Hent2 _ _ _ H0), (Hent1 _ _ _ H).
    + by apply Hgg.
  - cbn [sub_genes]. rewrite run_bind, run_ret. cbn beta iota. rewrite run_ret.
    eexists _, _, _, _. split; [reflexivity|]. split.
    { apply snapshot_intro; simpl; [apply lookup_insert_eq.. | exact Hg]. }
    repeat split; try done.
    + intros l Hl. simpl. by rewrite lookup_insert_ne.
    + by apply Hcg.
    + simpl. rewrite Hp. by apply Hpg.
    + simpl. by rewrite Hsh1, Hn2.
    + intros k i j Hk. simpl. rewrite Hm. simpl. by apply Hent1.
Qed.

(** ** The footprint of subsetting *)

(** Whatever its outcome, subsetting the dataset object [ld], whose tables
    are the objects [lc] and [lg], changes no other object of the store and
    no file.  [kept w0 w] holds of the stores [w] that a run from [w0] goes
    through. *)
Section footprint.
Variables (ld lc lg : loc).
Abbreviation keeps := (keeps ld lc lg).
Abbreviation yields := (yields ld lc lg).

Lemma keeps_bind {A B} (m : py A) (f : A → py B) (R : A → Prop) :
  keeps m → yields m R → (∀ a, R a → keeps (f a)) → keeps (m ≫= f).
Proof.
  intros Hm HR Hf w0 w Hw. rewrite run_bind.
  specialize (Hm w0 w Hw). specialize (HR w0 w).
  destruct (m w) as [[a|e|] w1]; simpl in *; [|done..].
  apply Hf; [|done]. by apply HR.
Qed.

Lemma keeps_seq {A B} (m : py A) (f : A → py B) :
  keeps m → (∀ a, keeps (f a)) → keeps (m ≫= f).
Proof. intros Hm Hf. apply (keeps_bind m f (λ _, True)); [done | done | auto]. Qed.

Lemma keeps_fmap {A B} (g : A → B) (m : py A) : keeps m → keeps (g <$> m).
Proof.
  intros Hm w0 w Hw. specialize (Hm w0 w Hw).
  unfold fmap, py_fmap. by destruct (m w) as [[a|e|] w1].
Qed.

Lemma keeps_ret {A} (a : A) : keeps (mret a).
Proof. by intros w0 w Hw. Qed.
Lemma keeps_lift {A} (o : outcome A) : keeps (lift o).
Proof. by intros w0 w Hw. Qed.
Lemma keeps_raise {A} (e : exn) : keeps (raise e : py A).
Proof. by intros w0 w Hw. Qed.
Lemma keeps_get_data l : keeps (get_data l).
Proof. by intros w0 w Hw. Qed.
Lemma keeps_get_cell l : keeps (get_cell l).
Proof. by intros w0 w Hw. Qed.
Lemma keeps_get_gene l : keeps (get_gene l).
Proof. by intros w0 w Hw. Qed.

Lemma yields_get_data : yields (get_data ld) (λ d, _cells d = lc ∧ _genes d = lg).
Proof.
  intros w0 w a (_ & _ & _ & _ & (d & Hd & Hc & Hg) & _) Ha.
  unfold get_data in Ha. rewrite Hd in Ha. simpl in Ha. by injection Ha as <-.
Qed.

Lemma keeps_put_cell c : keeps (put_cell lc c).
Proof.
  intros w0 w (Hd & Hc & Hg & Hf & Hself & Hlc & Hlg). unfold put_cell, with_cells. simpl.
  repeat split; simpl; try done.
  - intros l Hl. by rewrite lookup_insert_ne; [apply Hc|].
  - rewrite lookup_insert_eq. eauto.
Qed.

Lemma keeps_put_gene g : keeps (put_gene lg g).
Proof.
  intros w0 w (Hd & Hc & Hg & Hf & Hself & Hlc & Hlg). unfold put_gene, with_genes. simpl.
  repeat split; simpl; try done.
  - intros l Hl. by rewrite lookup_insert_ne; [apply Hg|].
  - rewrite lookup_insert_eq. eauto.
Qed.

Lemma keeps_assign (f : StereoExpData → StereoExpData) :
  (∀ d, _cells d = lc → _genes d = lg → _cells (f d) = lc ∧ _genes (f d) = lg) →
  keeps (assign ld f).
Proof.
  intros Hf w0 w Hw. pose proof Hw as (Hd & Hc & Hg & Hfs & (d & Hself & E1 & E2) & Hlc & Hlg).
  rewrite (run_assign _ _ _ _ Hself). unfold with_data. simpl.
  repeat split; simpl; try done.
  - intros l Hl. by rewrite lookup_insert_ne; [apply Hd|].
  - exists (f d). rewrite lookup_insert_eq. split; [done|]. by apply Hf.
Qed.

Lemma keeps_for_each {A B} (f : A → py B) (xs : list A) :
  (∀ x, keeps (f x)) → keeps (for_each f xs).
Proof.
  intros Hf. induction xs as [|x xs IH]; simpl; [apply keeps_ret|].
  apply keeps_seq; [done|]. intros y.
  apply keeps_seq; [done|]. intros ys. apply keeps_ret.
Qed.

Lemma keeps_Cell_set_cell_name v : keeps (Cell_set_cell_name lc v).
Proof.
  unfold Cell_set_cell_name. destruct (negb (is_ndarray v)); [apply keeps_raise|].
  apply keeps_seq; [apply keeps_get_cell|]. intros c. apply keeps_put_cell.
Qed.

Lemma keeps_Cell_sub_set index : keeps (Cell_sub_set lc index).
Proof.
  unfold Cell_sub_set, Cell_cell_name.
  repeat first
    [ apply keeps_ret | apply keeps_get_cell | apply keeps_lift
    | apply keeps_put_cell | apply keeps_Cell_set_cell_name
    | apply keeps_seq; [|intros ?]
    | match goal with |- keeps (match ?x with _ => _ end) => destruct x end ].
Qed.

Lemma yields_Cell_sub_set l index : yields (Cell_sub_set l index) (λ r, r = l).
Proof.
  intros w0 w a _. unfold Cell_sub_set.
  repeat (rewrite run_bind;
          match goal with
          | |- context [let (_, _) := ?m ?w in _] => destruct (m w) as [[?|?|] ?]
          end; try done).
  rewrite run_ret. simpl. congruence.
Qed.

Lemma keeps_Gene_sub_set index : keeps (Gene_sub_set lg index).
Proof.
  unfold Gene_sub_set.
  repeat first
    [ apply keeps_ret | apply keeps_get_gene | apply keeps_lift
    | apply keeps_put_gene
    | apply keeps_seq; [|intros ?] ].
Qed.

Lemma yields_Gene_sub_set l index : yields (Gene_sub_set l index) (λ r, r = l).
Proof.
  intros w0 w a _. unfold Gene_sub_set.
  repeat (rewrite run_bind;
          match goal with
          | |- context [let (_, _) := ?m ?w in _] => destruct (m w) as [[?|?|] ?]
          end; try done).
  rewrite run_ret. simpl. congruence.
Qed.

Lemma keeps_sub_by_index cell_index gene_index :
  keeps (sub_by_index ld cell_index gene_index).
Proof.
  unfold sub_by_index, sub_cells, sub_genes.
  apply keeps_seq; [|intros _; apply keeps_seq; [|intros _; apply keeps_ret]].
  - destruct cell_index as [index|]; [|apply keeps_ret].
    apply keeps_seq; [apply keeps_get_data|]. intros d.
    apply keeps_seq; [apply keeps_lift|]. intros m.
    apply keeps_seq; [by apply keeps_assign|]. intros _.
    apply keeps_seq; [apply keeps_get_data|]. intros d'.
    apply keeps_seq; [apply keeps_lift|]. intros p.
    apply keeps_seq; [by apply keeps_assign|]. intros _.
    eapply keeps_bind; [apply keeps_get_data | apply yields_get_data|].
    intros d'' [Hc'' _]. rewrite Hc''.
    eapply keeps_bind;
      [apply keeps_Cell_sub_set | apply yields_Cell_sub_set|].
    intros c ->. apply keeps_assign. by intros d0 Hc Hg.
  - destruct gene_index as [index|]; [|apply keeps_ret].
    apply keeps_seq; [apply keeps_get_data|]. intros d.
    apply keeps_seq; [apply keeps_lift|]. intros m.
    apply keeps_seq; [by apply keeps_assign|]. intros _.
    eapply keeps_bind; [apply keeps_get_data | apply yields_get_data|].
    intros d'' [_ Hg'']. rewrite Hg''.
    eapply keeps_bind;
      [apply keeps_Gene_sub_set | apply yields_Gene_sub_set|].
    intros c ->. apply keeps_assign. by intros d0 Hc Hg.
Qed.
End footprint.

(** ** [sub_by_name] *)

Lemma positions_from_nil {A} `{EqDecision A} (s : nat) (l : list A) (x : A) :
  x ∉ l → positions_from s l x = [].
Proof.
  revert s. induction l as [|y l IH]; intros s Hx; [done|]. simpl.
  apply not_elem_of_cons in Hx as [Hne Hx].
  rewrite bool_decide_eq_false_2 by done. by apply IH.
Qed.

Lemma positions_from_head {A} `{EqDecision A} (s : nat) (l : list A) (x : A) :
  x ∈ l → ∃ k ks, positions_from s l x = (s + k)%nat :: ks ∧ l !! k = Some x.
Proof.
  revert s. induction l as [|y l IH]; intros s Hx; [by apply elem_of_nil in Hx|].
  simpl. case_bool_decide as Hy.
  - exists 0%nat, (positions_from (S s) l x). subst. by rewrite Nat.add_0_r.
  - apply elem_of_cons in Hx as [->|Hx]; [done|].
    destruct (IH (S s) Hx) as (k & ks & E & Hk).
    exists (S k), ks. rewrite E. split; [f_equal; lia | done].
Qed.

Lemma first_match_absent (a : option (list string)) (i : string) :
  absent a i → first_match a i = Raise (out_of_bounds 0 0).
Proof.
  intros Ha. unfold first_match, argwhere_eq. destruct a as [l|]; [|done].
  by rewrite positions_from_nil by (by apply Ha).
Qed.

Lemma first_match_present (l : list string) (i : string) :
  i ∈ l → ∃ k, first_match (Some l) i = Val k ∧ l !! k = Some i.
Proof.
  intros Hi. destruct (positions_from_head 0 l i Hi) as (k & ks & E & Hk).
  exists k. unfold first_match, argwhere_eq. by rewrite E.
Qed.

Lemma absent_or_not (a : option (list string)) (i : string) :
  absent a i ∨ ∃ l, a = Some l ∧ i ∈ l.
Proof.
  destruct a as [l|]; [|by left].
  destruct (decide (i ∈ l)); [right; eauto|]. left. by intros l' [= <-].
Qed.

(** The names are resolved one after the other against the same sequence,
    without a change of the store: either each of them is found, or the
    first one that is not raises the [IndexError] of indexing an empty array
    at 0. *)
Lemma run_resolve_names (read : py (option (list string)))
    (a : option (list string)) (w : world) (names : list string) :
  read w = (Val a, w) →
  (Forall (λ i, ∃ l, a = Some l ∧ i ∈ l) names
   ∧ ∃ ks, resolve_names read names w = (Val ks, w)
           ∧ ∀ l, a = Some l → in_range (length l) ks)
  ∨ (Exists (absent a) names
     ∧ resolve_names read names w = (Raise (out_of_bounds 0 0), w)).
Proof.
  intros Hread. unfold resolve_names.
  induction names as [|i names IH].
  - left. split; [constructor|]. exists []. split; [done|]. constructor.
  - simpl. rewrite !run_bind, Hread.
    destruct (absent_or_not a i) as [Hi|(l & -> & Hi)].
    + right. split; [by constructor|].
      py_simp. by rewrite (first_match_absent _ _ Hi).
    + destruct (first_match_present l i Hi) as (k & E & Hk).
      py_simp. rewrite E. py_simp.
      destruct IH as [(Hall & ks & -> & Hks)|(Hex & ->)].
      * left. split; [constructor; eauto|].
        exists (Z.of_nat k :: ks). split; [done|].
        intros l' [= <-]. constructor; [|by apply Hks].
        apply lookup_lt_Some in Hk. lia.
      * right. split; [by apply Exists_cons_tl | done].
Qed.

Lemma run_deepcopy (w : world) (self : loc) d c g :
  snapshot w self = Some (d, c, g) →
  let ld := fresh (dom (data_objs w)) in
  let lc := fresh (dom (cell_objs w)) in
  let lg := fresh (dom (gene_objs w)) in
  deepcopy self w
  = (Val ld,
     with_data <[ld := set_cells (set_genes d lg) lc]>
       (with_cells <[lc := c]> (with_genes <[lg := g]> w))).
Proof.
  intros Hsnap. destruct (snapshot_elim _ _ _ _ _ Hsnap) as (Hd & Hc & Hg).
  unfold deepcopy.
  rewrite run_bind, (run_get_data _ _ _ Hd). cbn beta iota.
  rewrite run_bind, (run_get_gene _ _ _ Hg). cbn beta iota.
  rewrite run_bind, (run_get_cell _ _ _ Hc). cbn beta iota.
  reflexivity.
Qed.

Lemma fresh_lookup {V} (m : gmap loc V) : m !! fresh (dom m) = None.
Proof. apply not_elem_of_dom, is_fresh. Qed.

Lemma fresh_other {V} (m : gmap loc V) (l : loc) : is_Some (m !! l) → l ≠ fresh (dom m).
Proof. intros [v Hv] ->. by rewrite fresh_lookup in Hv. Qed.

Lemma run_fmap {A B} (f : A → B) (m : py A) (w : world) :
  (f <$> m) w =
  match m w with
  | (Val a, w') => (Val (f a), w')
  | (Raise e, w') => (Raise e, w')
  | (Undefined, w') => (Undefined, w')
  end.
Proof. reflexivity. Qed.

Lemma run_cell_names (w : world) (l : loc) d c :
  data_objs w !! l = Some d → cell_objs w !! _cells d = Some c →
  cell_names l w = (Val (_cell_name c), w).
Proof.
  intros Hd Hc. unfold cell_names, Cell_cell_name.
  rewrite run_bind, (run_get_data _ _ _ Hd). cbn beta iota.
  by rewrite run_bind, (run_get_cell _ _ _ Hc).
Qed.

Lemma run_gene_names (w : world) (l : loc) d g :
  data_objs w !! l = Some d → gene_objs w !! _genes d = Some g →
  gene_names l w = (Val (_gene_name g), w).
Proof.
  intros Hd Hg. unfold gene_names.
  rewrite run_bind, (run_get_data _ _ _ Hd). cbn beta iota.
  by rewrite run_bind, (run_get_gene _ _ _ Hg).
Qed.

Lemma not_all_present (a : option (list string)) (names : list string) :
  Forall (λ i, ∃ l, a = Some l ∧ i ∈ l) names → Exists (absent a) names → False.
Proof.
  intros Hall Hex. apply Exists_exists in Hex as (i & Hi & Habs).
  destruct (proj1 (Forall_forall _ _) Hall i Hi) as (l & E & Hl).
  by apply (Habs l E).
Qed.

(** C6, as the code has it.  When a requested cell name or gene name is not
    in the name sequence, [sub_by_name] raises the [IndexError] that numpy
    raises for indexing the empty array of matches at 0; its message is the
    same for every name and does not contain the name. *)
Theorem sub_by_name_absent_name (w : world) (self : loc) (d : StereoExpData)
    (c : Cell) (g : Gene) (cell_name gene_name : option (list string)) :
  snapshot w self = Some (d, c, g) →
  (∃ names, cell_name = Some names ∧ Exists (absent (_cell_name c)) names)
  ∨ (∃ names, gene_name = Some names ∧ Exists (absent (_gene_name g)) names) →
  (sub_by_name self cell_name gene_name w).1
  = Raise (IndexError "index 0 is out of bounds for axis 0 with size 0").
Proof.
  intros Hsnap Habs. unfold sub_by_name.
  rewrite run_bind, (run_deepcopy _ _ _ _ _ Hsnap). cbn beta iota.
  set (ld := fresh (dom (data_objs w))).
  set (w1 := with_data _ _).
  assert (Hc1 : cell_names ld w1 = (Val (_cell_name c), w1))
    by (eapply run_cell_names; subst w1; simpl; apply lookup_insert_eq).
  assert (Hg1 : gene_names ld w1 = (Val (_gene_name g), w1))
    by (eapply run_gene_names; subst w1; simpl; apply lookup_insert_eq).
  rewrite run_bind.
  assert (Hcell : (∃ ci, (match cell_name with
                          | Some names => Some <$> resolve_names (cell_names ld) names
                          | None => mret None
                          end) w1 = (Val ci, w1)
                         ∧ ∀ names, cell_name = Some names →
                             ¬ Exists (absent (_cell_name c)) names)
                  ∨ (match cell_name with
                     | Some names => Some <$> resolve_names (cell_names ld) names
                     | None => mret None
                     end) w1 = (Raise (out_of_bounds 0 0), w1)).
  { destruct cell_name as [names|]; [|left; by exists None].
    rewrite run_fmap.
    destruct (run_resolve_names _ _ _ names Hc1) as [(Hall & ks & -> & _)|(_ & ->)];
      [left|by right].
    eexists. split; [done|]. intros ? [= <-] Hex. by eapply not_all_present. }
  destruct Hcell as [(ci & -> & Hci)| ->]; [|done].
  cbn beta iota. rewrite run_bind.
  destruct Habs as [(names & -> & Hex)|(names & -> & Hex)];
    [by destruct (Hci names eq_refl)|].
  rewrite run_fmap.
  destruct (run_resolve_names _ _ _ names Hg1) as [(Hall & _)|(_ & ->)]; [|done].
  by destruct (not_all_present _ _ Hall Hex).
Qed.

Lemma small_world_consistent : consistent 3 2 (small_data, small_cells, small_genes).
Proof.
  unfold consistent, aligned. simpl.
  split.
  { eexists. split; [reflexivity|]. split; [|reflexivity].
    split; [reflexivity|]. repeat constructor. }
  repeat split; eauto; try (intros l [= <-]; done); try done.
Qed.

Lemma sub_by_index_selects_witness :
  (sub_by_index 1%positive (Some [2; 0; 2; -1]) (Some [1; 1]) small_world).1
  = Val 1%positive.
Proof.
  assert (Hin : in_range 3 [2; 0; 2; -1]) by (repeat constructor; lia).
  assert (Hgin : ∀ cols, Some [1; 1] = Some cols → in_range 2 cols)
    by (intros cols [= <-]; repeat constructor; lia).
  destruct (sub_by_index_selects small_world 1%positive small_data small_cells
              small_genes 3 2 [2; 0; 2; -1] (Some [1; 1]) eq_refl
              small_world_consistent Hin Hgin) as (w' & d' & c' & g' & -> & _).
  reflexivity.
Defined.

(** C6 as it is stated fails: the name "zz" is not a cell name of the small
    dataset, and the message of the error that [sub_by_name] raises for it
    does not contain "zz". *)
Lemma sub_by_name_key_not_named :
  ∃ e, (sub_by_name 1%positive (Some ["zz"]) None small_world).1 = Raise e
       ∧ mentions "zz" (exn_message e) = false.
Proof. eexists. split; vm_compute; reflexivity. Qed.

Lemma sub_by_name_absent_name_witness :
  (sub_by_name 1%positive (Some ["c1"; "zz"]) (Some ["g0"]) small_world).1
  = Raise (IndexError "index 0 is out of bounds for axis 0 with size 0").
Proof.
  apply (sub_by_name_absent_name small_world 1%positive small_data small_cells
           small_genes _ _ eq_refl).
  left. exists ["c1"; "zz"]. split; [done|].
  apply Exists_cons_tl, Exists_cons_hd. intros l [= <-].
  rewrite !elem_of_cons, elem_of_nil. naive_solver.
Defined.

(** ** Grid bins *)

(** *** float64 and int64 *)

Lemma int64_in_range (z : Z) : - 2 ^ 63 <= z < 2 ^ 63 → int64 z = z.
Proof. intros Hz. unfold int64. rewrite Z.mod_small; lia. Qed.

Lemma round_half_even_error (x : Q) :
  (Qabs (inject_Z (round_half_even x) - x) <= 1 # 2)%Q.
Proof.
  unfold round_half_even.
  pose proof (Qfloor_le x) as H1. pose proof (Qlt_floor x) as H2.
  rewrite inject_Z_plus in H2. change (inject_Z 1) with 1%Q in H2.
  apply Qabs_Qle_condition.
  destruct (x - inject_Z (Qfloor x) ?= 1 # 2)%Q eqn:E.
  - apply Qeq_alt in E.
    destruct (Z.even (Qfloor x)); rewrite ?inject_Z_plus;
      change (inject_Z 1) with 1%Q; generalize dependent (inject_Z (Qfloor x));
      intros; lra.
  - apply Qlt_alt in E. generalize dependent (inject_Z (Qfloor x)). intros; lra.
  - apply Qgt_alt in E. rewrite inject_Z_plus. change (inject_Z 1) with 1%Q.
    generalize dependent (inject_Z (Qfloor x)). intros; lra.
Qed.

Lemma round_half_even_int (x : Q) (n : Z) :
  (x == inject_Z n)%Q → round_half_even x = n.
Proof.
  intros Hx. unfold round_half_even.
  assert (Hf : Qfloor x = n) by (rewrite Hx; apply Qfloor_Z).
  rewrite Hf.
  assert (E : (x - inject_Z n ?= 1 # 2)%Q = Lt).
  { apply (proj1 (Qlt_alt _ _)). rewrite Hx. generalize (inject_Z n). intros; lra. }
  by rewrite E.
Qed.

Lemma two_power_pos (e : Z) : (0 < 2 ^ e)%Q.
Proof. by apply Qpower_0_lt. Qed.

Lemma two_power_Z (n : Z) : 0 <= n → (inject_Z (2 ^ n) == 2 ^ n)%Q.
Proof. intros Hn. by rewrite Zpower_Qpower. Qed.

Lemma Qlog2_lower (q : Q) : (0 < q)%Q → (2 ^ Qlog2 q <= q)%Q.
Proof.
  intros Hq. unfold Qlog2.
  set (a := Z.log2 (Qnum q)). set (b := Z.log2 (Z.pos (Qden q))).
  destruct (Qle_bool (2 ^ (a - b)) q) eqn:E; [by apply Qle_bool_iff|].
  assert (Hn : 0 < Qnum q).
  { destruct q as [n d]. unfold Qlt in Hq. simpl in *. lia. }
  destruct (Z.log2_spec _ Hn) as [Ha _]. fold a in Ha.
  destruct (Z.log2_spec (Z.pos (Qden q)) ltac:(lia)) as [_ Hb]. fold b in Hb.
  assert (H0a : 0 <= a) by apply Z.log2_nonneg.
  assert (H0b : 0 <= b) by apply Z.log2_nonneg.
  replace (a - b - 1) with (a - (b + 1)) by lia.
  rewrite Qpower_minus by done.
  rewrite <- (two_power_Z a), <- (two_power_Z (b + 1)) by lia.
  replace (Z.succ b) with (b + 1) in Hb by lia.
  assert (Hq' : (q == inject_Z (Qnum q) / inject_Z (Z.pos (Qden q)))%Q).
  { destruct q as [n d]. simpl. by rewrite Qmake_Qdiv. }
  rewrite Hq'.
  assert (Ha' : (inject_Z (2 ^ a) <= inject_Z (Qnum q))%Q) by (by rewrite <- Zle_Qle).
  assert (Hb' : (inject_Z (Z.pos (Qden q)) < inject_Z (2 ^ (b + 1)))%Q)
    by (by rewrite <- Zlt_Qlt).
  assert (Hd : (0 < inject_Z (Z.pos (Qden q)))%Q) by (by rewrite <- (Zlt_Qlt 0)).
  assert (Hn' : (0 < inject_Z (Qnum q))%Q) by (by rewrite <- (Zlt_Qlt 0)).
  assert (HA : (0 < inject_Z (2 ^ a))%Q).
  { rewrite <- (Zlt_Qlt 0). by apply Z.pow_pos_nonneg. }
  apply Qle_shift_div_l; [done|].
  unfold Qdiv. rewrite <- Qmult_assoc, (Qmult_comm (/ _)), Qmult_assoc.
  apply Qle_shift_div_r; [lra|].
  nra.
Qed.

Lemma two_power_52 (e : Z) : (2 ^ e * 2 ^ 52 == 2 ^ (e + 52))%Q.
Proof. by rewrite Qpower_plus. Qed.

Lemma Qabs_sign (q : Q) :
  (q == (if Qle_bool 0 q then 1 else -1) * Qabs q)%Q.
Proof.
  destruct (Qle_bool 0 q) eqn:E.
  - apply Qle_bool_iff in E. rewrite Qabs_pos by done. lra.
  - assert (Hq : (q <= 0)%Q).
    { destruct (Qlt_le_dec q 0) as [H|H]; [lra|].
      apply Qle_bool_iff in H. congruence. }
    rewrite Qabs_neg by done. lra.
Qed.

(** The relative error of the rounding is at most [2 ^ -53]. *)
Lemma round53_error (q : Q) : (Qabs (round53 q - q) * 2 ^ 53 <= Qabs q)%Q.
Proof.
  unfold round53. destruct (Qeq_bool q 0) eqn:E0.
  { apply Qeq_bool_iff in E0. rewrite E0. by vm_compute. }
  apply Qeq_bool_neq in E0.
  assert (Ha : (0 < Qabs q)%Q).
  { pose proof (Qabs_nonneg q). destruct (Qeq_dec (Qabs q) 0) as [H0|H0]; [|lra].
    destruct E0. revert H0. apply Qabs_case; intros; lra. }
  pose proof (Qabs_sign q) as Hs.
  set (s := (if Qle_bool 0 q then 1 else -1)%Q) in *.
  assert (Hs1 : (s == 1 ∨ s == -1)%Q) by (subst s; destruct (Qle_bool 0 q); [by left|by right]).
  clearbody s.
  pose proof (Qlog2_lower _ Ha) as HE.
  set (e := Qlog2 (Qabs q) - 52) in *.
  replace (Qlog2 (Qabs q)) with (e + 52) in HE by (subst e; lia).
  rewrite <- two_power_52 in HE.
  pose proof (two_power_pos e) as HP.
  pose proof (round_half_even_error (Qabs q / 2 ^ e)) as Hm.
  apply Qabs_Qle_condition in Hm.
  assert (Hx : (Qabs q / 2 ^ e * 2 ^ e == Qabs q)%Q) by (field; lra).
  change (2 ^ 52)%Q with 4503599627370496%Q in HE.
  change (2 ^ 53)%Q with 9007199254740992%Q.
  revert Hm Hx.
  generalize (inject_Z (round_half_even (Qabs q / 2 ^ e))).
  generalize (Qabs q / 2 ^ e)%Q.
  revert HE HP. generalize (2 ^ e)%Q. revert Hs Ha. generalize (Qabs q).
  revert Hs1. clear. intros Hs1 a Hs Ha P HE HP x M Hm Hx.
  apply Qle_shift_div_l in HE as HE'; [|lra].
  assert (Hb : (Qabs (s * M * P - q) <= P * (1 # 2))%Q).
  { apply Qabs_Qle_condition. rewrite Hs, <- Hx.
    destruct Hs1 as [-> | ->]; nra. }
  nra.
Qed.

(** A number of at most 53 significant bits is a float: rounding keeps it. *)
Lemma round53_exact (q : Q) (z s : Z) :
  (q == inject_Z z * 2 ^ s)%Q → Z.abs z < 2 ^ 53 → (round53 q == q)%Q.
Proof.
  intros Hq Hz. unfold round53. destruct (Qeq_bool q 0) eqn:E0.
  { apply Qeq_bool_iff in E0. by rewrite E0. }
  apply Qeq_bool_neq in E0.
  pose proof (two_power_pos s) as Hs.
  assert (Habs : (Qabs q == inject_Z (Z.abs z) * 2 ^ s)%Q).
  { rewrite Hq, Qabs_Qmult, (Qabs_pos (2 ^ s)) by lra. reflexivity. }
  assert (Ha : (0 < Qabs q)%Q).
  { pose proof (Qabs_nonneg q). destruct (Qeq_dec (Qabs q) 0) as [H0|H0]; [|lra].
    destruct E0. revert H0. apply Qabs_case; intros; lra. }
  pose proof (Qlog2_lower _ Ha) as HE.
  set (e := Qlog2 (Qabs q) - 52) in *.
  replace (Qlog2 (Qabs q)) with (e + 52) in HE by (subst e; lia).
  assert (He : e <= s).
  { assert (H : (2 ^ (e + 52) < 2 ^ (s + 53))%Q).
    { eapply Qle_lt_trans; [exact HE|]. rewrite Habs.
      rewrite (Qpower_plus 2 s 53) by done. rewrite (Qmult_comm (2 ^ s)).
      apply Qmult_lt_compat_r; [done|].
      change (2 ^ 53)%Q with (inject_Z (2 ^ 53)). by rewrite <- Zlt_Qlt. }
    apply Qpower_lt_compat_l_inv in H; [lia | done]. }
  assert (Hx : (Qabs q / 2 ^ e == inject_Z (Z.abs z * 2 ^ (s - e)))%Q).
  { rewrite Habs, inject_Z_mult, two_power_Z by lia.
    rewrite Qpower_minus by done. field. pose proof (two_power_pos e). lra. }
  rewrite (round_half_even_int _ _ Hx).
  rewrite inject_Z_mult, two_power_Z by lia.
  rewrite Qpower_minus by done.
  rewrite (Qabs_sign q) at 2. rewrite Habs.
  field. pose proof (two_power_pos e). lra.
Qed.

Lemma round53_int (z : Z) : Z.abs z < 2 ^ 53 → (round53 (inject_Z z) == inject_Z z)%Q.
Proof.
  intros Hz. apply (round53_exact _ z 0); [|done].
  change (2 ^ 0)%Q with 1%Q. generalize (inject_Z z). intros; lra.
Qed.

Lemma Qfloor_between (x : Q) (n : Z) :
  (inject_Z n <= x)%Q → (x < inject_Z n + 1)%Q → Qfloor x = n.
Proof.
  intros H1 H2.
  pose proof (Qfloor_le x) as H3. pose proof (Qlt_floor x) as H4.
  rewrite inject_Z_plus in H4. change (inject_Z 1) with 1%Q in H4.
  assert (Ha : (inject_Z (Qfloor x) < inject_Z (n + 1))%Q).
  { rewrite inject_Z_plus. change (inject_Z 1) with 1%Q.
    revert H1 H2 H3 H4. generalize (inject_Z (Qfloor x)) (inject_Z n). intros; lra. }
  assert (Hb : (inject_Z n < inject_Z (Qfloor x + 1))%Q).
  { rewrite inject_Z_plus. change (inject_Z 1) with 1%Q.
    revert H1 H2 H3 H4. generalize (inject_Z (Qfloor x)) (inject_Z n). intros; lra. }
  rewrite <- Zlt_Qlt in Ha, Hb. lia.
Qed.

Lemma py_int_Z (z : Z) : py_int (inject_Z z) = z.
Proof. unfold py_int. destruct (Qle_bool 0 (inject_Z z)); [apply Qfloor_Z | apply Qceiling_Z]. Qed.

(** Below [2 ^ 53] the float quotient of two integers has the floor of the
    exact quotient. *)
Lemma true_divide_floor (a b : Z) :
  Z.abs a < 2 ^ 53 → 0 < b < 2 ^ 53 →
  astype_int (np_floor (true_divide a b)) = a `div` b.
Proof.
  intros Ha Hb. unfold true_divide.
  pose proof (round53_int a Ha) as Hx.
  pose proof (round53_int b ltac:(lia)) as Hy.
  assert (HB : (0 < inject_Z b)%Q) by (rewrite <- (Zlt_Qlt 0); lia).
  destruct (Qeq_bool (round53 (inject_Z b)) 0) eqn:E0.
  { apply Qeq_bool_iff in E0. rewrite Hy in E0. lra. }
  set (q := (round53 (inject_Z a) / round53 (inject_Z b))%Q).
  assert (Hq : (q * inject_Z b == inject_Z a)%Q).
  { subst q. rewrite Hx, Hy. field. lra. }
  set (n := a `div` b).
  assert (Hn : Z.abs n < 2 ^ 53).
  { unfold n. 
    destruct (Z.abs_spec a) as [[H1 H2]|[H1 H2]].
    - pose proof (Z.div_le_upper_bound a b a). pose proof (Z.div_pos a b). nia.
    - pose proof (Z.div_lt_upper_bound a b 0). pose proof (Z.div_le_lower_bound a b a).
      nia. }
  assert (Hfl : Qfloor (round53 q) = n).
  { destruct (decide (a `mod` b = 0)) as [Hm|Hm].
    - assert (Hqn : (q == inject_Z n)%Q).
      { assert (Hab : inject_Z a = inject_Z (b * n)).
        { f_equal. unfold n. pose proof (Z.div_mod a b). lia. }
        rewrite Hab, inject_Z_mult in Hq.
        revert Hq HB. generalize (inject_Z b) (inject_Z n). intros; nra. }
      assert (Hr : (round53 q == q)%Q).
      { apply (round53_exact _ n 0); [|done]. rewrite Hqn.
        change (2 ^ 0)%Q with 1%Q. generalize (inject_Z n). intros; lra. }
      rewrite Hr, Hqn. apply Qfloor_Z.
    - pose proof (Z.div_mod a b ltac:(lia)) as Hdm.
      pose proof (Z.mod_pos_bound a b ltac:(lia)) as Hmb. fold n in Hdm.
      assert (H1 : (inject_Z (b * n + 1) <= inject_Z a)%Q) by (rewrite <- Zle_Qle; lia).
      assert (H2 : (inject_Z (a + 1) <= inject_Z (b * n + b))%Q) by (rewrite <- Zle_Qle; lia).
      assert (H3 : (- inject_Z (2 ^ 53) < inject_Z a)%Q).
      { rewrite <- inject_Z_opp, <- Zlt_Qlt. lia. }
      assert (H4 : (inject_Z a < inject_Z (2 ^ 53))%Q) by (rewrite <- Zlt_Qlt; lia).
      change (inject_Z (2 ^ 53)) with 9007199254740992%Q in H3, H4.
      rewrite ?inject_Z_plus, ?inject_Z_mult in H1.
      rewrite ?inject_Z_plus, ?inject_Z_mult in H2.
      change (inject_Z 1) with 1%Q in H1, H2.
      pose proof (round53_error q) as Herr.
      change (2 ^ 53)%Q with 9007199254740992%Q in Herr.
      assert (Hd : (Qabs (round53 q - q) * inject_Z b < 1)%Q).
      { assert (Hqa : (Qabs q * inject_Z b == Qabs (inject_Z a))%Q).
        { rewrite <- Hq, Qabs_Qmult, (Qabs_pos (inject_Z b)) by lra. reflexivity. }
        assert (Haa : (Qabs (inject_Z a) < 9007199254740992)%Q).
        { apply Qabs_case; intros; lra. }
        pose proof (Qabs_nonneg (round53 q - q)).
        revert Herr Hqa Haa H HB.
        generalize (Qabs (round53 q - q)) (Qabs q) (Qabs (inject_Z a)) (inject_Z b).
        intros; nra. }
      assert (Hd' : (- 1 < (round53 q - q) * inject_Z b < 1)%Q).
      { revert Hd HB. apply Qabs_case; generalize (round53 q - q)%Q (inject_Z b);
          intros; nra. }
      apply Qfloor_between.
      + apply (Qmult_le_r _ _ (inject_Z b)); [done|].
        revert Hq H1 H2 Hd' HB.
        generalize (round53 q) (inject_Z a) (inject_Z b) (inject_Z n) q. intros; lra.
      + apply (Qmult_lt_r _ _ (inject_Z b)); [done|].
        revert Hq H1 H2 Hd' HB.
        generalize (round53 q) (inject_Z a) (inject_Z b) (inject_Z n) q. intros; lra. }
  unfold np_floor, astype_int. simpl. rewrite Hfl, py_int_Z.
  rewrite bool_decide_eq_true_2; [done|]. lia.
Qed.

Lemma py_half (b : Z) :
  0 < b < 2 ^ 53 → py_int (round53 (inject_Z b / 2)) = b `div` 2.
Proof.
  intros Hb.
  assert (Hr : (round53 (inject_Z b / 2) == inject_Z b / 2)%Q).
  { apply (round53_exact _ b (-1)); [|lia].
    change (2 ^ (-1))%Q with (/ 2)%Q. reflexivity. }
  assert (H0 : (0 <= inject_Z b / 2)%Q).
  { apply Qle_shift_div_l; [done|]. rewrite Qmult_0_l, <- (Zle_Qle 0). lia. }
  unfold py_int.
  assert (H1 : Qle_bool 0 (round53 (inject_Z b / 2)) = true)
    by (apply Qle_bool_iff; by rewrite Hr).
  rewrite H1, Hr. symmetry. apply (Zdiv_Qdiv b 2).
Qed.

(** *** The bins *)

Lemma foldr_min_spec (c : Z) (l : list Z) :
  foldr Z.min c l ∈ c :: l ∧ Forall (λ v, foldr Z.min c l <= v) (c :: l).
Proof.
  induction l as [|v l [IH1 IH2]]; simpl.
  - split; [by left | by repeat constructor].
  - apply Forall_cons in IH2 as [IHc IHl]. split.
    + destruct (Z.min_spec v (foldr Z.min c l)) as [[_ ->]|[_ ->]].
      * right. by left.
      * apply elem_of_cons in IH1 as [->|IH1]; [by left | by do 2 right].
    + repeat constructor; [lia.. |].
      eapply Forall_impl; [exact IHl|]. simpl. lia.
Qed.

Lemma col_min_spec (col : list Z) (v : Z) :
  v ∈ col → col_min col ∈ col ∧ col_min col <= v.
Proof.
  destruct col as [|c l]; [by intros ?%elem_of_nil|]. intros Hv. simpl.
  destruct (foldr_min_spec c l) as [H1 H2]. split; [done|].
  by apply (proj1 (Forall_forall _ _) H2).
Qed.

Lemma parse_bin_coor_lookup (df : list record) (bin_size : Z) (k : nat) (r : record) :
  df !! k = Some r →
  let x_min := col_min (col_x <$> df) in
  let y_min := col_min (col_y <$> df) in
  let half := py_int (round53 (inject_Z bin_size / 2)) in
  let bx := astype_int (np_floor (true_divide (int64 (col_x r - x_min)) bin_size)) in
  let by_ := astype_int (np_floor (true_divide (int64 (col_y r - y_min)) bin_size)) in
  parse_bin_coor df bin_size !! k
  = Some (mkBinned r bx by_ (pretty bx +:+ "_" +:+ pretty by_)
            (int64 (bx * bin_size + x_min + half))
            (int64 (by_ * bin_size + y_min + half))).
Proof.
  intros Hk. unfold parse_bin_coor, merge_bin_coor, get_bin_center.
  repeat first [rewrite lookup_zip_with | rewrite list_lookup_fmap].
  rewrite Hk. reflexivity.
Qed.

(** On an exact column the float quotient and the int64 arithmetic give the
    bin and the center of the exact formulas. *)
Lemma bin_exact (col : list Z) (c B : Z) :
  0 < B < 2 ^ 53 → exact_column col → c ∈ col →
  let m := col_min col in
  let b := (c - m) `div` B in
  astype_int (np_floor (true_divide (int64 (c - m)) B)) = b
  ∧ int64 (b * B + m + py_int (round53 (inject_Z B / 2))) = b * B + m + B `div` 2
  ∧ 0 <= b ∧ b * B <= c - m < (b + 1) * B.
Proof.
  intros HB Hcol Hc m b.
  destruct (col_min_spec col c Hc) as [Hm Hle]. fold m in Hm, Hle.
  pose proof (proj1 (Forall_forall _ _) Hcol c Hc) as Hc1.
  pose proof (proj1 (Forall_forall _ _) Hcol m Hm) as Hm1.
  cbv beta in Hc1, Hm1.
  assert (Hb0 : 0 <= b) by (apply Z.div_pos; lia).
  pose proof (Z.mul_div_le (c - m) B ltac:(lia)) as Hlo.
  pose proof (Z.mul_succ_div_gt (c - m) B ltac:(lia)) as Hhi.
  fold b in Hlo, Hhi.
  pose proof (Z.div_pos B 2 ltac:(lia) ltac:(lia)) as Hh0.
  pose proof (Z.div_le_upper_bound B 2 B ltac:(lia) ltac:(lia)) as Hh1.
  rewrite int64_in_range by lia.
  rewrite true_divide_floor by lia.
  rewrite py_half by done.
  rewrite int64_in_range by lia.
  repeat split; try done; lia.
Qed.

(** C2, amended.  In grid-bin mode with a positive bin size [B] below
    [2 ^ 53], on a frame whose coordinates lie in [[-2 ^ 52, 2 ^ 52)], the
    line of the frame for the input point at [k] holds, on each axis, the bin
    coordinate [floor((coord - coord_min) / B)] (the integer [b] with
    [b * B <= coord - coord_min < (b + 1) * B], which is never negative) and
    the bin center [b * B + coord_min + floor(B / 2)], where [coord_min] is
    the least coordinate on that axis over all input points.  For [B = 100],
    [x_min = 5] and [x = 150], the bin is 1 and its center 155. *)
Theorem grid_bin_formula (df : list record) (B : Z) (k : nat) (r : record) :
  0 < B < 2 ^ 53 →
  exact_column (col_x <$> df) → exact_column (col_y <$> df) →
  df !! k = Some r →
  let x_min := col_min (col_x <$> df) in
  let y_min := col_min (col_y <$> df) in
  (x_min ∈ col_x <$> df ∧ ∀ r', r' ∈ df → x_min <= col_x r')
  ∧ (y_min ∈ col_y <$> df ∧ ∀ r', r' ∈ df → y_min <= col_y r')
  ∧ (∃ b, parse_bin_coor df B !! k = Some b
          ∧ raw b = r
          ∧ bin_x b = (col_x r - x_min) `div` B
          ∧ bin_y b = (col_y r - y_min) `div` B
          ∧ 0 <= bin_x b ∧ bin_x b * B <= col_x r - x_min < (bin_x b + 1) * B
          ∧ 0 <= bin_y b ∧ bin_y b * B <= col_y r - y_min < (bin_y b + 1) * B
          ∧ x_center b = bin_x b * B + x_min + B `div` 2
          ∧ y_center b = bin_y b * B + y_min + B `div` 2)
  ∧ merge_bin_coor [150] 5 100 = [1]
  ∧ get_bin_center [1] 5 100 = [155].
Proof.
  intros HB Hcx Hcy Hk x_min y_min.
  assert (Hr : r ∈ df) by (by eapply list_elem_of_lookup_2).
  assert (Hx : ∀ r', r' ∈ df → x_min ∈ col_x <$> df ∧ x_min <= col_x r')
    by (intros r' Hr'; apply col_min_spec, list_elem_of_fmap; eauto).
  assert (Hy : ∀ r', r' ∈ df → y_min ∈ col_y <$> df ∧ y_min <= col_y r')
    by (intros r' Hr'; apply col_min_spec, list_elem_of_fmap; eauto).
  split; [split; [by apply (Hx r) | by apply Hx]|].
  split; [split; [by apply (Hy r) | by apply Hy]|].
  split; [|split; by vm_compute].
  clear Hx Hy. subst x_min y_min.
  eexists. split; [by apply parse_bin_coor_lookup|].
  cbn [raw bin_x bin_y x_center y_center].
  destruct (bin_exact (col_x <$> df) (col_x r) B HB Hcx) as (Ex & Cx & Hx0 & Hx1).
  { apply list_elem_of_fmap. eauto. }
  destruct (bin_exact (col_y <$> df) (col_y r) B HB Hcy) as (Ey & Cy & Hy0 & Hy1).
  { apply list_elem_of_fmap. eauto. }
  cbv zeta in Ex, Cx, Hx0, Hx1, Ey, Cy, Hy0, Hy1.
  rewrite Ex, Ey, Cx, Cy. repeat split; try done; lia.
Qed.

Lemma grid_bin_formula_witness :
  ∃ b, parse_bin_coor [mkRecord 5 9 "G1" 2 ""; mkRecord 150 120 "G2" 1 ""] 100 !! 1%nat
       = Some b
       ∧ bin_x b = 1 ∧ x_center b = 155.
Proof.
  destruct (grid_bin_formula
              [mkRecord 5 9 "G1" 2 ""; mkRecord 150 120 "G2" 1 ""] 100 1
              (mkRecord 150 120 "G2" 1 "") ltac:(lia))
    as (_ & _ & (b & Hb & _ & Hbx & _ & _ & _ & _ & _ & Hxc & _) & _).
  - unfold exact_column. simpl. repeat constructor; lia.
  - unfold exact_column. simpl. repeat constructor; lia.
  - reflexivity.
  - exists b. split; [exact Hb|]. rewrite Hxc, Hbx. split; reflexivity.
Defined.

(** C2 as it is stated fails beyond the integers that float64 holds and
    beyond int64.  With the coordinates 0 and [2 ^ 53 + 1] on an axis and the
    bin size 1, the offset of the second point is [2 ^ 53 + 1], which float64
    rounds to [2 ^ 53]: the bin is [2 ^ 53] and not the floor of the
    quotient.  And for the bin [2 ^ 62], the least coordinate 0 and the bin
    size 2, the center leaves int64 and wraps around. *)
Lemma grid_bin_beyond_float64 :
  col_min (col_x <$> [mkRecord 0 0 "G1" 1 ""; mkRecord 9007199254740993 0 "G1" 1 ""]) = 0
  ∧ (9007199254740993 - 0) `div` 1 = 9007199254740993
  ∧ bin_x <$> parse_bin_coor
                [mkRecord 0 0 "G1" 1 ""; mkRecord 9007199254740993 0 "G1" 1 ""] 1
    = [0; 9007199254740992]
  ∧ 4611686018427387904 * 2 + 0 + 2 `div` 2 = 9223372036854775809
  ∧ get_bin_center [4611686018427387904] 0 2 = [-9223372036854775807].
Proof. repeat split; by vm_compute. Qed.

(** ** Convex hulls *)

Global Instance point_le_total : Total point_le.
Proof. intros [a b] [c d]. unfold point_le. simpl. lia. Qed.

Global Instance point_le_trans : Transitive point_le.
Proof. intros [a b] [c d] [e f]. unfold point_le. simpl. lia. Qed.

Global Instance point_le_antisymm : AntiSymm (=) point_le.
Proof.
  intros [a b] [c d]. unfold point_le. simpl. intros H1 H2.
  f_equal; lia.
Qed.

Lemma NoDup_unique {A} `{EqDecision A} (l : list A) : NoDup (unique l).
Proof. unfold unique. rewrite reverse_Permutation. apply NoDup_remove_dups. Qed.

Lemma elem_of_unique {A} `{EqDecision A} (l : list A) (x : A) : x ∈ unique l ↔ x ∈ l.
Proof. unfold unique. by rewrite elem_of_reverse, elem_of_remove_dups, elem_of_reverse. Qed.



Lemma zip_columns (x : list record) :
  group_points x
  = (λ r, (Point_coordinate (col_x r), Point_coordinate (col_y r))) <$> x.
Proof.
  unfold group_points. induction x as [|r x IH]; [done|]. simpl. f_equal. exact IH.
Qed.







(** ** Construction of the expression matrix *)

Lemma dict_zip_lookup (keys : list string) (k : nat) (v : string) :
  NoDup keys → keys !! k = Some v → dict_zip keys !! v = Some k.
Proof.
  intros Hnd Hk. unfold dict_zip.
  assert (Hlen : length keys = length (seq 0 (length keys))) by (by rewrite length_seq).
  apply elem_of_list_to_map_1.
  - rewrite fmap_reverse, fst_zip by lia. by rewrite reverse_Permutation.
  - apply elem_of_reverse, list_elem_of_lookup. exists k.
    rewrite lookup_zip_with, Hk. simpl. rewrite lookup_seq_lt; [done|].
    by eapply lookup_lt_Some.
Qed.

(** The position of a value in the list of the distinct values. *)
Lemma unique_position (col : list string) (v : string) :
  v ∈ col → ∃ k, unique col !! k = Some v ∧ dict_zip (unique col) !! v = Some k.
Proof.
  intros Hv. apply elem_of_unique, list_elem_of_lookup in Hv as [k Hk].
  exists k. split; [done|]. apply dict_zip_lookup; [apply NoDup_unique | done].
Qed.

Lemma series_map_keys (col all : list string) :
  col ⊆ all →
  ∃ ks, series_map col (dict_zip (unique all)) = Val ks
        ∧ Forall2 (λ v k, unique all !! k = Some v) col ks.
Proof.
  induction col as [|v col IH]; intros Hsub; [by exists []|].
  destruct (unique_position all v) as (k & Hk & Hd); [apply Hsub; by left|].
  destruct IH as (ks & Hks & Hall); [intros x Hx; apply Hsub; by right|].
  exists (k :: ks). simpl. rewrite Hd, Hks. split; [done | by constructor].
Qed.





(** ** The codec *)

Lemma indptr_from_head (s : nat) (lines : list (list (nat * Z))) :
  ∃ rest, indptr_from s lines = s :: rest.
Proof. destruct lines; simpl; eauto. Qed.

Lemma split_lines_concat (s : nat) (lines : list (list (nat * Z))) :
  split_lines (indptr_from s lines) (concat lines) = lines.
Proof.
  revert s. induction lines as [|line lines IH]; intros s; [done|].
  simpl. destruct (indptr_from_head (s + length line) lines) as [rest E].
  rewrite E. rewrite <- E.
  replace (s + length line - s)%nat with (length line) by lia.
  rewrite take_app_length, drop_app_length. by rewrite IH.
Qed.

Lemma decode_encode_sparse (r c : nat) (lines : list (list (nat * Z))) :
  decode_sparse [("shape", Nats [r; c]);
                 ("indptr", Nats (indptr_from 0 lines));
                 ("indices", Nats (fst <$> concat lines));
                 ("data", Ints (snd <$> concat lines))]
  = Some (r, c, lines).
Proof.
  unfold decode_sparse, lookup_member. simpl.
  by rewrite zip_fst_snd, split_lines_concat.
Qed.

Lemma read_encoded_matrix (m : matrix) :
  let o := encode_matrix m (if is_csr (Some m) then "csr" else "csc") in
  (if is_group o then read_group o else read_dataset o) = AMatrix m.
Proof.
  destruct m as [r c rows|r c rows|r c cols]; [done|..].
  - change (read_group (encode_sparse "csr_matrix" r c rows) = AMatrix (Csr r c rows)).
    unfold read_group, encode_sparse. by rewrite decode_encode_sparse.
  - change (read_group (encode_sparse "csc_matrix" r c cols) = AMatrix (Csc r c cols)).
    unfold read_group, encode_sparse. by rewrite decode_encode_sparse.
Qed.

Lemma read_encoded_cell (c : Cell) : read_group (encode_cell c) = ACell (scalar_attributes c).
Proof. destruct c as [[a|] [t|] [p|] [n|] cp]; reflexivity. Qed.

Lemma attrs_of_floats (attrs : list (string * list Q)) :
  attrs_of (prod_map id Floats <$> attrs) = attrs.
Proof. induction attrs as [|[k a] attrs IH]; [done|]. simpl. f_equal. exact IH. Qed.

Lemma read_encoded_gene (g : Gene) : read_group (encode_gene g) = AGene g.
Proof.
  destruct g as [[a|] attrs]; unfold encode_gene, read_group; simpl.
  - by rewrite attrs_of_floats.
  - destruct attrs as [|[k a] attrs]; [done|].
    exact (f_equal (λ x, AGene (mkGene None x)) (attrs_of_floats ((k, a) :: attrs))).
Qed.

Lemma run_h5ad_write (path key : string) (o : option h5obj)
    (f : list (string * h5obj)) (w : world) :
  h5ad_write path key o (with_files <[path := f]> w)
  = (Val (), with_files <[path := from_option (λ o, h5_put key o f) f o]> w).
Proof.
  destruct o as [o|]; [|done]. unfold h5ad_write, with_files. simpl.
  by rewrite lookup_total_insert_eq, insert_insert_eq.
Qed.

Lemma written_container (k : content) :
  let f1 := h5_put "cells" (encode_cell (the_cells k))
              (h5_put "genes" (encode_gene (the_genes k)) []) in
  let f2 := from_option (λ o, h5_put "position" o f1) f1
              (Dataset ∘ Floats2 <$> the_position k) in
  let f3 := from_option (λ o, h5_put "exp_matrix" o f2) f2
              ((λ m, encode_matrix m (if is_csr (the_matrix k) then "csr" else "csc"))
                 <$> the_matrix k) in
  from_option (λ o, h5_put "bin_type" o f3) f3 (Dataset ∘ Str <$> the_bin_type k)
  = container_of k.
Proof. destruct k as [[m|] [p|] [b|] c g]; reflexivity. Qed.

Lemma run_write (w : world) (self : loc) d c g (path : string) :
  snapshot w self = Some (d, c, g) → output d = Some path →
  write self w
  = (Val (),
     with_files
       <[path := container_of
                   (mkContent (_exp_matrix d) (_position d) (_bin_type d) c g)]> w).
Proof.
  intros Hsnap Hout. destruct (snapshot_elim _ _ _ _ _ Hsnap) as (Hd & Hc & Hg).
  unfold write, write_h5ad.
  rewrite run_bind, (run_get_data _ _ _ Hd). cbn beta iota.
  rewrite Hout. rewrite bool_decide_eq_false_2 by done.
  py_simp. unfold h5py_File_w at 1. py_simp.
  rewrite (run_get_gene _ g) by done. py_simp.
  rewrite run_h5ad_write. py_simp.
  rewrite (run_get_cell _ c) by done. py_simp.
  repeat first [rewrite run_h5ad_write | rewrite run_bind | progress cbn beta iota].
  cbn [from_option].
  by rewrite <- (written_container
                   (mkContent (_exp_matrix d) (_position d) (_bin_type d) c g)).
Qed.

(** The dispatch of [read_h5ad] on the five names it knows. *)
Lemma read_member_bin_type (r : loc) (b : string) :
  read_member r "bin_type" (Dataset (Str b)) = set_bin_type_checked r (Some b).
Proof. reflexivity. Qed.

Lemma read_member_cells (r : loc) (o : h5obj) :
  read_member r "cells" o
  = match read_group o with
    | ACell c => l ← new_cell c; assign r (λ d, set_cells d l)
    | _ => lift Undefined
    end.
Proof. reflexivity. Qed.

Lemma read_member_genes (r : loc) (o : h5obj) :
  read_member r "genes" o
  = match read_group o with
    | AGene g => l ← new_gene g; assign r (λ d, set_genes d l)
    | _ => lift Undefined
    end.
Proof. reflexivity. Qed.

Lemma read_member_position (r : loc) (p : list (Q * Q)) :
  read_member r "position" (Dataset (Floats2 p))
  = assign r (λ d, set_position d (Some p)).
Proof. reflexivity. Qed.

Lemma read_member_exp_matrix (r : loc) (o : h5obj) :
  read_member r "exp_matrix" o
  = match (if is_group o then read_group o else read_dataset o) with
    | AMatrix m => assign r (λ d, set_exp_matrix d (Some m))
    | _ => lift Undefined
    end.
Proof. reflexivity. Qed.

(** One step of the loop for each of them. *)
Lemma step_bin_type (w : world) (r : loc) d c g (b : string) :
  snapshot w r = Some (d, c, g) → permitted (Some b) →
  ∃ w', read_member r "bin_type" (Dataset (Str b)) w = (Val (), w')
        ∧ snapshot w' r = Some (set_bin_type d (Some b), c, g).
Proof.
  intros Hsnap Hb. destruct (snapshot_elim _ _ _ _ _ Hsnap) as (Hd & Hc & Hg).
  eexists. split.
  - rewrite read_member_bin_type. unfold set_bin_type_checked.
    rewrite run_bind, bin_type_check_permitted by done. cbn beta iota.
    apply (run_assign _ (λ d, set_bin_type d (Some b))), Hd.
  - apply snapshot_intro; simpl; [apply lookup_insert_eq | done..].
Qed.

Lemma step_cells (w : world) (r : loc) d c g (c0 : Cell) :
  snapshot w r = Some (d, c, g) →
  ∃ w' l, read_member r "cells" (encode_cell c0) w = (Val (), w')
          ∧ snapshot w' r = Some (set_cells d l, scalar_attributes c0, g).
Proof.
  intros Hsnap. destruct (snapshot_elim _ _ _ _ _ Hsnap) as (Hd & Hc & Hg).
  eexists _, _. split.
  - rewrite read_member_cells, read_encoded_cell, run_bind.
    unfold new_cell at 1. cbn beta iota zeta.
    apply (run_assign _ (λ d, set_cells d _)). exact Hd.
  - apply snapshot_intro; simpl; [apply lookup_insert_eq.. | done].
Qed.

Lemma step_genes (w : world) (r : loc) d c g (g0 : Gene) :
  snapshot w r = Some (d, c, g) →
  ∃ w' l, read_member r "genes" (encode_gene g0) w = (Val (), w')
          ∧ snapshot w' r = Some (set_genes d l, c, g0).
Proof.
  intros Hsnap. destruct (snapshot_elim _ _ _ _ _ Hsnap) as (Hd & Hc & Hg).
  eexists _, _. split.
  - rewrite read_member_genes, read_encoded_gene, run_bind.
    unfold new_gene at 1. cbn beta iota zeta.
    apply (run_assign _ (λ d, set_genes d _)). exact Hd.
  - apply snapshot_intro; simpl; [apply lookup_insert_eq | done | apply lookup_insert_eq].
Qed.

Lemma step_position (w : world) (r : loc) d c g (p : list (Q * Q)) :
  snapshot w r = Some (d, c, g) →
  ∃ w', read_member r "position" (Dataset (Floats2 p)) w = (Val (), w')
        ∧ snapshot w' r = Some (set_position d (Some p), c, g).
Proof.
  intros Hsnap. destruct (snapshot_elim _ _ _ _ _ Hsnap) as (Hd & Hc & Hg).
  eexists. split.
  - rewrite read_member_position.
    apply (run_assign _ (λ d, set_position d (Some p))), Hd.
  - apply snapshot_intro; simpl; [apply lookup_insert_eq | done..].
Qed.

Lemma step_exp_matrix (w : world) (r : loc) d c g (m : matrix) :
  snapshot w r = Some (d, c, g) →
  ∃ w', read_member r "exp_matrix"
          (encode_matrix m (if is_csr (Some m) then "csr" else "csc")) w
        = (Val (), w')
        ∧ snapshot w' r = Some (set_exp_matrix d (Some m), c, g).
Proof.
  intros Hsnap. destruct (snapshot_elim _ _ _ _ _ Hsnap) as (Hd & Hc & Hg).
  eexists. split.
  - rewrite read_member_exp_matrix. pose proof (read_encoded_matrix m) as Hm.
    cbn zeta in Hm. rewrite Hm.
    apply (run_assign _ (λ d, set_exp_matrix d (Some m))), Hd.
  - apply snapshot_intro; simpl; [apply lookup_insert_eq | done..].
Qed.

Lemma for_each_cons {A B} (f : A → py B) (e : A) (rest : list A) (w w1 : world)
    (y : B) (P : world → Prop) :
  f e w = (Val y, w1) →
  (∃ w' us, for_each f rest w1 = (Val us, w') ∧ P w') →
  ∃ w' us, for_each f (e :: rest) w = (Val us, w') ∧ P w'.
Proof.
  intros E (w' & us & Hrest & HP). exists w', (y :: us). split; [|done].
  simpl. rewrite run_bind, E. cbn beta iota. by rewrite run_bind, Hrest.
Qed.

Lemma for_each_nil {A B} (f : A → py B) (w : world) (P : world → Prop) :
  P w → ∃ w' us, for_each f [] w = (Val us, w') ∧ P w'.
Proof. intros HP. by exists w, []. Qed.

Ltac loop_step :=
  match goal with
  | S : snapshot ?w ?r = Some _
    |- context [for_each _ (("bin_type", Dataset (Str ?b)) :: _) ?w] =>
      let E := fresh "E" in
      destruct (step_bin_type w r _ _ _ b S ltac:(assumption)) as (? & E & ?);
      apply (for_each_cons (λ e, read_member r e.1 e.2) ("bin_type", Dataset (Str b))
               _ _ _ _ _ E); clear E S
  | S : snapshot ?w ?r = Some _
    |- context [for_each _ (("cells", encode_cell ?c0) :: _) ?w] =>
      let E := fresh "E" in
      destruct (step_cells w r _ _ _ c0 S) as (? & ? & E & ?);
      apply (for_each_cons (λ e, read_member r e.1 e.2) ("cells", encode_cell c0)
               _ _ _ _ _ E); clear E S
  | S : snapshot ?w ?r = Some _
    |- context [for_each _ (("genes", encode_gene ?g0) :: _) ?w] =>
      let E := fresh "E" in
      destruct (step_genes w r _ _ _ g0 S) as (? & ? & E & ?);
      apply (for_each_cons (λ e, read_member r e.1 e.2) ("genes", encode_gene g0)
               _ _ _ _ _ E); clear E S
  | S : snapshot ?w ?r = Some _
    |- context [for_each _ (("position", Dataset (Floats2 ?p)) :: _) ?w] =>
      let E := fresh "E" in
      destruct (step_position w r _ _ _ p S) as (? & E & ?);
      apply (for_each_cons (λ e, read_member r e.1 e.2) ("position", Dataset (Floats2 p))
               _ _ _ _ _ E); clear E S
  | S : snapshot ?w ?r = Some _
    |- context [for_each _ (("exp_matrix", encode_matrix ?m _) :: _) ?w] =>
      let E := fresh "E" in
      destruct (step_exp_matrix w r _ _ _ m S) as (? & E & ?);
      apply (for_each_cons (λ e, read_member r e.1 e.2) ("exp_matrix", encode_matrix m _)
               _ _ _ _ _ E); clear E S
  end.

(** The loop of [read_h5ad] over the container that [write_h5ad] leaves:
    every member replaces the field of its name, the other fields stay. *)
Lemma run_read_loop (w : world) (r : loc) d c g (k : content) :
  snapshot w r = Some (d, c, g) → permitted (the_bin_type k) →
  ∃ w' us,
    for_each (λ e, read_member r e.1 e.2) (container_of k) w = (Val us, w')
    ∧ ∃ d', snapshot w' r = Some (d', scalar_attributes (the_cells k), the_genes k)
            ∧ _exp_matrix d' = from_option Some (_exp_matrix d) (the_matrix k)
            ∧ _position d' = from_option Some (_position d) (the_position k)
            ∧ _bin_type d' = from_option Some (_bin_type d) (the_bin_type k).
Proof.
  intros Hsnap Hb.
  destruct k as [[m|] [p|] [b|] c0 g0]; unfold container_of;
    cbn [the_matrix the_position the_bin_type the_cells the_genes from_option app]
      in *;
    repeat loop_step; apply for_each_nil; eexists; (split; [eassumption|]); done.
Qed.

Lemma run_init_reader (w : world) (path : string) :
  let lg := fresh (dom (gene_objs w)) in
  let lc := fresh (dom (cell_objs w)) in
  let lr := fresh (dom (data_objs w)) in
  StereoExpData_init (Some path) (Some "h5ad") None 100 None (inr None) (inr None)
    None None 1 w
  = (Val lr,
     with_data <[lr := mkData (Some path) (Some "h5ad") 1 None None lg lc None None 100]>
       (with_cells <[lc := mkCell None None None None None]>
          (with_genes <[lg := mkGene None []]> w))).
Proof. reflexivity. Qed.

(** C1.  A dataset with an output path and a permitted bin type is written
    with [write]; a dataset constructed on the written file then reads it
    with [read_h5ad].  Both calls return, and the reader holds the matrix of
    the writer (the same values in the same shape and representation, dense,
    csr or csc), the same positions, value for value, the same bin type, the
    same cell names and scalar attribute arrays of the cells, and the same
    gene table. *)
Theorem h5ad_round_trip (w : world) (self : loc) (d : StereoExpData) (c : Cell)
    (g : Gene) (path : string) :
  snapshot w self = Some (d, c, g) →
  output d = Some path →
  permitted (_bin_type d) →
  ∃ w' reader d' c' g',
    (write self;;
     reader ← StereoExpData_init (Some path) (Some "h5ad") None 100 None
                (inr None) (inr None) None None 1;
     read_h5ad reader) w = (Val reader, w')
    ∧ snapshot w' reader = Some (d', c', g')
    ∧ _exp_matrix d' = _exp_matrix d
    ∧ _position d' = _position d
    ∧ _bin_type d' = _bin_type d
    ∧ _cell_name c' = _cell_name c
    ∧ total_counts c' = total_counts c
    ∧ pct_counts_mt c' = pct_counts_mt c
    ∧ n_genes_by_counts c' = n_genes_by_counts c
    ∧ g' = g.
Proof.
  intros Hsnap Hout Hb.
  set (k := mkContent (_exp_matrix d) (_position d) (_bin_type d) c g).
  rewrite run_bind, (run_write _ _ _ _ _ _ Hsnap Hout). cbn beta iota. fold k.
  set (w1 := with_files _ w).
  rewrite run_bind, run_init_reader. cbn beta iota zeta.
  set (lr := fresh (dom (data_objs w1))).
  set (dr := mkData _ _ _ _ _ _ _ _ _ _).
  set (w2 := with_data _ _).
  assert (Hr : snapshot w2 lr = Some (dr, mkCell None None None None None, mkGene None []))
    by (subst w2 dr; apply snapshot_intro; simpl; apply lookup_insert_eq).
  assert (Hfile : files w2 !! path = Some (container_of k))
    by (subst w2 w1; simpl; apply lookup_insert_eq).
  destruct (snapshot_elim _ _ _ _ _ Hr) as (Hdr & _ & _).
  unfold read_h5ad. rewrite run_bind, (run_get_data _ _ _ Hdr). cbn beta iota.
  rewrite run_bind. subst dr. cbn [file]. rewrite Hfile. cbn beta iota.
  destruct (run_read_loop w2 lr _ _ _ k Hr Hb)
    as (w' & us & Hloop & d' & Hs' & Hm & Hp & Hbt).
  rewrite run_bind, Hloop. cbn beta iota. rewrite run_ret.
  exists w', lr, d', (scalar_attributes c), g.
  split; [done|]. split; [done|].
  subst k. cbn [the_matrix the_position the_bin_type _exp_matrix _position _bin_type]
    in Hm, Hp, Hbt.
  repeat split; try done.
  - rewrite Hm. by destruct (_exp_matrix d).
  - rewrite Hp. by destruct (_position d).
  - rewrite Hbt. by destruct (_bin_type d).
Qed.

Lemma h5ad_round_trip_witness :
  ∃ w' reader d' c' g',
    (write 1%positive;;
     reader ← StereoExpData_init (Some "out.h5ad") (Some "h5ad") None 100 None
                (inr None) (inr None) None None 1;
     read_h5ad reader) written_world = (Val reader, w')
    ∧ snapshot w' reader = Some (d', c', g')
    ∧ _exp_matrix d' = _exp_matrix written_data
    ∧ _position d' = _position written_data
    ∧ _bin_type d' = _bin_type written_data
    ∧ _cell_name c' = _cell_name small_cells
    ∧ total_counts c' = total_counts small_cells
    ∧ pct_counts_mt c' = pct_counts_mt small_cells
    ∧ n_genes_by_counts c' = n_genes_by_counts small_cells
    ∧ g' = small_genes.
Proof.
  apply (h5ad_round_trip written_world 1%positive written_data small_cells
           small_genes "out.h5ad" eq_refl eq_refl).
  unfold permitted. simpl. rewrite !elem_of_cons. naive_solver.
Defined.

(** C8, the code at an unset output path.  [write] on a dataset whose
    output is [None] logs the error about the output path and goes on to
    open the file: what is raised is the [TypeError] of h5py for a name that
    is [None].  No file is created. *)
Theorem write_without_output :
  write 1%positive small_world
  = (Raise (TypeError "expected str, bytes or os.PathLike object, not NoneType"),
     (logger_error "the output path must be set before writting." small_world).2)
  ∧ files (write 1%positive small_world).2 = files small_world.
Proof. split; reflexivity. Qed.

(** * More of the code *)

(** ** Selections, once more *)

Lemma gather_fmap {A B} (f : A → B) (l : list A) (ks : list nat) :
  gather (f <$> l) ks = f <$> gather l ks.
Proof.
  unfold gather. induction ks as [|k ks IH]; [done|].
  change (omap ?g (k :: ks)) with (match g k with Some y => y :: omap g ks | None => omap g ks end).
  cbn beta. rewrite list_lookup_fmap, IH. by destruct (l !! k).
Qed.

Lemma gather_length {A} (l : list A) (ks : list nat) :
  Forall (λ k, k < length l)%nat ks → length (gather l ks) = length ks.
Proof. intros H. by apply gather_spec. Qed.

Lemma gather_gather {A} (l : list A) (ks js : list nat) :
  Forall (λ k, k < length l)%nat ks → Forall (λ j, j < length ks)%nat js →
  gather (gather l ks) js = gather l (gather ks js).
Proof.
  intros Hks Hjs. destruct (gather_spec l ks Hks) as [_ Hg].
  induction Hjs as [|j js Hj _ IH]; [done|].
  destruct (lookup_lt_is_Some_2 ks j Hj) as [k Hk].
  pose proof (Forall_lookup_1 _ _ _ _ Hks Hk) as Hlt. simpl in Hlt.
  destruct (lookup_lt_is_Some_2 l k Hlt) as [x Hx].
  rewrite (gather_cons ks j js k Hk), (gather_cons l k _ x Hx).
  rewrite (gather_cons (gather l ks) j js x); [by rewrite IH|].
  by rewrite (Hg j k Hk).
Qed.

Lemma resolve_bound (n : nat) (index : list Z) :
  in_range n index → Forall (λ k, k < n)%nat (resolve n <$> index).
Proof. intros H. exact (proj2 (norm_indices_in_range out_of_bounds n index H)). Qed.

Lemma norm_indices_out_of_range (err : Z → nat → exn) (n : nat) (index : list Z) :
  ¬ in_range n index →
  ∃ i, i ∈ index ∧ ¬ (- Z.of_nat n <= i < Z.of_nat n)
       ∧ norm_indices err n index = Raise (err i n).
Proof.
  unfold in_range. induction index as [|i index IH]; intros Hn.
  - destruct Hn. constructor.
  - destruct (decide (- Z.of_nat n <= i < Z.of_nat n)) as [Hi|Hi].
    + destruct IH as (i' & Hin & Hout & E); [by intros H; apply Hn; constructor|].
      exists i'. split; [by right|]. split; [done|].
      simpl. rewrite (proj1 (norm_index_in_range n i Hi)). by rewrite E.
    + exists i. split; [by left|]. split; [done|].
      simpl. by rewrite (norm_index_out_of_range n i Hi).
Qed.

Lemma entry_outside_rows (m : matrix) (i j : nat) :
  matrix_wf m → ((shape m).1 ≤ i)%nat → entry m i j = None.
Proof.
  destruct m as [r c rows|r c rows|r c cols]; simpl; intros [Hlen _] Hi.
  - rewrite lookup_ge_None_2; [done | lia].
  - rewrite lookup_ge_None_2 by lia. by case_bool_decide.
  - rewrite bool_decide_eq_false_2; [done | lia].
Qed.

(** The two selections of a matrix can be made in either order. *)
Lemma select_rows_cols_commute (m : matrix) (index cols : list Z) :
  in_range (shape m).1 index → in_range (shape m).2 cols →
  ∃ m1 m2 m',
    select_rows m index = Val m1 ∧ select_cols m1 cols = Val m'
    ∧ select_cols m cols = Val m2 ∧ select_rows m2 index = Val m'.
Proof.
  intros Hi Hc.
  pose proof (λ err, proj1 (norm_indices_in_range err _ _ Hi)) as Ei.
  pose proof (λ err, proj1 (norm_indices_in_range err _ _ Hc)) as Ec.
  destruct m as [r c rows|r c rows|r c lines]; simpl in *;
    eexists _, _, _;
    (split; [rewrite Ei; reflexivity|]);
    (split; [simpl; rewrite Ec; reflexivity|]);
    (split; [rewrite Ec; reflexivity|]);
    simpl; rewrite Ei; simpl; by rewrite ?gather_fmap.
Qed.

(** The invariant gives the matrix and the positions. *)
Lemma consistent_elim (n_cells n_genes : nat) d c g :
  consistent n_cells n_genes (d, c, g) →
  ∃ m p, _exp_matrix d = Some m ∧ matrix_wf m ∧ shape m = (n_cells, n_genes)
         ∧ _position d = Some p ∧ length p = n_cells
         ∧ aligned n_cells (_cell_name c) ∧ aligned n_cells (total_counts c)
         ∧ aligned n_cells (pct_counts_mt c) ∧ aligned n_cells (n_genes_by_counts c)
         ∧ aligned n_genes (_gene_name g)
         ∧ Forall (λ kv, length kv.2 = n_genes) (gene_attrs g).
Proof.
  intros ((m & Hm & Hwf & Hshape) & (p & Hp & Hlen) & (a & Ea & Ha) & Ht & Hpm
          & Hng & (b & Eb & Hb) & Hattrs). simpl in *.
  exists m, p. repeat split; try done.
  - intros l. rewrite Ea. by intros [= <-].
  - intros l. rewrite Eb. by intros [= <-].
Qed.

Lemma set_exp_matrix_id d m : _exp_matrix d = Some m → set_exp_matrix d (Some m) = d.
Proof. destruct d. simpl. by intros ->. Qed.

Lemma set_position_id d p : _position d = Some p → set_position d (Some p) = d.
Proof. destruct d. simpl. by intros ->. Qed.

(** The store that [sub_by_index] leaves, for a dataset that satisfies its
    invariant and selections in range. *)
Lemma run_sub_by_index (w : world) (self : loc) d c g (n_cells n_genes : nat)
    (ci gi : option (list Z)) (m : matrix) (p : list (Q * Q)) :
  snapshot w self = Some (d, c, g) →
  consistent n_cells n_genes (d, c, g) →
  _exp_matrix d = Some m → _position d = Some p →
  (∀ index, ci = Some index → in_range n_cells index) →
  (∀ index, gi = Some index → in_range n_genes index) →
  ∃ m1 m2,
    from_option (select_rows m) (Val m) ci = Val m1
    ∧ from_option (select_cols m1) (Val m1) gi = Val m2
    ∧ sub_by_index self ci gi w
      = (Val self,
         with_genes
           <[_genes d := from_option (λ index, slice_gene g (resolve n_genes <$> index))
                           g gi]>
           (with_cells
              <[_cells d := from_option (λ index, slice_cell c (resolve n_cells <$> index))
                              c ci]>
              (with_data
                 <[self := set_position (set_exp_matrix d (Some m2))
                             (from_option
                                (λ index, Some (gather p (resolve n_cells <$> index)))
                                (Some p) ci)]> w))).
Proof.
  intros Hsnap Hcons Hm Hp Hci Hgi.
  destruct (snapshot_elim _ _ _ _ _ Hsnap) as (Hd & Hc & Hg).
  destruct (consistent_elim _ _ _ _ _ Hcons)
    as (m0 & p0 & Hm0 & Hwf & Hshape & Hp0 & Hlen & H1 & H2 & H3 & H4 & H5 & H6).
  rewrite Hm in Hm0. injection Hm0 as <-. rewrite Hp in Hp0. injection Hp0 as <-.
  assert (Hn1 : (shape m).1 = n_cells) by (by rewrite Hshape).
  assert (Hn2 : (shape m).2 = n_genes) by (by rewrite Hshape).
  unfold sub_by_index. rewrite run_bind.
  assert (Hcells : ∃ m1 w1 d1,
            from_option (select_rows m) (Val m) ci = Val m1
            ∧ matrix_wf m1 ∧ (shape m1).2 = n_genes
            ∧ sub_cells self ci w = (Val (), w1)
            ∧ w1 = with_cells
                     <[_cells d := from_option
                                     (λ index, slice_cell c (resolve n_cells <$> index)) c ci]>
                     (with_data <[self := d1]> w)
            ∧ d1 = set_position (set_exp_matrix d (Some m1))
                     (from_option (λ index, Some (gather p (resolve n_cells <$> index)))
                        (Some p) ci)).
  { destruct ci as [index|].
    - destruct (run_sub_cells w self d c m p n_cells index) as (m1 & Hsel & Hrun);
        try done; [by apply Hci|].
      destruct (select_rows_spec m index Hwf) as (m1' & Hsel' & Hwf1 & Hsh1 & _);
        [rewrite Hn1; by apply Hci|].
      rewrite Hsel in Hsel'. injection Hsel' as <-.
      eexists m1, _, _. simpl. repeat split; try done. by rewrite Hsh1.
    - exists m, w, d. simpl. repeat split; try done.
      + by rewrite (with_data_id _ _ _ Hd), (with_cells_id _ _ _ Hc).
      + by rewrite (set_exp_matrix_id _ _ Hm), (set_position_id _ _ Hp). }
  destruct Hcells as (m1 & w1 & d1 & Hsel1 & Hwf1 & Hsh1 & -> & Hw1 & Hd1).
  cbn beta iota. rewrite run_bind.
  assert (Hd1' : data_objs w1 !! self = Some d1)
    by (subst w1; simpl; apply lookup_insert_eq).
  assert (Hgd : _genes d1 = _genes d) by (by subst d1).
  assert (Hg1 : gene_objs w1 !! _genes d1 = Some g) by (subst w1; by rewrite Hgd).
  assert (Hm1 : _exp_matrix d1 = Some m1) by (by subst d1).
  exists m1. destruct gi as [index|].
  - destruct (run_sub_genes w1 self d1 g m1 n_genes index) as (m2 & Hsel2 & ->);
      try done; [by apply Hgi|].
    exists m2. split; [done|]. split; [done|]. cbn beta iota. rewrite run_ret.
    f_equal. rewrite Hgd. simpl. subst w1 d1.
    unfold with_genes, with_cells, with_data. simpl.
    by rewrite insert_insert_eq.
  - exists m1. split; [done|]. split; [done|]. simpl. rewrite run_ret. f_equal.
    rewrite <- Hd1, <- (set_exp_matrix_id _ _ Hm1) at 1.
    subst w1. rewrite <- Hgd.
    replace (set_exp_matrix (set_exp_matrix d1 (Some m1)) (Some m1))
      with (set_exp_matrix d1 (Some m1)) by (by destruct d1).
    rewrite (set_exp_matrix_id _ _ Hm1).
    symmetry. apply with_genes_id. done.
Qed.

Lemma aligned_gather {A} (n : nat) (a : option (list A)) (index : list Z) :
  aligned n a → in_range n index →
  aligned (length index) ((λ l, gather l (resolve n <$> index)) <$> a).
Proof.
  intros Ha Hin l'. destruct a as [l|]; [|done]. simpl. intros [= <-].
  rewrite gather_length, length_fmap; [done|].
  rewrite (Ha l eq_refl). by apply resolve_bound.
Qed.

Lemma named_gather {A} (n : nat) (a : option (list A)) (index : list Z) :
  (∃ l, a = Some l ∧ length l = n) → in_range n index →
  ∃ l', (λ l, gather l (resolve n <$> index)) <$> a = Some l'
        ∧ length l' = length index.
Proof.
  intros (l & -> & Hl) Hin. eexists. split; [done|].
  rewrite gather_length, length_fmap; [done|]. rewrite Hl. by apply resolve_bound.
Qed.

Lemma selected_rows (m m1 : matrix) (r c : nat) (ci : option (list Z)) :
  matrix_wf m → shape m = (r, c) →
  (∀ index, ci = Some index → in_range r index) →
  from_option (select_rows m) (Val m) ci = Val m1 →
  matrix_wf m1 ∧ shape m1 = (from_option length r ci, c).
Proof.
  intros Hwf Hsh Hin E. destruct ci as [index|]; simpl in *.
  - destruct (select_rows_spec m index Hwf) as (m' & E' & Hwf' & Hsh' & _).
    { rewrite Hsh. by apply Hin. }
    rewrite E in E'. injection E' as <-. by rewrite Hsh' , Hsh.
  - by injection E as <-.
Qed.

Lemma selected_cols (m m1 : matrix) (r c : nat) (gi : option (list Z)) :
  matrix_wf m → shape m = (r, c) →
  (∀ index, gi = Some index → in_range c index) →
  from_option (select_cols m) (Val m) gi = Val m1 →
  matrix_wf m1 ∧ shape m1 = (r, from_option length c gi).
Proof.
  intros Hwf Hsh Hin E. destruct gi as [index|]; simpl in *.
  - destruct (select_cols_spec m index Hwf) as (m' & E' & Hwf' & Hsh' & _).
    { rewrite Hsh. by apply Hin. }
    rewrite E in E'. injection E' as <-. by rewrite Hsh' , Hsh.
  - by injection E as <-.
Qed.

(** The invariant of what a selection leaves. *)
Lemma sliced_consistent (n_cells n_genes : nat) d c g (ci gi : option (list Z))
    (m2 : matrix) (p : list (Q * Q)) :
  consistent n_cells n_genes (d, c, g) → _position d = Some p →
  (∀ index, ci = Some index → in_range n_cells index) →
  (∀ index, gi = Some index → in_range n_genes index) →
  matrix_wf m2 →
  shape m2 = (from_option length n_cells ci, from_option length n_genes gi) →
  consistent (from_option length n_cells ci) (from_option length n_genes gi)
    (set_position (set_exp_matrix d (Some m2))
       (from_option (λ index, Some (gather p (resolve n_cells <$> index))) (Some p) ci),
     from_option (λ index, slice_cell c (resolve n_cells <$> index)) c ci,
     from_option (λ index, slice_gene g (resolve n_genes <$> index)) g gi).
Proof.
  intros Hcons Hp' Hci Hgi Hwf2 Hsh2.
  destruct (consistent_elim _ _ _ _ _ Hcons)
    as (m & p0 & Hm & Hwf & Hshape & Hp & Hlen & H1 & H2 & H3 & H4 & H5 & H6).
  rewrite Hp' in Hp. injection Hp as <-.
  destruct Hcons as (_ & _ & Hnames & _ & _ & _ & Hgnames & _). simpl in *.
  unfold consistent. simpl. split; [by eauto|].
  destruct ci as [index|]; destruct gi as [cols|]; simpl;
    repeat split;
    try (by eauto using aligned_gather, named_gather);
    try (eexists; split; [reflexivity|];
         rewrite gather_length, length_fmap; [done|];
         rewrite Hlen; by eauto using resolve_bound).
  - apply Forall_fmap. eapply Forall_impl; [exact H6|]. intros [k a] Ha. simpl in *.
    rewrite gather_length, length_fmap; [done|]. rewrite Ha. by eauto using resolve_bound.
  - apply Forall_fmap. eapply Forall_impl; [exact H6|]. intros [k a] Ha. simpl in *.
    rewrite gather_length, length_fmap; [done|]. rewrite Ha. by eauto using resolve_bound.
Qed.

(** [sub_by_index] keeps the invariant of the dataset: with selections in
    range it returns, and matrix, positions, names and attribute arrays again
    agree on the two sizes, which are the lengths of the selections (an axis
    without selection keeps its size). *)
Theorem sub_by_index_keeps_invariant (w : world) (self : loc) (d : StereoExpData)
    (c : Cell) (g : Gene) (n_cells n_genes : nat) (cell_index gene_index : option (list Z)) :
  snapshot w self = Some (d, c, g) →
  consistent n_cells n_genes (d, c, g) →
  (∀ index, cell_index = Some index → in_range n_cells index) →
  (∀ index, gene_index = Some index → in_range n_genes index) →
  ∃ w' s',
    sub_by_index self cell_index gene_index w = (Val self, w')
    ∧ snapshot w' self = Some s'
    ∧ consistent (from_option length n_cells cell_index)
        (from_option length n_genes gene_index) s'.
Proof.
  intros Hsnap Hcons Hci Hgi.
  destruct (consistent_elim _ _ _ _ _ Hcons)
    as (m & p & Hm & Hwf & Hshape & Hp & _).
  destruct (run_sub_by_index w self d c g n_cells n_genes cell_index gene_index m p)
    as (m1 & m2 & E1 & E2 & Hrun); try done.
  destruct (selected_rows m m1 _ _ cell_index Hwf Hshape Hci E1) as [Hwf1 Hsh1].
  destruct (selected_cols m1 m2 _ _ gene_index Hwf1 Hsh1 Hgi E2) as [Hwf2 Hsh2].
  eexists _, (_, _, _). split; [exact Hrun|]. split.
  { apply snapshot_intro; simpl; apply lookup_insert_eq. }
  by apply sliced_consistent.
Qed.

Lemma sub_by_index_keeps_invariant_witness :
  ∃ w' s',
    sub_by_index 1%positive None (Some [1; -2; 1]) small_world = (Val 1%positive, w')
    ∧ snapshot w' 1%positive = Some s'
    ∧ consistent 3 3 s'.
Proof.
  apply (sub_by_index_keeps_invariant small_world 1%positive small_data small_cells
           small_genes 3 2 None (Some [1; -2; 1]) eq_refl small_world_consistent).
  - done.
  - intros index [= <-]. repeat constructor; lia.
Defined.

Lemma resolve_lookup (n : nat) (index : list Z) (k : nat) (i : Z) :
  index !! k = Some i → (resolve n <$> index) !! k = Some (resolve n i).
Proof. intros H. by rewrite list_lookup_fmap, H. Qed.

(** Two cell selections in a row are one selection: subsetting by [index]
    and then by [index2] (which addresses the cells that are left) gives the
    dataset that subsetting by [[index[j] for j in index2]] gives. *)
Theorem sub_by_index_composes (w : world) (self : loc) (d : StereoExpData)
    (c : Cell) (g : Gene) (n_cells n_genes : nat) (index index2 : list Z) :
  snapshot w self = Some (d, c, g) →
  consistent n_cells n_genes (d, c, g) →
  in_range n_cells index → in_range (length index) index2 →
  ∃ both w1 w2 w3 d2 d3 c' g',
    np_take index index2 = Val both
    ∧ sub_by_index self (Some index) None w = (Val self, w1)
    ∧ sub_by_index self (Some index2) None w1 = (Val self, w2)
    ∧ sub_by_index self (Some both) None w = (Val self, w3)
    ∧ snapshot w2 self = Some (d2, c', g')
    ∧ snapshot w3 self = Some (d3, c', g')
    ∧ _position d2 = _position d3
    ∧ shape <$> _exp_matrix d2 = shape <$> _exp_matrix d3
    ∧ ∀ i j, (_exp_matrix d2 ≫= λ m, entry m i j) = (_exp_matrix d3 ≫= λ m, entry m i j).
Proof.
  intros Hsnap Hcons Hin Hin2.
  destruct (consistent_elim _ _ _ _ _ Hcons)
    as (m & p & Hm & Hwf & Hshape & Hp & Hlen & H1 & H2 & H3 & H4 & H5 & H6).
  set (ks := resolve n_cells <$> index).
  set (js := resolve (length index) <$> index2).
  assert (Hks : Forall (λ k, k < n_cells)%nat ks) by (by apply resolve_bound).
  assert (Hjs : Forall (λ j, j < length ks)%nat js)
    by (subst ks; rewrite length_fmap; by apply resolve_bound).
  set (both := gather index js).
  assert (Hboth : np_take index index2 = Val both) by (by apply np_take_in_range).
  assert (Hres : resolve n_cells <$> both = gather ks js)
    by (subst both ks; by rewrite gather_fmap).
  assert (Hinb : in_range n_cells both).
  { subst both. apply gather_Forall. exact Hin. }
  (* first selection *)
  destruct (run_sub_by_index w self d c g n_cells n_genes (Some index) None m p)
    as (m1 & m1' & E1 & E1' & Hrun1); try done; [by intros ? [= <-]|].
  simpl in E1, E1', Hrun1. injection E1' as <-.
  set (c1 := slice_cell c ks) in *.
  set (d1 := set_position (set_exp_matrix d (Some m1)) (Some (gather p ks))) in *.
  set (w1 := with_genes _ (with_cells _ (with_data _ w))) in Hrun1.
  assert (Hsnap1 : snapshot w1 self = Some (d1, c1, g))
    by (apply snapshot_intro; subst w1; simpl; apply lookup_insert_eq).
  destruct (select_rows_spec m index Hwf) as (m1' & E1' & Hwf1 & Hsh1 & Hent1);
    [by rewrite Hshape|].
  rewrite E1 in E1'. injection E1' as <-. rewrite Hshape in Hsh1, Hent1.
  simpl in Hsh1, Hent1.
  assert (Hcons1 : consistent (length index) n_genes (d1, c1, g)).
  { apply (sliced_consistent n_cells n_genes d c g (Some index) None m1 p); try done.
    by intros ? [= <-]. }
  (* second selection *)
  destruct (run_sub_by_index w1 self d1 c1 g (length index) n_genes (Some index2) None
              m1 (gather p ks))
    as (m2 & m2' & E2 & E2' & Hrun2); try done; [by intros ? [= <-]|].
  simpl in E2, E2', Hrun2. injection E2' as <-.
  destruct (select_rows_spec m1 index2 Hwf1) as (m2' & E2' & Hwf2 & Hsh2 & Hent2);
    [by rewrite Hsh1|].
  rewrite E2 in E2'. injection E2' as <-. rewrite Hsh1 in Hsh2, Hent2.
  simpl in Hsh2, Hent2.
  (* the selection made at once *)
  destruct (run_sub_by_index w self d c g n_cells n_genes (Some both) None m p)
    as (m3 & m3' & E3 & E3' & Hrun3); try done; [by intros ? [= <-]|].
  simpl in E3, E3', Hrun3. injection E3' as <-.
  destruct (select_rows_spec m both Hwf) as (m3' & E3' & Hwf3 & Hsh3 & Hent3);
    [by rewrite Hshape|].
  rewrite E3 in E3'. injection E3' as <-. rewrite Hshape in Hsh3, Hent3.
  simpl in Hsh3, Hent3.
  assert (Hlb : length both = length index2).
  { subst both. rewrite gather_length; [by subst js; rewrite length_fmap|].
    subst ks. by rewrite length_fmap in Hjs. }
  assert (Hgg : ∀ {A} (l : list A), length l = n_cells →
            gather (gather l ks) js = gather l (resolve n_cells <$> both)).
  { intros A l Hl. rewrite Hres. apply gather_gather; [by rewrite Hl | done]. }
  assert (Hcell : slice_cell c1 js = slice_cell c (resolve n_cells <$> both)).
  { subst c1. unfold slice_cell. simpl.
    destruct Hcons as (_ & _ & (a & Ea & Ha) & _). simpl in Ea.
    f_equal; rewrite <- option_fmap_compose; unfold compose.
    - rewrite Ea. simpl. by rewrite Hgg.
    - destruct (total_counts c) as [l|] eqn:E; [simpl|done].
      by rewrite Hgg by (by apply H2).
    - destruct (pct_counts_mt c) as [l|] eqn:E; [simpl|done].
      by rewrite Hgg by (by apply H3).
    - destruct (n_genes_by_counts c) as [l|] eqn:E; [simpl|done].
      by rewrite Hgg by (by apply H4). }
  eexists both, w1, _, _, _, _, (slice_cell c (resolve n_cells <$> both)), g.
  split; [done|]. split; [exact Hrun1|]. split; [exact Hrun2|]. split; [exact Hrun3|].
  split.
  { apply snapshot_intro; simpl; [apply lookup_insert_eq | | ].
    - fold js. rewrite Hcell. apply lookup_insert_eq.
    - apply lookup_insert_eq. }
  split.
  { apply snapshot_intro; simpl; apply lookup_insert_eq. }
  simpl. split; [|split].
  - fold js. by rewrite Hgg.
  - by rewrite Hsh2, Hsh3, Hlb.
  - intros i j.
    destruct (index2 !! i) as [z|] eqn:Hi.
    + rewrite (Hent2 i z j Hi).
      assert (Hjz : js !! i = Some (resolve (length index) z))
        by (by apply resolve_lookup).
      pose proof (Forall_lookup_1 _ _ _ _ Hjs Hjz) as Hlt. simpl in Hlt.
      subst ks. rewrite length_fmap in Hlt.
      destruct (lookup_lt_is_Some_2 index _ Hlt) as [z' Hz'].
      rewrite (Hent1 _ z' j Hz').
      assert (Hb : both !! i = Some z').
      { subst both. destruct (gather_spec index js) as [_ Hg].
        - by rewrite length_fmap in Hjs.
        - by rewrite (Hg _ _ Hjz). }
      by rewrite (Hent3 i z' j Hb).
    + apply lookup_ge_None in Hi.
      rewrite !entry_outside_rows; try done.
      * rewrite Hsh3. simpl. lia.
      * rewrite Hsh2. simpl. lia.
Qed.

Lemma sub_by_index_composes_witness :
  ∃ both w1 w2 w3 d2 d3 c' g',
    np_take [2; 0; -2] [-1; 0] = Val both
    ∧ sub_by_index 1%positive (Some [2; 0; -2]) None small_world = (Val 1%positive, w1)
    ∧ sub_by_index 1%positive (Some [-1; 0]) None w1 = (Val 1%positive, w2)
    ∧ sub_by_index 1%positive (Some both) None small_world = (Val 1%positive, w3)
    ∧ snapshot w2 1%positive = Some (d2, c', g')
    ∧ snapshot w3 1%positive = Some (d3, c', g')
    ∧ _position d2 = _position d3
    ∧ shape <$> _exp_matrix d2 = shape <$> _exp_matrix d3
    ∧ ∀ i j, (_exp_matrix d2 ≫= λ m, entry m i j) = (_exp_matrix d3 ≫= λ m, entry m i j).
Proof.
  apply (sub_by_index_composes small_world 1%positive small_data small_cells
           small_genes 3 2 [2; 0; -2] [-1; 0] eq_refl small_world_consistent).
  - repeat constructor; lia.
  - repeat constructor; simpl; lia.
Defined.

(** The selection of cells and the selection of genes do not depend on each
    other: made one after the other, in either order, they leave the store
    that [sub_by_index] leaves when it is given both. *)
Theorem sub_by_index_axes_commute (w : world) (self : loc) (d : StereoExpData)
    (c : Cell) (g : Gene) (n_cells n_genes : nat) (index cols : list Z) :
  snapshot w self = Some (d, c, g) →
  consistent n_cells n_genes (d, c, g) →
  in_range n_cells index → in_range n_genes cols →
  (sub_by_index self None (Some cols);; sub_by_index self (Some index) None) w
  = sub_by_index self (Some index) (Some cols) w
  ∧ (sub_by_index self (Some index) None;; sub_by_index self None (Some cols)) w
    = sub_by_index self (Some index) (Some cols) w.
Proof.
  intros Hsnap Hcons Hin Hgin.
  destruct (consistent_elim _ _ _ _ _ Hcons)
    as (m & p & Hm & Hwf & Hshape & Hp & Hlen & _).
  assert (Hi : ∀ l, Some index = Some l → in_range n_cells l) by (by intros ? [= <-]).
  assert (Hg : ∀ l, Some cols = Some l → in_range n_genes l) by (by intros ? [= <-]).
  assert (Hn : ∀ n (l : list Z), @None (list Z) = Some l → in_range n l) by done.
  destruct (select_rows_cols_commute m index cols)
    as (mI & mG & m' & EI & EIG & EG & EGI); [by rewrite Hshape..|].
  destruct (select_rows_spec m index Hwf) as (? & E & HwfI & HshI & _);
    [by rewrite Hshape|].
  rewrite EI in E. injection E as <-. rewrite Hshape in HshI. simpl in HshI.
  destruct (select_cols_spec m cols Hwf) as (? & E & HwfG & HshG & _);
    [by rewrite Hshape|].
  rewrite EG in E. injection E as <-. rewrite Hshape in HshG. simpl in HshG.
  (* both at once *)
  destruct (run_sub_by_index w self d c g n_cells n_genes (Some index) (Some cols) m p)
    as (? & ? & E1 & E2 & Hboth); try done.
  simpl in E1, E2, Hboth. rewrite EI in E1. injection E1 as <-.
  rewrite EIG in E2. injection E2 as <-.
  split.
  - (* genes, then cells *)
    destruct (run_sub_by_index w self d c g n_cells n_genes None (Some cols) m p)
      as (? & ? & E1 & E2 & Hrun1); try done.
    simpl in E1, E2, Hrun1. injection E1 as <-. rewrite EG in E2. injection E2 as <-.
    rewrite run_bind, Hrun1. cbn beta iota.
    set (w1 := with_genes _ _).
    set (d1 := set_position (set_exp_matrix d (Some mG)) (Some p)) in *.
    set (g1 := slice_gene g (resolve n_genes <$> cols)) in *.
    assert (Hsnap1 : snapshot w1 self = Some (d1, c, g1))
      by (apply snapshot_intro; subst w1; simpl; apply lookup_insert_eq).
    assert (Hcons1 : consistent n_cells (length cols) (d1, c, g1))
      by (by apply (sliced_consistent n_cells n_genes d c g None (Some cols) mG p)).
    destruct (run_sub_by_index w1 self d1 c g1 n_cells (length cols) (Some index) None
                mG p) as (? & ? & E1 & E2 & Hrun2); try done.
    simpl in E1, E2, Hrun2. rewrite EGI in E1. injection E1 as <-. injection E2 as <-.
    rewrite Hrun2, Hboth. f_equal. subst w1 d1 g1.
    unfold with_genes, with_cells, with_data. simpl.
    by rewrite !insert_insert_eq.
  - (* cells, then genes *)
    destruct (run_sub_by_index w self d c g n_cells n_genes (Some index) None m p)
      as (? & ? & E1 & E2 & Hrun1); try done.
    simpl in E1, E2, Hrun1. rewrite EI in E1. injection E1 as <-. injection E2 as <-.
    rewrite run_bind, Hrun1. cbn beta iota.
    set (w1 := with_genes _ _).
    set (d1 := set_position (set_exp_matrix d (Some mI))
                 (Some (gather p (resolve n_cells <$> index)))) in *.
    set (c1 := slice_cell c (resolve n_cells <$> index)) in *.
    assert (Hsnap1 : snapshot w1 self = Some (d1, c1, g))
      by (apply snapshot_intro; subst w1; simpl; apply lookup_insert_eq).
    assert (Hcons1 : consistent (length index) n_genes (d1, c1, g))
      by (by apply (sliced_consistent n_cells n_genes d c g (Some index) None mI p)).
    destruct (run_sub_by_index w1 self d1 c1 g (length index) n_genes None (Some cols)
                mI (gather p (resolve n_cells <$> index)))
      as (? & ? & E1 & E2 & Hrun2); try done.
    simpl in E1, E2, Hrun2. injection E1 as <-. rewrite EIG in E2. injection E2 as <-.
    rewrite Hrun2, Hboth. f_equal. subst w1 d1 c1.
    unfold with_genes, with_cells, with_data. simpl.
    by rewrite !insert_insert_eq.
Qed.

Lemma sub_by_index_axes_commute_witness :
  (sub_by_index 1%positive None (Some [1; 1]);;
   sub_by_index 1%positive (Some [2; 0]) None) small_world
  = sub_by_index 1%positive (Some [2; 0]) (Some [1; 1]) small_world.
Proof.
  apply (sub_by_index_axes_commute small_world 1%positive small_data small_cells
           small_genes 3 2 [2; 0] [1; 1] eq_refl small_world_consistent).
  - repeat constructor; lia.
  - repeat constructor; lia.
Defined.

Lemma select_rows_out_of_range (m : matrix) (index : list Z) :
  ¬ in_range (shape m).1 index → ∃ msg, select_rows m index = Raise (IndexError msg).
Proof.
  intros Hn. destruct m as [r c rows|r c rows|r c cols]; simpl in *.
  - destruct (norm_indices_out_of_range out_of_bounds r index Hn) as (i & _ & _ & ->).
    by eexists.
  - destruct (norm_indices_out_of_range sparse_bounds r index Hn) as (i & _ & _ & ->).
    by eexists.
  - destruct (norm_indices_out_of_range sparse_bounds r index Hn) as (i & _ & _ & ->).
    by eexists.
Qed.

Lemma select_cols_out_of_range (m : matrix) (index : list Z) :
  ¬ in_range (shape m).2 index → ∃ msg, select_cols m index = Raise (IndexError msg).
Proof.
  intros Hn. destruct m as [r c rows|r c rows|r c cols]; simpl in *.
  - destruct (norm_indices_out_of_range out_of_bounds c index Hn) as (i & _ & _ & ->).
    by eexists.
  - destruct (norm_indices_out_of_range sparse_bounds c index Hn) as (i & _ & _ & ->).
    by eexists.
  - destruct (norm_indices_out_of_range sparse_bounds c index Hn) as (i & _ & _ & ->).
    by eexists.
Qed.

(** A cell selection with an index outside [-n, n), [n] the number of rows
    of the matrix, raises an [IndexError] at the first statement of
    [sub_by_index]: nothing has been assigned, and the store is as it was. *)
Theorem sub_by_index_cell_index_out_of_range (w : world) (self : loc)
    (d : StereoExpData) (m : matrix) (index : list Z) (gene_index : option (list Z)) :
  data_objs w !! self = Some d → _exp_matrix d = Some m →
  ¬ in_range (shape m).1 index →
  ∃ msg, sub_by_index self (Some index) gene_index w = (Raise (IndexError msg), w).
Proof.
  intros Hd Hm Hn. destruct (select_rows_out_of_range m index Hn) as [msg E].
  exists msg. unfold sub_by_index, sub_cells.
  rewrite !run_bind, (run_get_data _ _ _ Hd). cbn beta iota.
  rewrite Hm. cbn [from_option]. by rewrite E.
Qed.

Lemma sub_by_index_cell_index_out_of_range_witness :
  ∃ msg, sub_by_index 1%positive (Some [0; 3]) (Some [0]) small_world
         = (Raise (IndexError msg), small_world).
Proof.
  apply (sub_by_index_cell_index_out_of_range small_world 1%positive small_data _
           [0; 3] (Some [0]) eq_refl eq_refl).
  simpl. intros H. apply Forall_cons in H as [_ H]. apply Forall_cons in H as [H _]. lia.
Defined.

(** [sub_by_index] is not atomic.  When the cell selection is in range and
    the gene selection is not, the call raises an [IndexError] after the
    cells have been selected: the receiver is left as a call with the cell
    selection alone leaves it, its genes untouched. *)
Theorem sub_by_index_gene_index_out_of_range (w : world) (self : loc)
    (d : StereoExpData) (c : Cell) (g : Gene) (n_cells n_genes : nat)
    (index cols : list Z) :
  snapshot w self = Some (d, c, g) →
  consistent n_cells n_genes (d, c, g) →
  in_range n_cells index → ¬ in_range n_genes cols →
  ∃ msg w1,
    sub_by_index self (Some index) None w = (Val self, w1)
    ∧ sub_by_index self (Some index) (Some cols) w = (Raise (IndexError msg), w1)
    ∧ (_cell_name <$> cell_objs w1 !! _cells d)
      = Some ((λ a, gather a (resolve n_cells <$> index)) <$> _cell_name c)
    ∧ gene_objs w1 !! _genes d = Some g.
Proof.
  intros Hsnap Hcons Hin Hgn.
  destruct (snapshot_elim _ _ _ _ _ Hsnap) as (Hd & Hc & Hg).
  destruct (consistent_elim _ _ _ _ _ Hcons)
    as (m & p & Hm & Hwf & Hshape & Hp & Hlen & H1 & H2 & H3 & H4 & _).
  destruct (run_sub_cells w self d c m p n_cells index) as (m1 & Hsel & Hrun);
    try done; [by rewrite Hshape|].
  destruct (select_rows_spec m index Hwf) as (? & E & Hwf1 & Hsh1 & _);
    [by rewrite Hshape|].
  rewrite Hsel in E. injection E as <-.
  destruct (select_cols_out_of_range m1 cols) as [msg E];
    [by rewrite Hsh1, Hshape|].
  eexists msg, _. split; [|split; [|split]].
  - unfold sub_by_index. rewrite run_bind, Hrun. reflexivity.
  - unfold sub_by_index. rewrite run_bind, Hrun. cbn beta iota.
    unfold sub_genes. rewrite !run_bind.
    erewrite run_get_data by (simpl; apply lookup_insert_eq). cbn beta iota.
    cbn [_exp_matrix set_position set_exp_matrix from_option]. by rewrite E.
  - simpl. by rewrite lookup_insert_eq.
  - done.
Qed.

Lemma sub_by_index_gene_index_out_of_range_witness :
  ∃ msg w1,
    sub_by_index 1%positive (Some [2]) None small_world = (Val 1%positive, w1)
    ∧ sub_by_index 1%positive (Some [2]) (Some [2]) small_world
      = (Raise (IndexError msg), w1)
    ∧ (_cell_name <$> cell_objs w1 !! 1%positive) = Some (Some ["c2"]).
Proof.
  destruct (sub_by_index_gene_index_out_of_range small_world 1%positive small_data
              small_cells small_genes 3 2 [2] [2] eq_refl small_world_consistent)
    as (msg & w1 & H1 & H2 & H3 & _).
  - repeat constructor; lia.
  - intros H. apply Forall_cons in H as [H _]. lia.
  - by exists msg, w1.
Defined.

(** A dataset without positions cannot be subset by cells: the call raises
    the [TypeError] of subscripting [None], after the matrix has been
    replaced by its selected rows.  The cell table is not reached. *)
Theorem sub_by_index_without_position (w : world) (self : loc) (d : StereoExpData)
    (m : matrix) (index : list Z) (gene_index : option (list Z)) :
  data_objs w !! self = Some d →
  _exp_matrix d = Some m → matrix_wf m → in_range (shape m).1 index →
  _position d = None →
  ∃ m', select_rows m index = Val m'
        ∧ sub_by_index self (Some index) gene_index w
          = (Raise (TypeError "'NoneType' object is not subscriptable"),
             with_data <[self := set_exp_matrix d (Some m')]> w).
Proof.
  intros Hd Hm Hwf Hin Hp.
  destruct (select_rows_spec m index Hwf Hin) as (m' & E & _).
  exists m'. split; [done|].
  rewrite <- (with_data_id _ _ _ Hd) at 1.
  unfold sub_by_index, sub_cells.
  rewrite !run_bind, run_get_data_put. cbn beta iota.
  rewrite Hm. cbn [from_option]. rewrite E.
  rewrite run_bind, run_lift. cbn beta iota.
  rewrite run_bind, run_assign_put. cbn beta iota.
  rewrite run_bind, run_get_data_put. cbn beta iota.
  cbn [_position set_exp_matrix]. rewrite Hp. reflexivity.
Qed.

Lemma sub_by_index_without_position_witness :
  ∃ m', select_rows (Ndarray 2 1 [[1]; [2]]) [1] = Val m'
        ∧ sub_by_index 1%positive (Some [1]) None bare_world
          = (Raise (TypeError "'NoneType' object is not subscriptable"),
             with_data <[1%positive := set_exp_matrix bare_data (Some m')]> bare_world).
Proof.
  apply (sub_by_index_without_position bare_world 1%positive bare_data
           (Ndarray 2 1 [[1]; [2]]) [1] None eq_refl eq_refl).
  - split; [done|]. repeat constructor.
  - repeat constructor; simpl; lia.
  - done.
Defined.

(** ** What a method leaves true *)

Lemma through_bind {A B} (P : world → Prop) (m : py A) (f : A → py B) :
  (∀ w, P w → P (m w).2) → (∀ a w, P w → P (f a w).2) →
  ∀ w, P w → P ((m ≫= f) w).2.
Proof.
  intros Hm Hf w Hw. rewrite run_bind. specialize (Hm w Hw).
  destruct (m w) as [[a|e|] w1]; simpl in *; [by apply Hf | done..].
Qed.

Lemma through_bind_val {A B} (P : world → Prop) (R : A → Prop) (m : py A)
    (f : A → py B) :
  (∀ w, P w → P (m w).2 ∧ ∀ a, (m w).1 = Val a → R a) →
  (∀ a, R a → ∀ w, P w → P (f a w).2) →
  ∀ w, P w → P ((m ≫= f) w).2.
Proof.
  intros Hm Hf w Hw. rewrite run_bind. destruct (Hm w Hw) as [H1 H2].
  destruct (m w) as [[a|e|] w1]; simpl in *; [|done..].
  apply Hf; [by apply H2 | done].
Qed.

(** [Cell.sub_set] slices the names and the three count arrays, and nothing
    else: whatever the index and whatever the outcome, the boundaries that
    [read_txt] stores in [cell_point] stay as they are, one per cell of the
    table before the selection. *)
Theorem Cell_sub_set_keeps_cell_point (w : world) (self : loc) (c : Cell)
    (index : list Z) :
  cell_objs w !! self = Some c →
  ∃ c', cell_objs (Cell_sub_set self index w).2 !! self = Some c'
        ∧ cell_point c' = cell_point c.
Proof.
  intros Hc.
  set (P := λ w : world, ∃ c', cell_objs w !! self = Some c' ∧ cell_point c' = cell_point c).
  assert (Hput : ∀ c', cell_point c' = cell_point c →
            ∀ w, P w → P (put_cell self c' w).2).
  { intros c' E w0 _. exists c'. split; [|done]. unfold put_cell. simpl.
    apply lookup_insert_eq. }
  assert (Hget : ∀ w, P w →
            P (get_cell self w).2
            ∧ ∀ a, (get_cell self w).1 = Val a → cell_point a = cell_point c).
  { intros w0 (c0 & Hc0 & E0). rewrite (run_get_cell _ _ _ Hc0). simpl.
    split; [by exists c0|]. by intros a [= <-]. }
  assert (Htake : ∀ {A} (a : list A) (f : list A → py unit),
            (∀ a' w, P w → P (f a' w).2) →
            ∀ w, P w → P ((a' ← lift (np_take a index); f a') w).2).
  { intros A a f Hf. apply through_bind; [by intros ? ?|done]. }
  assert (Hret : ∀ {A} (a : A) w, P w → P ((mret a : py A) w).2) by (by intros).
  enough (Hall : ∀ w, P w → P (Cell_sub_set self index w).2)
    by (apply Hall; by exists c).
  unfold Cell_sub_set, Cell_cell_name.
  apply through_bind.
  { apply (through_bind_val P (λ _, True)); [|by intros]. intros w0 Hw0.
    split; [by apply Hget | done]. }
  intros name. apply through_bind.
  { destruct name as [a|]; [|by apply Hret]. apply Htake. intros a'.
    unfold Cell_set_cell_name. simpl.
    apply (through_bind_val P _ _ _ Hget). intros c0 E0. by apply Hput. }
  intros _. apply (through_bind_val P _ _ _ Hget). intros c1 E1. apply through_bind.
  { destruct (total_counts c1) as [a|]; [|by apply Hret]. apply Htake. intros a'.
    by apply Hput. }
  intros _. apply (through_bind_val P _ _ _ Hget). intros c2 E2. apply through_bind.
  { destruct (pct_counts_mt c2) as [a|]; [|by apply Hret]. apply Htake. intros a'.
    by apply Hput. }
  intros _. apply (through_bind_val P _ _ _ Hget). intros c3 E3. apply through_bind.
  { destruct (n_genes_by_counts c3) as [a|]; [|by apply Hret]. apply Htake. intros a'.
    by apply Hput. }
  intros _. by apply Hret.
Qed.

Lemma Cell_sub_set_keeps_cell_point_witness :
  ∃ c', cell_objs (Cell_sub_set 1%positive [1] outlined_world).2 !! 1%positive = Some c'
        ∧ cell_point c' = cell_point outlined_cells.
Proof.
  apply (Cell_sub_set_keeps_cell_point outlined_world 1%positive outlined_cells [1]
           eq_refl).
Defined.

(** The constructor keeps the [Cell] object it is given: it does not copy
    it.  A dataset constructed on the cell table of another one shares that
    table, and a cell selection on the one changes the names that the other
    reports, while the matrix of the other stays as it was given. *)
Theorem constructor_shares_cell_table (w : world) (self : loc) (d : StereoExpData)
    (c : Cell) (g : Gene) (n_cells n_genes : nat) (index : list Z)
    (file_path file_format bin_type : option string) (size : Z)
    (exp_matrix : option matrix) (genes : loc + option (list string))
    (position : option (list (Q * Q))) (out : option string) (parts : Z) :
  snapshot w self = Some (d, c, g) →
  consistent n_cells n_genes (d, c, g) →
  in_range n_cells index →
  ∃ other w1 w2,
    StereoExpData_init file_path file_format bin_type size exp_matrix genes
      (inl (_cells d)) position out parts w = (Val other, w1)
    ∧ other ≠ self
    ∧ cell_names other w1 = (Val (_cell_name c), w1)
    ∧ sub_by_index self (Some index) None w1 = (Val self, w2)
    ∧ cell_names other w2
      = (Val ((λ a, gather a (resolve n_cells <$> index)) <$> _cell_name c), w2)
    ∧ _exp_matrix <$> data_objs w2 !! other = Some exp_matrix.
Proof.
  intros Hsnap Hcons Hin.
  destruct (snapshot_elim _ _ _ _ _ Hsnap) as (Hd & Hc & Hg).
  destruct (consistent_elim _ _ _ _ _ Hcons) as (m & p & Hm & _ & _ & Hp & _).
  set (other := fresh (dom (data_objs w))).
  assert (Hne : other ≠ self) by (symmetry; apply fresh_other; eauto).
  assert (Hinit : ∃ w1 gl,
            StereoExpData_init file_path file_format bin_type size exp_matrix genes
              (inl (_cells d)) position out parts w = (Val other, w1)
            ∧ data_objs w1
              = <[other := mkData file_path file_format parts out exp_matrix gl
                             (_cells d) position bin_type size]> (data_objs w)
            ∧ cell_objs w1 = cell_objs w
            ∧ gene_objs w1 !! _genes d = Some g).
  { destruct genes as [g0|names].
    - exists (with_data <[other := mkData file_path file_format parts out exp_matrix g0
                                       (_cells d) position bin_type size]> w), g0.
      by repeat split.
    - eexists _, _. split; [reflexivity|]. simpl. repeat split.
      rewrite lookup_insert_ne; [done|]. symmetry. apply fresh_other. eauto. }
  destruct Hinit as (w1 & gl & Hrun & Hdata & Hcells & Hgene).
  set (dnew := mkData _ _ _ _ _ _ _ _ _ _) in Hdata.
  assert (Hd1 : data_objs w1 !! self = Some d)
    by (rewrite Hdata, lookup_insert_ne; done).
  assert (Ho1 : data_objs w1 !! other = Some dnew)
    by (rewrite Hdata; apply lookup_insert_eq).
  assert (Hsnap1 : snapshot w1 self = Some (d, c, g))
    by (apply snapshot_intro; [done | by rewrite Hcells | done]).
  destruct (run_sub_by_index w1 self d c g n_cells n_genes (Some index) None m p)
    as (m1 & m2 & _ & _ & Hsub); try done; [by intros ? [= <-]|].
  eexists other, w1, _. split; [exact Hrun|]. split; [done|]. split; [|split; [|split]].
  - apply (run_cell_names w1 other dnew c); [done|]. simpl. by rewrite Hcells.
  - exact Hsub.
  - apply (run_cell_names _ other dnew (slice_cell c (resolve n_cells <$> index)));
      simpl.
    + by rewrite lookup_insert_ne.
    + apply lookup_insert_eq.
  - simpl. rewrite lookup_insert_ne by done. by rewrite Ho1.
Qed.

Lemma constructor_shares_cell_table_witness :
  ∃ other w1 w2,
    StereoExpData_init None None None 100 None (inr None) (inl 1%positive) None None 1
      small_world = (Val other, w1)
    ∧ other ≠ 1%positive
    ∧ cell_names other w1 = (Val (Some ["c0"; "c1"; "c2"]), w1)
    ∧ sub_by_index 1%positive (Some [2]) None w1 = (Val 1%positive, w2)
    ∧ cell_names other w2 = (Val (Some ["c2"]), w2).
Proof.
  destruct (constructor_shares_cell_table small_world 1%positive small_data small_cells
              small_genes 3 2 [2] None None None 100 None (inr None) None None 1
              eq_refl small_world_consistent)
    as (other & w1 & w2 & H1 & H2 & H3 & H4 & H5 & _).
  - repeat constructor; lia.
  - by exists other, w1, w2.
Defined.

(** ** Selections by name *)

Lemma resolve_of_nat (n k : nat) : resolve n (Z.of_nat k) = k.
Proof. unfold resolve. rewrite bool_decide_eq_false_2 by lia. lia. Qed.

Lemma first_match_head (a : option (list string)) (i : string) (k : nat) :
  first_match a i = Val k ↔ head (argwhere_eq a i) = Some k.
Proof.
  unfold first_match. destruct (argwhere_eq a i) as [|k' ks]; simpl; [done|].
  split; by intros [= ->].
Qed.

Lemma run_resolve_present (read : py (option (list string))) (l : list string)
    (w : world) (names : list string) :
  read w = (Val (Some l), w) → Forall (λ i, i ∈ l) names →
  resolve_names read names w = (Val (Z.of_nat <$> first_positions (Some l) names), w)
  ∧ Forall2 (λ i k, first_match (Some l) i = Val k ∧ l !! k = Some i) names
      (first_positions (Some l) names).
Proof.
  intros Hread Hall. unfold resolve_names, first_positions.
  induction Hall as [|i names Hi _ (IH & Hks)]; [done|].
  destruct (first_match_present l i Hi) as (k & E & Hk).
  pose proof (proj1 (first_match_head _ _ _) E) as Hh.
  change (omap ?f (i :: names))
    with (match f i with Some y => y :: omap f names | None => omap f names end).
  cbn beta. rewrite Hh. split; [|by constructor].
  simpl. rewrite !run_bind, Hread. cbn beta iota.
  rewrite run_bind, run_lift, E. cbn beta iota. rewrite run_ret. cbn beta iota.
  rewrite run_bind, IH. reflexivity.
Qed.

Lemma gather_found (l names : list string) (ks : list nat) :
  Forall2 (λ i k, first_match (Some l) i = Val k ∧ l !! k = Some i) names ks →
  gather l (resolve (length l) <$> (Z.of_nat <$> ks)) = names
  ∧ in_range (length l) (Z.of_nat <$> ks).
Proof.
  induction 1 as [|i k names ks [_ Hk] _ [IH1 IH2]]; [by split; [|constructor]|].
  rewrite !fmap_cons, resolve_of_nat. split.
  - by rewrite (gather_cons _ _ _ _ Hk), IH1.
  - constructor; [|done]. apply lookup_lt_Some in Hk. lia.
Qed.

(** The positions that the requested names resolve to. *)
Lemma run_requested_names (read : py (option (list string))) (a : option (list string))
    (w : world) (request : option (list string)) (n : nat) :
  read w = (Val a, w) → present request a → aligned n a →
  let index : option (list Z) :=
    (λ names, Z.of_nat <$> first_positions a names) <$> request in
  (match request with
   | Some names => Some <$> resolve_names read names
   | None => mret None
   end) w = (Val index, w)
  ∧ (∀ ks, index = Some ks → in_range n ks)
  ∧ (λ ks, (λ l, gather l (resolve n <$> ks)) <$> a) <$> index
    = (λ names, Some names) <$> request
  ∧ ∀ k i, origin a request k = Some i →
      from_option (λ ks, (resolve n <$> ks) !! k) (Some k) index = Some i.
Proof.
  intros Hread Hp Hal. destruct request as [names|]; [|done].
  destruct (Hp names eq_refl) as (l & -> & Hall).
  destruct (run_resolve_present read l w names Hread Hall) as (Hrun & Hks).
  destruct (gather_found l names _ Hks) as [Hg Hin].
  rewrite (Hal l eq_refl) in Hg, Hin.
  cbn zeta. rewrite run_fmap, Hrun. split; [done|].
  split; [by intros ? [= <-]|]. split; [simpl; by rewrite Hg|].
  intros k i. simpl. intros Ho.
  destruct (names !! k) as [nm|] eqn:Hnm; [simpl in Ho|done].
  destruct (Forall2_lookup_l _ _ _ _ _ Hks Hnm) as (k' & Hk' & Hfm & _).
  apply first_match_head in Hfm. unfold argwhere_eq in Hfm.
  rewrite Ho in Hfm. injection Hfm as ->.
  rewrite !list_lookup_fmap, Hk'. simpl. by rewrite resolve_of_nat.
Qed.

Lemma selected_rows_entry (m m1 : matrix) (ci : option (list Z)) (k i j : nat) :
  matrix_wf m → (∀ index, ci = Some index → in_range (shape m).1 index) →
  from_option (select_rows m) (Val m) ci = Val m1 →
  from_option (λ ks, (resolve (shape m).1 <$> ks) !! k) (Some k) ci = Some i →
  entry m1 k j = entry m i j.
Proof.
  intros Hwf Hin E Hk. destruct ci as [index|]; simpl in *.
  - destruct (select_rows_spec m index Hwf) as (m' & E' & _ & _ & Hent); [by apply Hin|].
    rewrite E in E'. injection E' as <-.
    rewrite list_lookup_fmap in Hk. destruct (index !! k) as [z|] eqn:Hz; [|done].
    injection Hk as <-. by apply Hent.
  - injection E as <-. by injection Hk as <-.
Qed.

Lemma selected_cols_entry (m m1 : matrix) (gi : option (list Z)) (i l j : nat) :
  matrix_wf m → (∀ index, gi = Some index → in_range (shape m).2 index) →
  from_option (select_cols m) (Val m) gi = Val m1 →
  from_option (λ ks, (resolve (shape m).2 <$> ks) !! l) (Some l) gi = Some j →
  entry m1 i l = entry m i j.
Proof.
  intros Hwf Hin E Hl. destruct gi as [index|]; simpl in *.
  - destruct (select_cols_spec m index Hwf) as (m' & E' & _ & _ & Hent); [by apply Hin|].
    rewrite E in E'. injection E' as <-.
    rewrite list_lookup_fmap in Hl. destruct (index !! l) as [z|] eqn:Hz; [|done].
    injection Hl as <-. by apply Hent.
  - injection E as <-. by injection Hl as <-.
Qed.

(** The copy that [sub_by_name] returns for names that are all present. *)
Lemma run_sub_by_name (w : world) (self : loc) d c g (n_cells n_genes : nat)
    (cell_name gene_name : option (list string)) (m : matrix) :
  snapshot w self = Some (d, c, g) →
  consistent n_cells n_genes (d, c, g) → _exp_matrix d = Some m →
  present cell_name (_cell_name c) → present gene_name (_gene_name g) →
  let ci : option (list Z) :=
    (λ names, Z.of_nat <$> first_positions (_cell_name c) names) <$> cell_name in
  let gi : option (list Z) :=
    (λ names, Z.of_nat <$> first_positions (_gene_name g) names) <$> gene_name in
  ∃ m1 m2 copy w' d' c' g',
    from_option (select_rows m) (Val m) ci = Val m1
    ∧ from_option (select_cols m1) (Val m1) gi = Val m2
    ∧ sub_by_name self cell_name gene_name w = (Val copy, w')
    ∧ snapshot w' copy = Some (d', c', g')
    ∧ _exp_matrix d' = Some m2
    ∧ _cell_name c' = from_option Some (_cell_name c) cell_name
    ∧ _gene_name g' = from_option Some (_gene_name g) gene_name
    ∧ (∀ index, ci = Some index → in_range n_cells index)
    ∧ (∀ index, gi = Some index → in_range n_genes index)
    ∧ (∀ k i, origin (_cell_name c) cell_name k = Some i →
         from_option (λ ks, (resolve n_cells <$> ks) !! k) (Some k) ci = Some i)
    ∧ (∀ k i, origin (_gene_name g) gene_name k = Some i →
         from_option (λ ks, (resolve n_genes <$> ks) !! k) (Some k) gi = Some i).
Proof.
  intros Hsnap Hcons Hm Hpc Hpg ci gi.
  destruct (consistent_elim _ _ _ _ _ Hcons)
    as (m0 & p & Hm0 & Hwf & Hshape & Hp & Hlen & H1 & H2 & H3 & H4 & H5 & H6).
  rewrite Hm in Hm0. injection Hm0 as <-.
  unfold sub_by_name.
  rewrite run_bind, (run_deepcopy _ _ _ _ _ Hsnap). cbn beta iota.
  set (ld := fresh (dom (data_objs w))).
  set (lc := fresh (dom (cell_objs w))).
  set (lg := fresh (dom (gene_objs w))).
  set (d1 := set_cells (set_genes d lg) lc).
  set (w1 := with_data _ _).
  assert (Hd1 : data_objs w1 !! ld = Some d1) by (subst w1; simpl; apply lookup_insert_eq).
  assert (Hc1 : cell_objs w1 !! lc = Some c) by (subst w1; simpl; apply lookup_insert_eq).
  assert (Hg1 : gene_objs w1 !! lg = Some g) by (subst w1; simpl; apply lookup_insert_eq).
  assert (Hsnap1 : snapshot w1 ld = Some (d1, c, g)) by (by apply snapshot_intro).
  assert (Hcons1 : consistent n_cells n_genes (d1, c, g)).
  { destruct Hcons as (A1 & A2 & A3 & A4 & A5 & A6 & A7 & A8). by repeat split. }
  rewrite run_bind.
  destruct (run_requested_names (cell_names ld) (_cell_name c) w1 cell_name n_cells)
    as (-> & Hci & Hcn & Hco); [by eapply run_cell_names | done..|].
  fold ci in Hci, Hcn, Hco |- *.
  cbn beta iota. rewrite run_bind.
  destruct (run_requested_names (gene_names ld) (_gene_name g) w1 gene_name n_genes)
    as (-> & Hgi & Hgn & Hgo); [by eapply run_gene_names | done..|].
  fold gi in Hgi, Hgn, Hgo |- *.
  cbn beta iota.
  destruct (run_sub_by_index w1 ld d1 c g n_cells n_genes ci gi m p)
    as (m1 & m2 & E1 & E2 & Hrun); try done.
  eexists m1, m2, ld, _, _, _, _. split; [done|]. split; [done|].
  split; [exact Hrun|]. split.
  { apply snapshot_intro; simpl; apply lookup_insert_eq. }
  split; [done|]. split; [|split]; [| |by repeat split].
  - subst ci. destruct cell_name as [names|]; [|done]. simpl in *.
    injection Hcn as Hcn. by destruct (_cell_name c).
  - subst gi. destruct gene_name as [names|]; [|done]. simpl in *.
    injection Hgn as Hgn. by destruct (_gene_name g).
Qed.

(** For names that are all present, [sub_by_name] returns a new dataset
    whose cell names and gene names are the requested ones, in the order of
    the request (a name asked for twice is there twice).  Its matrix holds,
    at line [k] and column [l], the entry of the original at the first
    position of the [k]-th requested cell name and of the [l]-th requested
    gene name; an axis without request is kept as it is. *)
Theorem sub_by_name_selects_requested (w : world) (self : loc) (d : StereoExpData)
    (c : Cell) (g : Gene) (n_cells n_genes : nat)
    (cell_name gene_name : option (list string)) :
  snapshot w self = Some (d, c, g) →
  consistent n_cells n_genes (d, c, g) →
  present cell_name (_cell_name c) → present gene_name (_gene_name g) →
  ∃ copy w' d' c' g',
    sub_by_name self cell_name gene_name w = (Val copy, w')
    ∧ snapshot w' copy = Some (d', c', g')
    ∧ _cell_name c' = from_option Some (_cell_name c) cell_name
    ∧ _gene_name g' = from_option Some (_gene_name g) gene_name
    ∧ ∀ k l i j,
        origin (_cell_name c) cell_name k = Some i →
        origin (_gene_name g) gene_name l = Some j →
        (_exp_matrix d' ≫= λ m, entry m k l) = (_exp_matrix d ≫= λ m, entry m i j).
Proof.
  intros Hsnap Hcons Hpc Hpg.
  destruct (consistent_elim _ _ _ _ _ Hcons) as (m & p & Hm & Hwf & Hshape & _).
  destruct (run_sub_by_name w self d c g n_cells n_genes cell_name gene_name m)
    as (m1 & m2 & copy & w' & d' & c' & g' & E1 & E2 & Hrun & Hsnap' & Hm2 & Hcn & Hgn
        & Hci & Hgi & Hco & Hgo); try done.
  set (ci := (λ names, Z.of_nat <$> first_positions (_cell_name c) names) <$> cell_name)
    in *.
  set (gi := (λ names, Z.of_nat <$> first_positions (_gene_name g) names) <$> gene_name)
    in *.
  destruct (selected_rows m m1 _ _ ci Hwf Hshape Hci E1) as [Hwf1 Hsh1].
  exists copy, w', d', c', g'. repeat split; try done.
  intros k l i j Hk Hl. rewrite Hm2, Hm. simpl.
  rewrite (selected_cols_entry m1 m2 gi k l j); try done.
  - apply (selected_rows_entry m m1 ci k i j Hwf); try done.
    + by rewrite Hshape.
    + rewrite Hshape. by apply Hco.
  - by rewrite Hsh1.
  - rewrite Hsh1. by apply Hgo.
Qed.

Lemma sub_by_name_selects_requested_witness :
  ∃ copy w' d' c' g',
    sub_by_name 1%positive (Some ["c2"; "c0"; "c2"]) None small_world = (Val copy, w')
    ∧ snapshot w' copy = Some (d', c', g')
    ∧ _cell_name c' = Some ["c2"; "c0"; "c2"]
    ∧ _gene_name g' = Some ["g0"; "g1"]
    ∧ (_exp_matrix d' ≫= λ m, entry m 2 1) = Some 4.
Proof.
  destruct (sub_by_name_selects_requested small_world 1%positive small_data small_cells
              small_genes 3 2 (Some ["c2"; "c0"; "c2"]) None eq_refl
              small_world_consistent)
    as (copy & w' & d' & c' & g' & H1 & H2 & H3 & H4 & H5).
  - intros names [= <-]. eexists. split; [reflexivity|].
    repeat constructor; rewrite !elem_of_cons; naive_solver.
  - done.
  - exists copy, w', d', c', g'. repeat split; try done.
    by rewrite (H5 2%nat 1%nat 2%nat 1%nat eq_refl eq_refl).
Defined.

(** ** The identifier of a bin *)

Lemma append_cons (a : Ascii.ascii) (s t : string) : String a s +:+ t = String a (s +:+ t).
Proof. reflexivity. Qed.

Lemma append_nil (t : string) : "" +:+ t = t.
Proof. reflexivity. Qed.

(** A string without the separator splits in one way at the separator. *)
Lemma split_at_separator (s1 s2 t1 t2 : string) :
  (∀ pre post, s1 ≠ pre +:+ "_" +:+ post) →
  (∀ pre post, s2 ≠ pre +:+ "_" +:+ post) →
  s1 +:+ "_" +:+ t1 = s2 +:+ "_" +:+ t2 → s1 = s2 ∧ t1 = t2.
Proof.
  revert s2. induction s1 as [|a s1 IH]; intros [|b s2] H1 H2 E.
  - rewrite !append_nil, !append_cons, !append_nil in E. by injection E as ->.
  - rewrite append_nil, !append_cons, append_nil in E. injection E as <- E.
    by destruct (H2 "" s2).
  - rewrite (append_nil ("_" +:+ t2)), !append_cons, append_nil in E.
    injection E as -> E. by destruct (H1 "" s1).
  - rewrite !append_cons in E. injection E as -> E.
    destruct (IH s2) as [-> ->]; [| |done|done].
    + intros pre post ->. by destruct (H1 (String b pre) post).
    + intros pre post ->. by destruct (H2 (String b pre) post).
Qed.

Lemma pretty_N_go_no_separator (x : N) (s : string) :
  (∀ pre post, s ≠ pre +:+ "_" +:+ post) →
  ∀ pre post, pretty_N_go x s ≠ pre +:+ "_" +:+ post.
Proof.
  revert s. induction (N.lt_wf_0 x) as [x _ IH]; intros s Hs.
  assert (x = 0 ∨ 0 < x)%N as [->|Hx] by lia; [by rewrite pretty_N_go_0|].
  rewrite pretty_N_go_step by done. apply IH; [by apply N.div_lt|].
  intros [|a pre] post E.
  - rewrite append_nil, append_cons, append_nil in E. injection E as E _.
    unfold pretty_N_char in E. by repeat case_match.
  - rewrite append_cons in E. injection E as _ E. by destruct (Hs pre post).
Qed.

Lemma pretty_Z_no_separator (z : Z) (pre post : string) :
  pretty z ≠ pre +:+ "_" +:+ post.
Proof.
  assert (Hnil : ∀ pre post, "" ≠ pre +:+ "_" +:+ post) by (by intros [|??] ?).
  assert (HN : ∀ (p : positive) pre post, pretty p ≠ pre +:+ "_" +:+ post).
  { intros p. unfold pretty, pretty_positive, pretty, pretty_N.
    rewrite decide_False by done. by apply pretty_N_go_no_separator. }
  destruct z as [|p|p]; unfold pretty, pretty_Z.
  - by destruct pre as [|? [|??]].
  - apply HN.
  - destruct pre as [|a pre]; [done|].
    rewrite !append_cons. intros [= _ E]. by destruct (HN p pre post).
Qed.

(** The identifier [bin_x_bin_y] names one bin. *)
Lemma cell_id_inj (bx by_ bx' by' : Z) :
  pretty bx +:+ "_" +:+ pretty by_ = pretty bx' +:+ "_" +:+ pretty by' →
  bx = bx' ∧ by_ = by'.
Proof.
  intros E. apply split_at_separator in E as [E1 E2];
    try apply pretty_Z_no_separator.
  by apply (inj pretty) in E1, E2.
Qed.

(** ** Distinct values *)

Lemma remove_dups_fmap_inj {A B} `{EqDecision A, EqDecision B} (f : A → B) (l : list A) :
  (∀ x y, x ∈ l → y ∈ l → f x = f y → x = y) →
  remove_dups (f <$> l) = f <$> remove_dups l.
Proof.
  induction l as [|x l IH]; intros Hinj; [done|].
  assert (Hl : ∀ x y, x ∈ l → y ∈ l → f x = f y → x = y)
    by (intros ?? ?? ?; apply Hinj; [by right | by right | done]).
  rewrite fmap_cons. cbn [remove_dups]. rewrite (IH Hl).
  destruct (decide_rel elem_of x l) as [Hx|Hx];
    destruct (decide_rel elem_of (f x) (f <$> l)) as [Hfx|Hfx]; try done.
  - destruct Hfx. apply list_elem_of_fmap; eauto.
  - apply list_elem_of_fmap in Hfx as (y & E & Hy).
    apply Hinj in E; [by subst | by left | by right].
Qed.

Lemma unique_fmap_inj {A B} `{EqDecision A, EqDecision B} (f : A → B) (l : list A) :
  (∀ x y, x ∈ l → y ∈ l → f x = f y → x = y) →
  unique (f <$> l) = f <$> unique l.
Proof.
  intros Hinj. unfold unique.
  rewrite <- fmap_reverse, remove_dups_fmap_inj, fmap_reverse; [done|].
  intros x y Hx Hy. apply Hinj; by apply elem_of_reverse.
Qed.

(** ** Ingestion *)

Lemma series_map_bound (col all : list string) :
  col ⊆ all →
  ∃ ks, series_map col (dict_zip (unique all)) = Val ks
        ∧ Forall (λ k, k < length (unique all))%nat ks.
Proof.
  intros Hsub. destruct (series_map_keys col all Hsub) as (ks & E & Hall).
  exists ks. split; [done|]. apply Forall_forall. intros k Hk.
  apply list_elem_of_lookup in Hk as [n Hn].
  destruct (Forall2_lookup_r _ _ _ _ _ Hall Hn) as (v & _ & Hv).
  by apply lookup_lt_Some in Hv.
Qed.

Lemma csr_line_bound (es : list (nat * Z)) (c : nat) :
  Forall (λ e, e.1 < c)%nat es → Forall (λ e, e.1 < c)%nat (csr_line es).
Proof.
  intros Hes. unfold csr_line. apply Forall_fmap, Forall_forall. intros j Hj. simpl.
  rewrite merge_sort_Permutation, elem_of_remove_dups in Hj.
  apply list_elem_of_fmap in Hj as (e & -> & He).
  by apply (proj1 (Forall_forall _ _) Hes).
Qed.

(** The matrix of ingestion is always built: every line of the frame has its
    cell and its gene among the distinct ones. *)
Lemma exp_matrix_of_returns (cell_id geneID : list string) (UMICount : list Z) :
  ∃ m, exp_matrix_of cell_id geneID UMICount = Val m
       ∧ matrix_wf m
       ∧ shape m = (length (unique cell_id), length (unique geneID)).
Proof.
  destruct (series_map_bound cell_id cell_id) as (ks & Hks & Hkb); [done|].
  destruct (series_map_bound geneID geneID) as (js & Hjs & Hjb); [done|].
  eexists. split; [|split].
  - unfold exp_matrix_of. rewrite Hks. simpl. rewrite Hjs. simpl.
    unfold csr_matrix. simpl.
    rewrite !bool_decide_eq_false_2; [reflexivity|..].
    + rewrite <- Forall_Exists_neg. eapply Forall_impl; [exact Hjb|]. simpl. lia.
    + rewrite <- Forall_Exists_neg. eapply Forall_impl; [exact Hkb|]. simpl. lia.
  - simpl. split; [by rewrite length_fmap, length_seq|].
    apply Forall_fmap, Forall_forall. intros i _. simpl.
    apply csr_line_bound, Forall_fmap, Forall_forall. intros [k [j v]] He. simpl.
    apply list_elem_of_filter in He as [_ He].
    apply elem_of_zip_r, elem_of_zip_l in He.
    by apply (proj1 (Forall_forall _ _) Hjb).
  - done.
Qed.

Lemma toarray_wf (m : matrix) : matrix_wf m → matrix_wf (toarray m) ∧ shape (toarray m) = shape m.
Proof.
  destruct m as [r c rows|r c rows|r c cols]; simpl; [done|..]; intros [Hlen _].
  - split; [|done]. split; [by rewrite length_fmap|].
    apply Forall_fmap, Forall_forall. intros line _. simpl.
    by rewrite length_fmap, length_seq.
  - split; [|done]. split.
    + unfold transpose_lines. by rewrite !length_fmap, length_seq.
    + apply Forall_fmap, Forall_forall. intros line _. simpl.
      by rewrite length_fmap, length_seq.
Qed.

(** The store that lines 257 to 267 of [read_txt] leave: a new cell table
    and a new gene table that hold the distinct names, and the matrix. *)
Lemma run_ingest (w : world) (self : loc) d (cell_id geneID : list string)
    (UMICount : list Z) (is_sparse : bool) :
  data_objs w !! self = Some d →
  let lc := fresh (dom (cell_objs w)) in
  let lg := fresh (dom (gene_objs w)) in
  ∃ m w0,
    matrix_wf m
    ∧ shape m = (length (unique cell_id), length (unique geneID))
    ∧ cell_objs w0 = cell_objs w ∧ gene_objs w0 = gene_objs w
    ∧ data_objs w0 = data_objs w ∧ files w0 = files w
    ∧ ingest self cell_id geneID UMICount is_sparse w
      = (Val (unique cell_id),
         with_data <[self := set_exp_matrix (set_genes (set_cells d lc) lg) (Some m)]>
           (with_genes <[lg := mkGene (Some (unique geneID)) []]>
              (with_cells <[lc := mkCell (Some (unique cell_id)) None None None None]>
                 w0))).
Proof.
  intros Hd lc lg.
  destruct (exp_matrix_of_returns cell_id geneID UMICount) as (m & Hm & Hwf & Hsh).
  destruct (toarray_wf m Hwf) as [Hwf' Hsh'].
  exists (if is_sparse then m else toarray m),
    (logger_info ("the martrix has " +:+ pretty (length (unique cell_id))
                  +:+ " cells, and " +:+ pretty (length (unique geneID))
                  +:+ " genes.") w).2.
  split; [by destruct is_sparse|]. split; [destruct is_sparse; congruence|].
  split; [reflexivity|]. split; [reflexivity|]. split; [reflexivity|].
  split; [reflexivity|].
  unfold ingest. rewrite run_bind. unfold logger_info. cbn beta iota.
  cbn [snd]. set (w0 := mkWorld _ _ _ _ _).
  rewrite run_bind, run_lift, Hm. cbn beta iota.
  rewrite run_bind. unfold Cell_init, new_cell at 1. cbn beta iota zeta.
  change (fresh (dom (cell_objs w0))) with lc.
  rewrite run_bind, (run_assign _ _ d) by done. cbn beta iota.
  rewrite run_bind. unfold Gene_init, new_gene at 1. cbn beta iota zeta.
  change (fresh (dom (gene_objs _))) with lg.
  rewrite run_bind. erewrite run_assign by (simpl; apply lookup_insert_eq).
  cbn beta iota.
  rewrite run_bind. erewrite run_assign by (simpl; apply lookup_insert_eq).
  cbn beta iota. rewrite run_ret. f_equal.
  unfold with_data, with_genes, with_cells. simpl.
  by rewrite !insert_insert_eq.
Qed.

(** [read_txt] needs a bin type.  On a dataset whose bin type is unset, as
    the constructor leaves it by default, or is anything but ['bins'] and
    ['cell_bins'], it takes the grid-bin branch, assigns new cell and gene
    tables and the matrix, and then raises the [AttributeError] of reading
    [gdf.loc] on [None]: the positions are never assigned. *)
Theorem read_txt_without_bin_type (w : world) (self : loc) (d : StereoExpData)
    (df : list (option record)) (size : Z) (is_sparse : bool) :
  data_objs w !! self = Some d →
  _bin_type d ≠ Some "cell_bins" → _bin_type d ≠ Some "bins" →
  dropna df ≠ [] →
  ∃ w' d' m names,
    read_txt self df size is_sparse w
    = (Raise (AttributeError "'NoneType' object has no attribute 'loc'"), w')
    ∧ data_objs w' !! self = Some d'
    ∧ _exp_matrix d' = Some m
    ∧ cell_names self w' = (Val (Some names), w')
    ∧ shape m = (length names,
                 length (unique (geneID <$> dropna df)))
    ∧ _position d' = _position d
    ∧ cell_objs w !! _cells d' = None.
Proof.
  intros Hd Hcb Hb Hne. unfold read_txt.
  rewrite run_bind, (run_get_data _ _ _ Hd). cbn beta iota.
  rewrite run_bind, bool_decide_eq_false_2 by done.
  rewrite (bool_decide_eq_false_2 (_bin_type d = Some "bins")) by done.
  set (bs := parse_bin_coor (dropna df) size).
  destruct (run_ingest w self d (cell_id <$> bs) (geneID ∘ raw <$> bs)
              (UMICount ∘ raw <$> bs) is_sparse Hd)
    as (m & w0 & Hwf & Hsh & Hc0 & Hg0 & Hd0 & Hf0 & Hrun).
  rewrite run_bind, Hrun. cbn beta iota.
  assert (Hgenes : geneID ∘ raw <$> bs = geneID <$> dropna df).
  { apply list_eq. intros k. subst bs. rewrite !list_lookup_fmap.
    destruct (dropna df !! k) as [r|] eqn:Hk.
    - by rewrite (parse_bin_coor_lookup _ _ _ _ Hk).
    - unfold parse_bin_coor. by rewrite lookup_zip_with, Hk. }
  eexists _, _, m, (unique (cell_id <$> bs)).
  split; [reflexivity|]. split; [simpl; apply lookup_insert_eq|].
  split; [done|]. split; [|split; [|split]].
  - eapply (run_cell_names _ self _
              (mkCell (Some (unique (cell_id <$> bs))) None None None None));
      simpl; apply lookup_insert_eq.
  - by rewrite Hsh, Hgenes.
  - done.
  - simpl. apply fresh_lookup.
Qed.

Lemma read_txt_without_bin_type_witness :
  ∃ w' d' m names,
    read_txt 1%positive [Some (mkRecord 10 20 "G1" 3 "")] 100 true bare_world
    = (Raise (AttributeError "'NoneType' object has no attribute 'loc'"), w')
    ∧ data_objs w' !! 1%positive = Some d'
    ∧ _exp_matrix d' = Some m
    ∧ cell_names 1%positive w' = (Val (Some names), w')
    ∧ _position d' = None.
Proof.
  destruct (read_txt_without_bin_type bare_world 1%positive bare_data
              [Some (mkRecord 10 20 "G1" 3 "")] 100 true eq_refl)
    as (w' & d' & m & names & H1 & H2 & H3 & H4 & _ & H6 & _).
  - intros [=].
  - intros [=].
  - intros [=].
  - exists w', d', m, names.
    split; [exact H1|]. split; [exact H2|]. split; [exact H3|].
    split; [exact H4 | exact H6].
Defined.

Lemma parse_bin_coor_elem (df : list record) (size : Z) (b : binned) :
  b ∈ parse_bin_coor df size →
  let x_min := col_min (col_x <$> df) in
  let y_min := col_min (col_y <$> df) in
  let half := py_int (round53 (inject_Z size / 2)) in
  cell_id b = pretty (bin_x b) +:+ "_" +:+ pretty (bin_y b)
  ∧ x_center b = int64 (bin_x b * size + x_min + half)
  ∧ y_center b = int64 (bin_y b * size + y_min + half).
Proof.
  intros Hb. apply list_elem_of_lookup in Hb as [k Hk].
  destruct (df !! k) as [r|] eqn:Hr.
  - rewrite (parse_bin_coor_lookup df size k r Hr) in Hk. by injection Hk as <-.
  - unfold parse_bin_coor in Hk. by rewrite lookup_zip_with, Hr in Hk.
Qed.

(** On exact columns the center of a line of the frame is the one of the
    exact formula. *)
Lemma parse_bin_coor_exact (df : list record) (size : Z) (b : binned) :
  0 < size < 2 ^ 53 →
  exact_column (col_x <$> df) → exact_column (col_y <$> df) →
  b ∈ parse_bin_coor df size →
  cell_id b = pretty (bin_x b) +:+ "_" +:+ pretty (bin_y b)
  ∧ x_center b = bin_x b * size + col_min (col_x <$> df) + size `div` 2
  ∧ y_center b = bin_y b * size + col_min (col_y <$> df) + size `div` 2.
Proof.
  intros Hsize Hcx Hcy Hb. apply list_elem_of_lookup in Hb as [k Hk].
  destruct (df !! k) as [r|] eqn:Hr.
  - assert (Hin : r ∈ df) by (by eapply list_elem_of_lookup_2).
    rewrite (parse_bin_coor_lookup df size k r Hr) in Hk. injection Hk as <-.
    cbn [cell_id bin_x bin_y x_center y_center].
    destruct (bin_exact (col_x <$> df) (col_x r) size Hsize Hcx) as (Ex & Cx & _).
    { apply list_elem_of_fmap. eauto. }
    destruct (bin_exact (col_y <$> df) (col_y r) size Hsize Hcy) as (Ey & Cy & _).
    { apply list_elem_of_fmap. eauto. }
    cbv zeta in Ex, Cx, Ey, Cy. by rewrite Ex, Ey, Cx, Cy.
  - unfold parse_bin_coor in Hk. by rewrite lookup_zip_with, Hr in Hk.
Qed.

Lemma unique_lookup {A} `{EqDecision A} (l : list A) (x : A) :
  x ∈ l → ∃ k, unique l !! k = Some x.
Proof. intros Hx. by apply list_elem_of_lookup, elem_of_unique. Qed.

(** In grid-bin mode, with a positive bin size below [2 ^ 53] and
    coordinates on which the arithmetic of the bins is exact, [read_txt]
    returns with the invariant of the dataset established: one name per
    distinct bin, no name twice, one position per name, and a matrix of as
    many rows as names and as many columns as distinct genes.  The position
    at [k] is the center of the bin that the name at [k] identifies: every
    line of the frame finds its bin identifier and its bin center at one and
    the same place. *)
Theorem read_txt_bins_aligned (w : world) (self : loc) (d : StereoExpData)
    (df : list (option record)) (size : Z) (is_sparse : bool) :
  data_objs w !! self = Some d →
  _bin_type d = Some "bins" → 0 < size < 2 ^ 53 →
  exact_column (col_x <$> dropna df) → exact_column (col_y <$> dropna df) →
  dropna df ≠ [] →
  let bs := parse_bin_coor (dropna df) size in
  ∃ w' d' c' g' names position,
    read_txt self df size is_sparse w = (Val self, w')
    ∧ snapshot w' self = Some (d', c', g')
    ∧ _cell_name c' = Some names ∧ _position d' = Some position
    ∧ NoDup names
    ∧ consistent (length names) (length (unique (geneID <$> dropna df))) (d', c', g')
    ∧ ∀ b, b ∈ bs →
        ∃ k, names !! k = Some (cell_id b)
             ∧ position !! k = Some (inject_Z (x_center b), inject_Z (y_center b)).
Proof.
  intros Hd Hbins Hsize Hcx Hcy Hne bs. unfold read_txt.
  rewrite run_bind, (run_get_data _ _ _ Hd). cbn beta iota.
  rewrite Hbins.
  rewrite run_bind, bool_decide_eq_false_2 by done.
  rewrite (bool_decide_eq_true_2 (Some "bins" = Some "bins")) by done.
  fold bs.
  destruct (run_ingest w self d (cell_id <$> bs) (geneID ∘ raw <$> bs)
              (UMICount ∘ raw <$> bs) is_sparse Hd)
    as (m & w0 & Hwf & Hsh & Hc0 & Hg0 & Hd0 & Hf0 & Hrun).
  rewrite run_bind, Hrun. cbn beta iota.
  erewrite run_assign by (simpl; apply lookup_insert_eq).
  cbn beta iota. rewrite run_ret.
  assert (Hgenes : geneID ∘ raw <$> bs = geneID <$> dropna df).
  { apply list_eq. intros k. subst bs. rewrite !list_lookup_fmap.
    destruct (dropna df !! k) as [r|] eqn:Hk.
    - by rewrite (parse_bin_coor_lookup _ _ _ _ Hk).
    - unfold parse_bin_coor. by rewrite lookup_zip_with, Hk. }
  (* names and positions are both read off the bin a line falls in *)
  set (x_min := col_min (col_x <$> dropna df)).
  set (y_min := col_min (col_y <$> dropna df)).
  set (half := size `div` 2).
  set (key := λ b : binned, (bin_x b, bin_y b)).
  set (fid := λ k : Z * Z, pretty k.1 +:+ "_" +:+ pretty k.2).
  set (fc := λ k : Z * Z, (k.1 * size + x_min + half, k.2 * size + y_min + half)).
  assert (Hids : cell_id <$> bs = fid <$> (key <$> bs)).
  { rewrite <- list_fmap_compose. apply Forall_fmap_ext, Forall_forall.
    intros b Hb. by destruct (parse_bin_coor_elem _ _ _ Hb) as (-> & _). }
  assert (Hcs : (λ r, (x_center r, y_center r)) <$> bs = fc <$> (key <$> bs)).
  { rewrite <- list_fmap_compose. apply Forall_fmap_ext, Forall_forall.
    intros b Hb.
    by destruct (parse_bin_coor_exact _ _ _ Hsize Hcx Hcy Hb) as (_ & -> & ->). }
  assert (Hfid : unique (fid <$> (key <$> bs)) = fid <$> unique (key <$> bs)).
  { apply unique_fmap_inj. intros [x y] [x' y'] _ _ E.
    apply cell_id_inj in E as [E1 E2]. simpl in *. by subst. }
  assert (Hfc : unique (fc <$> (key <$> bs)) = fc <$> unique (key <$> bs)).
  { apply unique_fmap_inj. intros [x y] [x' y'] _ _ [= E1 E2]. simpl in *.
    f_equal; nia. }
  rewrite Hcs, Hfc. rewrite Hids, Hfid in Hrun, Hsh |- *.
  eexists _, _, _, _, _, _. split; [reflexivity|]. split.
  { apply snapshot_intro; simpl; apply lookup_insert_eq. }
  split; [reflexivity|]. split; [reflexivity|]. split; [|split].
  - apply NoDup_fmap_2_strong; [|apply NoDup_unique].
    intros [x y] [x' y'] _ _ E. apply cell_id_inj in E as [E1 E2].
    simpl in *. by subst.
  - unfold consistent, aligned. simpl. rewrite <- Hgenes.
    split; [by eauto|]. split.
    { eexists. split; [reflexivity|]. by rewrite !length_fmap. }
    repeat split; eauto; by intros l [=].
  - intros b Hb.
    destruct (unique_lookup (key <$> bs) (key b)) as [k Hk];
      [apply list_elem_of_fmap; eauto|].
    exists k. rewrite !list_lookup_fmap, Hk. simpl.
    by destruct (parse_bin_coor_exact _ _ _ Hsize Hcx Hcy Hb) as (-> & -> & ->).
Qed.

Lemma read_txt_bins_aligned_witness :
  ∃ w' d' c' g' names position,
    read_txt 1%positive
      [Some (mkRecord 5 9 "G1" 2 ""); None; Some (mkRecord 150 120 "G2" 1 "");
       Some (mkRecord 7 30 "G2" 4 "")] 100 true small_world = (Val 1%positive, w')
    ∧ snapshot w' 1%positive = Some (d', c', g')
    ∧ _cell_name c' = Some names ∧ _position d' = Some position
    ∧ NoDup names ∧ length position = length names.
Proof.
  destruct (read_txt_bins_aligned small_world 1%positive small_data
              [Some (mkRecord 5 9 "G1" 2 ""); None; Some (mkRecord 150 120 "G2" 1 "");
               Some (mkRecord 7 30 "G2" 4 "")] 100 true eq_refl eq_refl)
    as (w' & d' & c' & g' & names & position & H1 & H2 & H3 & H4 & H5 & H6 & _).
  - lia.
  - unfold exact_column. simpl. repeat constructor; lia.
  - unfold exact_column. simpl. repeat constructor; lia.
  - done.
  - exists w', d', c', g', names, position.
    split; [exact H1|]. split; [exact H2|]. split; [exact H3|].
    split; [exact H4|]. split; [exact H5|].
    destruct H6 as (_ & (p & E & Hp) & (a & E' & Ha) & _).
    cbn [fst snd] in E, E'. congruence.
Defined.

(** The identifier that [parse_bin_coor] gives a line, the text
    [bin_x_bin_y], names the bin of the line and nothing else: two lines of
    the frame have the same identifier exactly when they fall in the same
    bin on both axes, whatever the coordinates and the bin size.  With a
    positive bin size below [2 ^ 53] and coordinates on which the arithmetic
    of the bins is exact, they have the same identifier exactly when they
    have the same bin center. *)
Theorem cell_id_identifies_bin (df : list record) (size : Z) (b1 b2 : binned) :
  b1 ∈ parse_bin_coor df size → b2 ∈ parse_bin_coor df size →
  (cell_id b1 = cell_id b2 ↔ bin_x b1 = bin_x b2 ∧ bin_y b1 = bin_y b2)
  ∧ (0 < size < 2 ^ 53 →
     exact_column (col_x <$> df) → exact_column (col_y <$> df) →
     (cell_id b1 = cell_id b2
      ↔ x_center b1 = x_center b2 ∧ y_center b1 = y_center b2)).
Proof.
  intros H1 H2.
  destruct (parse_bin_coor_elem _ _ _ H1) as (E1 & _).
  destruct (parse_bin_coor_elem _ _ _ H2) as (E2 & _).
  assert (Hid : cell_id b1 = cell_id b2 ↔ bin_x b1 = bin_x b2 ∧ bin_y b1 = bin_y b2).
  { rewrite E1, E2. split; [apply cell_id_inj | by intros [-> ->]]. }
  split; [done|]. intros Hsize Hcx Hcy.
  destruct (parse_bin_coor_exact _ _ _ Hsize Hcx Hcy H1) as (_ & X1 & Y1).
  destruct (parse_bin_coor_exact _ _ _ Hsize Hcx Hcy H2) as (_ & X2 & Y2).
  rewrite Hid, X1, X2, Y1, Y2.
  split; [by intros [-> ->] | intros [Hx Hy]; split; nia].
Qed.

Lemma cell_id_identifies_bin_witness :
  (cell_id (mkBinned (mkRecord 150 120 "G2" 1 "") 1 1 "1_1" 155 159)
   = cell_id (mkBinned (mkRecord 199 110 "G3" 1 "") 1 1 "1_1" 155 159)
   ↔ bin_x (mkBinned (mkRecord 150 120 "G2" 1 "") 1 1 "1_1" 155 159)
     = bin_x (mkBinned (mkRecord 199 110 "G3" 1 "") 1 1 "1_1" 155 159)
     ∧ bin_y (mkBinned (mkRecord 150 120 "G2" 1 "") 1 1 "1_1" 155 159)
       = bin_y (mkBinned (mkRecord 199 110 "G3" 1 "") 1 1 "1_1" 155 159))
  ∧ (cell_id (mkBinned (mkRecord 150 120 "G2" 1 "") 1 1 "1_1" 155 159)
     = cell_id (mkBinned (mkRecord 199 110 "G3" 1 "") 1 1 "1_1" 155 159)
     ↔ x_center (mkBinned (mkRecord 150 120 "G2" 1 "") 1 1 "1_1" 155 159)
       = x_center (mkBinned (mkRecord 199 110 "G3" 1 "") 1 1 "1_1" 155 159)
       ∧ y_center (mkBinned (mkRecord 150 120 "G2" 1 "") 1 1 "1_1" 155 159)
         = y_center (mkBinned (mkRecord 199 110 "G3" 1 "") 1 1 "1_1" 155 159)).
Proof.
  destruct (cell_id_identifies_bin
              [mkRecord 5 9 "G1" 2 ""; mkRecord 150 120 "G2" 1 "";
               mkRecord 199 110 "G3" 1 ""] 100
              (mkBinned (mkRecord 150 120 "G2" 1 "") 1 1 "1_1" 155 159)
              (mkBinned (mkRecord 199 110 "G3" 1 "") 1 1 "1_1" 155 159))
    as [Hbins Hcenters].
  - apply (list_elem_of_lookup_2 _ 1%nat). vm_compute. reflexivity.
  - apply (list_elem_of_lookup_2 _ 2%nat). vm_compute. reflexivity.
  - split; [exact Hbins|]. apply Hcenters.
    + lia.
    + unfold exact_column. simpl. repeat constructor; lia.
    + unfold exact_column. simpl. repeat constructor; lia.
Defined.

(** ** Cell boundaries *)

Lemma convex_hull_centroid (p : list (Z * Z)) :
  p ≠ [] → ∃ xy, centroid (convex_hull p) = Some xy.
Proof.
  intros Hp.
  assert (Hg : ∀ g, g ≠ GeometryEmpty → ∃ xy, centroid g = Some xy).
  { intros [|?|??|ring] Hg; [done|simpl..]; try by eexists.
    destruct (ring_sums ring) as [[??]?]. by eexists. }
  unfold convex_hull.
  destruct (unique p) as [|a [|b [|c l]]] eqn:E.
  - destruct p as [|q p]; [done|].
    assert (Hq : q ∈ unique (q :: p)) by (apply elem_of_unique; by left).
    rewrite E in Hq. by apply elem_of_nil in Hq.
  - by eexists.
  - by eexists.
  - apply Hg.
    destruct (hull_vertices (merge_sort point_le (a :: b :: c :: l)))
      as [|v1 [|v2 [|v3 ring]]]; try done.
    by destruct (decide (point_lower v1 v2)).
Qed.

Lemma make_multipoint_returns (x : list record) :
  x ≠ [] → ∃ h, make_multipoint x = Val h.
Proof.
  intros Hx. unfold make_multipoint.
  destruct (convex_hull_centroid (group_points x)) as [[xc yc] E].
  - rewrite zip_columns. by destruct x.
  - rewrite E. by eexists.
Qed.

Lemma apply_groups_returns (keys : list string) (df : list record) :
  keys ⊆ label <$> df →
  ∃ hs, apply_groups keys df = Val (zip keys hs)
        ∧ Forall2 (λ k h, make_multipoint (filter (λ r, label r = k) df) = Val h)
            keys hs.
Proof.
  induction keys as [|k keys IH]; intros Hsub; [by exists []|].
  destruct IH as (hs & E & Hall); [intros x Hx; apply Hsub; by right|].
  destruct (make_multipoint_returns (filter (λ r, label r = k) df)) as [h Hh].
  { assert (Hk : k ∈ label <$> df) by (apply Hsub; by left).
    apply list_elem_of_fmap in Hk as (r & -> & Hr).
    intros Hnil. assert (Hin : r ∈ filter (λ r', label r' = label r) df)
      by (by apply list_elem_of_filter).
    rewrite Hnil in Hin. by apply elem_of_nil in Hin. }
  exists (h :: hs). simpl. rewrite Hh. simpl. rewrite E. split; [done|].
  by constructor.
Qed.

Lemma gdf_loc_zip (keys : list string) (hs : list hull) (cells : list string)
    (sel : list hull) :
  NoDup keys → length keys = length hs →
  Forall2 (λ k h, ∃ i, keys !! i = Some k ∧ hs !! i = Some h) cells sel →
  gdf_loc (zip keys hs) cells = Val sel.
Proof.
  intros Hnd Hlen. induction 1 as [|k h cells sel (i & Hi & Hh) _ IH]; [done|].
  simpl. rewrite IH.
  destruct (list_find (λ e, e.1 = k) (zip keys hs)) as [[j [k' h']]|] eqn:Hf.
  - apply list_find_Some in Hf as (Hj & Hk' & _). simpl in Hk'. subst k'.
    rewrite lookup_zip_with in Hj.
    destruct (keys !! j) as [kj|] eqn:Hkj; [simpl in Hj|done].
    destruct (hs !! j) as [hj|] eqn:Hhj; [simpl in Hj|done].
    injection Hj as -> ->.
    pose proof (NoDup_lookup _ _ _ _ Hnd Hkj Hi) as ->.
    rewrite Hh in Hhj. by injection Hhj as ->.
  - apply list_find_None in Hf.
    assert (Hin : (k, h) ∈ zip keys hs).
    { apply list_elem_of_lookup. exists i. by rewrite lookup_zip_with, Hi, Hh. }
    by destruct (proj1 (Forall_forall _ _) Hf _ Hin).
Qed.

(** In cell-boundary mode [read_txt] returns with one name per distinct
    label, in the order of first occurrence, and for every name, at the same
    place, a position and a boundary: the convex hull of the points of the
    lines that carry the label, and the centroid of that hull.  The dataset
    satisfies its invariant. *)
Theorem read_txt_cell_bins_aligned (w : world) (self : loc) (d : StereoExpData)
    (df : list (option record)) (size : Z) (is_sparse : bool) :
  data_objs w !! self = Some d →
  _bin_type d = Some "cell_bins" → dropna df ≠ [] →
  let lines := dropna df in
  let names := unique (label <$> lines) in
  ∃ w' d' c' g' position outlines,
    read_txt self df size is_sparse w = (Val self, w')
    ∧ snapshot w' self = Some (d', c', g')
    ∧ _cell_name c' = Some names ∧ _position d' = Some position
    ∧ cell_point c' = Some outlines
    ∧ length outlines = length names
    ∧ consistent (length names) (length (unique (geneID <$> lines))) (d', c', g')
    ∧ ∀ k nm, names !! k = Some nm →
        ∃ h, make_multipoint (filter (λ r, label r = nm) lines) = Val h
             ∧ position !! k = Some (hull_x_center h, hull_y_center h)
             ∧ outlines !! k = Some (hull_cell_point h).
Proof.
  intros Hd Hcb Hne lines names. unfold read_txt.
  rewrite run_bind, (run_get_data _ _ _ Hd). cbn beta iota.
  rewrite Hcb. rewrite run_bind.
  rewrite (bool_decide_eq_true_2 (Some "cell_bins" = Some "cell_bins")) by done.
  cbn beta iota. fold lines. unfold parse_cell_bin_coor. fold lines names.
  destruct (apply_groups_returns names lines) as (hs & Hgdf & Hhs).
  { intros x Hx. by apply elem_of_unique. }
  rewrite run_bind, run_lift, Hgdf. cbn beta iota.
  destruct (run_ingest w self d (label <$> lines) (geneID <$> lines)
              (UMICount <$> lines) is_sparse Hd)
    as (m & w0 & Hwf & Hsh & Hc0 & Hg0 & Hd0 & Hf0 & Hrun).
  fold names in Hrun, Hsh.
  rewrite run_bind, Hrun. cbn beta iota.
  pose proof (Forall2_length _ _ _ Hhs) as Hlen.
  rewrite (gdf_loc_zip names hs names hs);
    [|apply NoDup_unique | done |].
  2:{ apply Forall2_same_length_lookup. split; [done|]. intros i k h Hk Hh. eauto. }
  rewrite run_bind, run_lift. cbn beta iota.
  rewrite run_bind. erewrite run_assign by (simpl; apply lookup_insert_eq).
  cbn beta iota.
  rewrite run_bind. erewrite run_get_data by (simpl; apply lookup_insert_eq).
  cbn beta iota.
  rewrite run_bind. erewrite run_get_cell by (simpl; apply lookup_insert_eq).
  cbn beta iota. unfold put_cell. rewrite run_ret.
  eexists _, _, _, _, _, _. split; [reflexivity|]. split.
  { apply snapshot_intro; simpl; apply lookup_insert_eq. }
  split; [reflexivity|]. split; [reflexivity|]. split; [reflexivity|].
  split; [by rewrite length_fmap|]. split.
  - unfold consistent, aligned. simpl.
    split; [by eauto|]. split.
    { eexists. split; [reflexivity|]. by rewrite length_fmap. }
    repeat split; eauto; by intros l [=].
  - intros k nm Hk.
    destruct (Forall2_lookup_l _ _ _ _ _ Hhs Hk) as (h & Hh & Hm).
    exists h. split; [done|]. by rewrite !list_lookup_fmap, Hh.
Qed.

Lemma read_txt_cell_bins_aligned_witness :
  ∃ w' d' c' g' position outlines,
    read_txt 1%positive
      [Some (mkRecord 0 0 "G1" 1 "7"); Some (mkRecord 4 0 "G1" 1 "7");
       Some (mkRecord 9 9 "G2" 2 "8"); None; Some (mkRecord 0 4 "G2" 1 "7")]
      100 true written_world = (Val 1%positive, w')
    ∧ snapshot w' 1%positive = Some (d', c', g')
    ∧ _cell_name c' = Some ["7"; "8"] ∧ _position d' = Some position
    ∧ cell_point c' = Some outlines
    ∧ length outlines = 2%nat.
Proof.
  destruct (read_txt_cell_bins_aligned written_world 1%positive written_data
              [Some (mkRecord 0 0 "G1" 1 "7"); Some (mkRecord 4 0 "G1" 1 "7");
               Some (mkRecord 9 9 "G2" 2 "8"); None; Some (mkRecord 0 4 "G2" 1 "7")]
              100 true eq_refl eq_refl)
    as (w' & d' & c' & g' & position & outlines & H1 & H2 & H3 & H4 & H5 & H6 & _).
  - intros [=].
  - exists w', d', c', g', position, outlines.
    split; [exact H1|]. split; [exact H2|]. split; [exact H3|].
    split; [exact H4|]. split; [exact H5 | exact H6].
Defined.

(** ** Reading and writing, once more *)

(** A name that [read_h5ad] does not know is passed over. *)
Lemma read_member_unknown (self : loc) (k : string) (o : h5obj) :
  k ∉ known_members → read_member self k o = mret ().
Proof.
  unfold known_members. rewrite !not_elem_of_cons. intros (H1 & H2 & H3 & H4 & H5 & _).
  unfold read_member. by rewrite !bool_decide_eq_false_2 by done.
Qed.

Lemma ignores_files_bind {A B} (m : py A) (f : A → py B) :
  ignores_files m → (∀ a, ignores_files (f a)) → ignores_files (m ≫= f).
Proof.
  intros Hm Hf g w. rewrite !run_bind, Hm.
  destruct (m w) as [[a|e|] w1]; simpl; [apply Hf | done..].
Qed.

Lemma ignores_files_assign (self : loc) (f : StereoExpData → StereoExpData) :
  ignores_files (assign self f).
Proof.
  unfold assign. apply ignores_files_bind; [done|]. by intros d g w.
Qed.

Lemma ignores_files_bin_type_check (b : option string) : ignores_files (bin_type_check b).
Proof.
  unfold bin_type_check. case_match; [|done].
  apply ignores_files_bind; [done|]. by intros [] g w.
Qed.

Lemma ignores_files_read_member (self : loc) (k : string) (o : h5obj) :
  ignores_files (read_member self k o).
Proof.
  unfold read_member.
  repeat case_bool_decide;
    repeat first
      [ apply ignores_files_assign
      | apply ignores_files_bin_type_check
      | apply ignores_files_bind; [|intros ?]
      | match goal with |- ignores_files (match ?x with _ => _ end) => destruct x end
      | done ].
Qed.

Lemma ignores_files_for_each {A B} (f : A → py B) (xs : list A) :
  (∀ x, ignores_files (f x)) → ignores_files (for_each f xs).
Proof.
  intros Hf. induction xs as [|x xs IH]; [done|]. simpl.
  apply ignores_files_bind; [done|]. intros y.
  apply ignores_files_bind; [done|]. by intros ys g w.
Qed.

Lemma for_each_skip {A} (f : A → py unit) (x : A) (before after : list A) (w : world) :
  f x = mret () →
  (for_each f (before ++ x :: after) w).2 = (for_each f (before ++ after) w).2
  ∧ (λ _, ()) <$> (for_each f (before ++ x :: after) w).1
    = (λ _, ()) <$> (for_each f (before ++ after) w).1.
Proof.
  intros Hx. revert w. induction before as [|y before IH]; intros w; simpl.
  - rewrite Hx, !run_bind, run_ret. cbn beta iota. rewrite run_bind.
    by destruct (for_each f after w) as [[us|e|] w'].
  - rewrite !run_bind. destruct (f y w) as [[u|e|] w1]; [|done..].
    cbn beta iota. rewrite !run_bind. specialize (IH w1).
    destruct (for_each f (before ++ x :: after) w1) as [[us|e|] w2];
      destruct (for_each f (before ++ after) w1) as [[us'|e'|] w2'];
      simpl in *; destruct IH as [-> E]; done.
Qed.

(** [read_h5ad] on a path that holds no file logs an error and raises a
    [FileExistsError] (sic); nothing else of the store changes.  [read]
    arrives there for the format ['h5ad']. *)
Theorem read_h5ad_missing_file (w : world) (self : loc) (d : StereoExpData)
    (path : string) (df : list (option record)) (size : Z) (is_sparse : bool) :
  data_objs w !! self = Some d → file d = Some path → files w !! path = None →
  read_h5ad self w
  = (Raise (FileExistsError "the input file is not exists, please check!"),
     (logger_error "the input file is not exists, please check!" w).2)
  ∧ (file_format d = Some "h5ad" →
     read self df size is_sparse w
     = (Raise (FileExistsError "the input file is not exists, please check!"),
        (logger_error "the input file is not exists, please check!" w).2)).
Proof.
  intros Hd Hfile Hnone.
  assert (E : read_h5ad self w
              = (Raise (FileExistsError "the input file is not exists, please check!"),
                 (logger_error "the input file is not exists, please check!" w).2)).
  { unfold read_h5ad. rewrite run_bind, (run_get_data _ _ _ Hd). cbn beta iota.
    rewrite run_bind, Hfile, Hnone. reflexivity. }
  split; [exact E|]. intros Hfmt. unfold read.
  rewrite run_bind, (run_get_data _ _ _ Hd). cbn beta iota. rewrite Hfmt.
  rewrite (bool_decide_eq_false_2 (Some "h5ad" = Some "txt")) by done.
  rewrite (bool_decide_eq_true_2 (Some "h5ad" = Some "h5ad")) by done.
  by rewrite run_fmap, E.
Qed.

Lemma read_h5ad_missing_file_witness :
  (read_h5ad 1%positive reader_world).1
  = Raise (FileExistsError "the input file is not exists, please check!").
Proof.
  pose proof (read_h5ad_missing_file reader_world 1%positive reader_data "in.h5ad"
                [] 100 true eq_refl eq_refl eq_refl) as [E _].
  by rewrite E.
Defined.

(** [read_h5ad] passes over the members of a container whose name it does
    not know: a container with such a member, wherever it stands, is read to
    the same outcome and the same objects as the container without it. *)
Theorem read_h5ad_ignores_unknown_members (w : world) (self : loc)
    (d : StereoExpData) (path : string) (before after : list (string * h5obj))
    (k : string) (o : h5obj) :
  data_objs w !! self = Some d → file d = Some path → k ∉ known_members →
  let r1 := read_h5ad self (with_files <[path := before ++ (k, o) :: after]> w) in
  let r2 := read_h5ad self (with_files <[path := before ++ after]> w) in
  r1.1 = r2.1
  ∧ data_objs r1.2 = data_objs r2.2 ∧ cell_objs r1.2 = cell_objs r2.2
  ∧ gene_objs r1.2 = gene_objs r2.2 ∧ log r1.2 = log r2.2.
Proof.
  intros Hd Hfile Hk r1 r2.
  assert (Hrun : ∀ members,
            read_h5ad self (with_files <[path := members]> w)
            = (let r := for_each (λ e, read_member self e.1 e.2) members w in
               ((λ _, self) <$> r.1, with_files <[path := members]> r.2))).
  { intros members. unfold read_h5ad.
    rewrite run_bind. erewrite run_get_data by exact Hd. cbn beta iota.
    rewrite run_bind, Hfile. simpl. rewrite lookup_insert_eq. cbn beta iota.
    rewrite run_bind.
    rewrite (ignores_files_for_each (λ e, read_member self e.1 e.2) members).
    - by destruct (for_each _ members w) as [[us|e|] w'].
    - intros e. apply ignores_files_read_member. }
  subst r1 r2. rewrite !Hrun. cbn zeta.
  destruct (for_each_skip (λ e, read_member self e.1 e.2) (k, o) before after w)
    as [Hw Ho]; [by apply read_member_unknown|].
  simpl. rewrite Hw. split; [|done].
  destruct (for_each _ (before ++ (k, o) :: after) w) as [[us|e|] w1];
    destruct (for_each _ (before ++ after) w) as [[us'|e'|] w2]; simpl in *;
    congruence.
Qed.

Lemma read_h5ad_ignores_unknown_members_witness :
  (read_h5ad 1%positive
     (with_files <["in.h5ad" := [("bin_type", Dataset (Str "bins"));
                                 ("uns", Dataset (Ints [1; 2]))]]> reader_world)).1
  = (read_h5ad 1%positive
       (with_files <["in.h5ad" := [("bin_type", Dataset (Str "bins"))]]>
          reader_world)).1.
Proof.
  apply (read_h5ad_ignores_unknown_members reader_world 1%positive reader_data
           "in.h5ad" [("bin_type", Dataset (Str "bins"))] []
           "uns" (Dataset (Ints [1; 2])) eq_refl eq_refl).
  unfold known_members. rewrite !not_elem_of_cons. repeat split; try done.
  apply not_elem_of_nil.
Defined.

(** The constructor stores a bin type without checking it, and [write]
    persists it as it is; [read_h5ad] assigns it through the checking
    setter.  A dataset whose bin type is not a permitted one is therefore
    written without complaint and cannot be read back: the member
    [bin_type] is the first one in name order, the reader raises on it after
    logging the value, and no attribute of the reader has been assigned. *)
Theorem h5ad_unchecked_bin_type_not_read_back (w : world) (self : loc)
    (d : StereoExpData) (c : Cell) (g : Gene) (path b : string) :
  snapshot w self = Some (d, c, g) →
  output d = Some path →
  _bin_type d = Some b → ¬ permitted (Some b) →
  ∃ reader w2 msg,
    (write self;;
     StereoExpData_init (Some path) (Some "h5ad") None 100 None
       (inr None) (inr None) None None 1) w = (Val reader, w2)
    ∧ read_h5ad reader w2 = (Raise Exception, (logger_error msg w2).2)
    ∧ mentions b msg = true
    ∧ snapshot w2 reader
      = Some (mkData (Some path) (Some "h5ad") 1 None None
                (fresh (dom (gene_objs w))) (fresh (dom (cell_objs w))) None None 100,
              mkCell None None None None None, mkGene None []).
Proof.
  intros Hsnap Hout Hb Hnp.
  set (k := mkContent (_exp_matrix d) (_position d) (_bin_type d) c g).
  rewrite run_bind, (run_write _ _ _ _ _ _ Hsnap Hout). cbn beta iota. fold k.
  set (w1 := with_files _ w).
  rewrite run_init_reader. cbn zeta.
  set (lr := fresh (dom (data_objs w1))).
  set (dr := mkData _ _ _ _ _ _ _ _ _ _).
  set (w2 := with_data _ _).
  assert (Hdr : data_objs w2 !! lr = Some dr) by (subst w2; simpl; apply lookup_insert_eq).
  assert (Hfile : files w2 !! path = Some (container_of k))
    by (subst w2 w1; simpl; apply lookup_insert_eq).
  exists lr, w2, ("the bin type `" +:+ py_str (Some b)
                  +:+ "` is not in the range, please check!").
  split; [reflexivity|]. split; [|split].
  - unfold read_h5ad. rewrite run_bind, (run_get_data _ _ _ Hdr). cbn beta iota.
    rewrite run_bind. subst dr. cbn [file]. rewrite Hfile. cbn beta iota.
    subst k. unfold container_of. cbn [the_bin_type]. rewrite Hb.
    cbn [from_option app for_each fst snd].
    rewrite !run_bind, read_member_bin_type.
    unfold set_bin_type_checked.
    rewrite run_bind, (bin_type_check_rejected _ _ Hnp). reflexivity.
  - exact (mentions_app _ b _).
  - apply snapshot_intro; simpl; apply lookup_insert_eq.
Qed.

Lemma h5ad_unchecked_bin_type_not_read_back_witness :
  ∃ reader w2 msg,
    (write 1%positive;;
     StereoExpData_init (Some "out.h5ad") (Some "h5ad") None 100 None
       (inr None) (inr None) None None 1) unchecked_world = (Val reader, w2)
    ∧ read_h5ad reader w2 = (Raise Exception, (logger_error msg w2).2)
    ∧ mentions "bin" msg = true.
Proof.
  destruct (h5ad_unchecked_bin_type_not_read_back unchecked_world 1%positive
              unchecked_data small_cells small_genes "out.h5ad" "bin"
              eq_refl eq_refl eq_refl)
    as (reader & w2 & msg & H1 & H2 & H3 & _).
  - unfold permitted. rewrite !elem_of_cons, elem_of_nil. naive_solver.
  - by exists reader, w2, msg.
Defined.

(** [write] replaces the file: it opens it in mode ['w'], so that what the
    file held before is gone, and a member that the dataset does not hold is
    not in the container.  No object of the store changes, no other file
    changes, and writing again leaves the store as it is. *)
Theorem write_replaces_the_file (w : world) (self : loc) (d : StereoExpData)
    (c : Cell) (g : Gene) (path : string) (old : list (string * h5obj)) :
  snapshot w self = Some (d, c, g) → output d = Some path →
  ∃ w', write self w = (Val (), w')
        ∧ write self (with_files <[path := old]> w) = (Val (), w')
        ∧ write self w' = (Val (), w')
        ∧ cell_objs w' = cell_objs w ∧ gene_objs w' = gene_objs w
        ∧ data_objs w' = data_objs w ∧ log w' = log w
        ∧ (∀ p, p ≠ path → files w' !! p = files w !! p)
        ∧ files w' !! path
          = Some (container_of
                    (mkContent (_exp_matrix d) (_position d) (_bin_type d) c g)).
Proof.
  intros Hsnap Hout.
  assert (Hany : ∀ f, write self (with_files f w)
                      = (Val (),
                         with_files
                           <[path := container_of
                                       (mkContent (_exp_matrix d) (_position d)
                                          (_bin_type d) c g)]> (with_files f w))).
  { intros f. by apply run_write. }
  eexists. split; [by apply run_write|].
  split; [|split].
  - rewrite Hany. f_equal. unfold with_files. simpl. by rewrite insert_insert_eq.
  - rewrite Hany. f_equal. unfold with_files. simpl. by rewrite insert_insert_eq.
  - repeat split; simpl.
    + intros p Hp. by rewrite lookup_insert_ne.
    + apply lookup_insert_eq.
Qed.

Lemma write_replaces_the_file_witness :
  ∃ w', write 1%positive written_world = (Val (), w')
        ∧ write 1%positive
            (with_files <["out.h5ad" := [("uns", Dataset (Ints [1]))]]> written_world)
          = (Val (), w')
        ∧ write 1%positive w' = (Val (), w').
Proof.
  destruct (write_replaces_the_file written_world 1%positive written_data small_cells
              small_genes "out.h5ad" [("uns", Dataset (Ints [1]))] eq_refl eq_refl)
    as (w' & H1 & H2 & H3 & _).
  by exists w'.
Defined.

(** ** [init] *)

(** [init] checks before it reads.  With a bin type that is not permitted
    it raises as soon as the check of the base class has returned: the error
    that cites the value is logged, and neither the file nor any object is
    touched. *)
Theorem init_validates_before_reading (super_check : loc → py unit) (w w1 : world)
    (self : loc) (d : StereoExpData) (df : list (option record)) :
  super_check self w = (Val (), w1) →
  data_objs w1 !! self = Some d →
  ¬ permitted (_bin_type d) →
  ∃ msg, init super_check self df w = (Raise Exception, (logger_error msg w1).2)
         ∧ mentions (py_str (_bin_type d)) msg = true.
Proof.
  intros Hs Hd Hnp.
  exists ("the bin type `" +:+ py_str (_bin_type d) +:+ "` is not in the range, please check!").
  split; [|exact (mentions_app _ _ _)].
  unfold init, check.
  rewrite !run_bind, Hs. cbn beta iota.
  rewrite run_bind, (run_get_data _ _ _ Hd). cbn beta iota.
  by rewrite (bin_type_check_rejected _ _ Hnp).
Qed.

Lemma init_validates_before_reading_witness :
  ∃ msg, init (λ _, mret ()) 1%positive [] unchecked_world
         = (Raise Exception, (logger_error msg unchecked_world).2)
         ∧ mentions "bin" msg = true.
Proof.
  apply (init_validates_before_reading (λ _, mret ()) unchecked_world unchecked_world
           1%positive unchecked_data [] eq_refl eq_refl).
  unfold permitted. simpl. rewrite !elem_of_cons, elem_of_nil. naive_solver.
Defined.

(** [read] knows the formats ['txt'] and ['h5ad'].  For any other format,
    or none, it returns [None] and reads nothing; [init] then goes on to log
    that it has finished, as if the data had been read: no object and no
    file of the store has changed. *)
Theorem read_unknown_format (w : world) (self : loc) (d : StereoExpData)
    (df : list (option record)) (size : Z) (is_sparse : bool) :
  data_objs w !! self = Some d →
  file_format d ≠ Some "txt" → file_format d ≠ Some "h5ad" →
  read self df size is_sparse w = (Val None, w)
  ∧ ∀ super_check, super_check self w = (Val (), w) → permitted (_bin_type d) →
      ∃ w', init super_check self df w = (Val (), w')
            ∧ cell_objs w' = cell_objs w ∧ gene_objs w' = gene_objs w
            ∧ data_objs w' = data_objs w ∧ files w' = files w
            ∧ last (log w') = Some ("INFO", "init finish.").
Proof.
  intros Hd Htxt Hh5.
  assert (Hread : ∀ w0 s b, data_objs w0 !! self = Some d →
            read self df s b w0 = (Val None, w0)).
  { intros w0 s b Hd0. unfold read.
    rewrite run_bind, (run_get_data _ _ _ Hd0). cbn beta iota.
    by rewrite !bool_decide_eq_false_2 by done. }
  split; [by apply Hread|].
  intros super_check Hs Hp. unfold init, check.
  rewrite !run_bind, Hs. cbn beta iota.
  rewrite run_bind, (run_get_data _ _ _ Hd). cbn beta iota.
  rewrite (bin_type_check_permitted _ _ Hp). cbn beta iota.
  rewrite !run_bind, (run_get_data _ _ _ Hd). cbn beta iota.
  case_bool_decide.
  - rewrite !run_bind. unfold logger_info at 1. cbn beta iota.
    rewrite run_bind. erewrite run_get_data by exact Hd. cbn beta iota.
    rewrite run_bind, Hread by exact Hd. cbn beta iota. rewrite run_ret.
    cbn beta iota. eexists. split; [reflexivity|]. simpl.
    repeat split. by rewrite last_snoc.
  - eexists. split; [reflexivity|]. simpl.
    repeat split. by rewrite last_snoc.
Qed.

Lemma read_unknown_format_witness :
  read 1%positive [] 100 true small_world = (Val None, small_world).
Proof.
  apply (read_unknown_format small_world 1%positive small_data [] 100 true eq_refl);
    done.
Defined.

(** ** Frames of the matrix *)

Lemma line_value_tagged (line : list (nat * Z)) (i j t : nat) :
  line_value ((λ e, (j, e.2)) <$> filter (λ e, e.1 = i) line) t
  = if decide (t = j) then line_value line i else 0.
Proof.
  induction line as [|e line IH]; [by case_decide|].
  rewrite filter_cons, (line_value_cons e line i).
  destruct (decide (e.1 = i)) as [He|He].
  - rewrite fmap_cons, line_value_cons, IH. simpl.
    repeat case_decide; subst; try done; lia.
  - rewrite IH. case_decide; lia.
Qed.

Lemma transposed_value (lines : list (list (nat * Z))) (i s t : nat) :
  line_value ('(j, line) ← imap (λ n, pair (s + n)%nat) lines;
              (λ e, (j, e.2)) <$> filter (λ e, e.1 = i) line) t
  = if decide (s ≤ t)%nat
    then from_option (λ line, line_value line i) 0 (lines !! (t - s)%nat)
    else 0.
Proof.
  revert s. induction lines as [|line lines IH]; intros s.
  - simpl. by case_decide.
  - rewrite imap_cons, bind_cons, line_value_app, line_value_tagged.
    rewrite (imap_ext _ (λ n, pair (S s + n)%nat))
      by (intros n x _; unfold compose; simpl; f_equal; lia).
    rewrite IH. rewrite Nat.add_0_r.
    destruct (decide (t = s)) as [->|Hts].
    + rewrite Nat.sub_diag, decide_False, decide_True by lia. simpl. lia.
    + destruct (decide (S s ≤ t)%nat) as [Hle|Hle].
      * rewrite decide_True by lia.
        destruct (t - s)%nat as [|n] eqn:E; [lia|]. simpl.
        replace (t - S s)%nat with n by lia. lia.
      * by rewrite decide_False by lia.
Qed.

(** The dense array of a matrix holds its entries. *)
Lemma dense_entry (m : matrix) :
  matrix_wf m →
  ∃ rows, dense m = Ndarray (shape m).1 (shape m).2 rows
          ∧ matrix_wf (dense m)
          ∧ ∀ i j, rows !! i ≫= (.!! j) = entry m i j.
Proof.
  intros Hwf. destruct m as [r c rows|r c rows|r c cols]; simpl.
  - by exists rows.
  - eexists. split; [reflexivity|]. split; [apply (toarray_wf (Csr r c rows) Hwf)|].
    intros i j. rewrite list_lookup_fmap.
    destruct (rows !! i) as [line|]; simpl; [|by case_bool_decide].
    rewrite list_lookup_fmap. case_bool_decide as Hj.
    + by rewrite lookup_seq_lt.
    + by rewrite lookup_seq_ge by lia.
  - eexists. split; [reflexivity|]. split; [apply (toarray_wf (Csc r c cols) Hwf)|].
    destruct Hwf as [Hlen _].
    intros i j. unfold transpose_lines. rewrite !list_lookup_fmap.
    case_bool_decide as Hi.
    + rewrite lookup_seq_lt by done. simpl. rewrite list_lookup_fmap.
      destruct (decide (j < c)%nat) as [Hj|Hj].
      * rewrite lookup_seq_lt by done. simpl.
        pose proof (transposed_value cols i 0 j) as Ht.
        rewrite decide_True, Nat.sub_0_r in Ht by lia.
        rewrite (imap_ext _ pair) in Ht by done. rewrite Ht.
        destruct (lookup_lt_is_Some_2 cols j) as [line ->]; [lia|]. done.
      * rewrite lookup_seq_ge by lia. simpl.
        by rewrite lookup_ge_None_2 by lia.
    + by rewrite lookup_seq_ge by lia.
Qed.

Lemma densified (m : matrix) :
  (if issparse (Some m) then toarray <$> Some m else Some m) = Some (dense m).
Proof. by destruct m. Qed.

(** What [exp_matrix2df] hands to the constructor of the frame. *)
Lemma run_exp_matrix2df (w : world) (self : loc) d c g (n_cells n_genes : nat)
    (cell_name gene_name : option (list string)) (m : matrix) :
  snapshot w self = Some (d, c, g) →
  consistent n_cells n_genes (d, c, g) → _exp_matrix d = Some m →
  present cell_name (_cell_name c) → present gene_name (_gene_name g) →
  let ci : option (list Z) :=
    (λ names, Z.of_nat <$> first_positions (_cell_name c) names) <$> cell_name in
  let gi : option (list Z) :=
    (λ names, Z.of_nat <$> first_positions (_gene_name g) names) <$> gene_name in
  ∃ m1 m2,
    from_option (select_rows m) (Val m) ci = Val m1
    ∧ from_option (select_cols m1) (Val m1) gi = Val m2
    ∧ exp_matrix2df self cell_name gene_name w
      = (pd_DataFrame (Some (dense m2)) (from_option Some (_cell_name c) cell_name)
           (from_option Some (_gene_name g) gene_name), w).
Proof.
  intros Hsnap Hcons Hm Hpc Hpg ci gi.
  destruct (snapshot_elim _ _ _ _ _ Hsnap) as (Hd & Hc & Hg).
  destruct (consistent_elim _ _ _ _ _ Hcons)
    as (m0 & p & Hm0 & Hwf & Hshape & Hp & Hlen & H1 & H2 & H3 & H4 & H5 & H6).
  rewrite Hm in Hm0. injection Hm0 as <-.
  destruct (run_requested_names (cell_names self) (_cell_name c) w cell_name n_cells)
    as (Hrc & Hci & _); [by eapply run_cell_names | done..|].
  destruct (run_requested_names (gene_names self) (_gene_name g) w gene_name n_genes)
    as (Hrg & Hgi & _); [by eapply run_gene_names | done..|].
  fold ci in Hrc, Hci. fold gi in Hrg, Hgi.
  assert (Hs1 : ∃ m1, from_option (select_rows m) (Val m) ci = Val m1).
  { destruct ci as [index|]; [|by eexists]. simpl.
    destruct (select_rows_spec m index Hwf) as (m1 & E & _); [|by eexists].
    rewrite Hshape. by apply Hci. }
  destruct Hs1 as [m1 E1].
  destruct (selected_rows m m1 _ _ ci Hwf Hshape Hci E1) as [Hwf1 Hsh1].
  assert (Hs2 : ∃ m2, from_option (select_cols m1) (Val m1) gi = Val m2).
  { destruct gi as [index|]; [|by eexists]. simpl.
    destruct (select_cols_spec m1 index Hwf1) as (m2 & E & _); [|by eexists].
    rewrite Hsh1. by apply Hgi. }
  destruct Hs2 as [m2 E2].
  exists m1, m2. split; [done|]. split; [done|].
  unfold exp_matrix2df.
  rewrite run_bind, Hrc. cbn beta iota.
  rewrite run_bind, Hrg. cbn beta iota.
  rewrite run_bind, (run_get_data _ _ _ Hd). cbn beta iota. rewrite Hm.
  assert (Hx1 : (match ci with
                 | Some index =>
                     lift (from_option (λ m, Some <$> select_rows m index)
                             (Raise not_subscriptable) (Some m))
                 | None => mret (Some m)
                 end) w = (Val (Some m1), w)).
  { destruct ci as [index|]; simpl in *; [|by injection E1 as <-].
    by rewrite run_lift, E1. }
  rewrite run_bind, Hx1. cbn beta iota.
  assert (Hx2 : (match gi with
                 | Some index =>
                     lift (from_option (λ m, Some <$> select_cols m index)
                             (Raise not_subscriptable) (Some m1))
                 | None => mret (Some m1)
                 end) w = (Val (Some m2), w)).
  { destruct gi as [index|]; simpl in *; [|by injection E2 as <-].
    by rewrite run_lift, E2. }
  rewrite run_bind, Hx2. cbn beta iota.
  assert (Hx3 : (match m2 with
                 | Ndarray r c0 rows => mret (Ndarray r c0 rows)
                 | m => mret (toarray m)
                 end : py matrix) w = (Val (dense m2), w)) by (by destruct m2).
  rewrite run_bind, Hx3. cbn beta iota.
  assert (Hx4 : (match cell_name with
                 | Some names => mret (Some names)
                 | None => cell_names self
                 end) w = (Val (from_option Some (_cell_name c) cell_name), w)).
  { destruct cell_name; [done|]. by eapply run_cell_names. }
  rewrite run_bind, Hx4. cbn beta iota.
  assert (Hx5 : (match gene_name with
                 | Some names => mret (Some names)
                 | None => gene_names self
                 end) w = (Val (from_option Some (_gene_name g) gene_name), w)).
  { destruct gene_name; [done|]. by eapply run_gene_names. }
  rewrite run_bind, Hx5. cbn beta iota. apply run_lift.
Qed.

Lemma requested_length (a : option (list string)) (l : list string)
    (request : option (list string)) (n : nat) :
  a = Some l → length l = n → present request a →
  from_option length n
    ((λ names, Z.of_nat <$> first_positions a names) <$> request)
  = length (default l request).
Proof.
  intros -> Hl Hp. destruct request as [names|]; [|done]. simpl.
  destruct (Hp names eq_refl) as (l' & [= <-] & Hall).
  rewrite length_fmap. unfold first_positions. clear Hp.
  induction Hall as [|i names Hi _ IH]; [done|].
  destruct (first_match_present l i Hi) as (k & E & _).
  apply first_match_head in E.
  change (omap ?f (i :: names))
    with (match f i with Some y => y :: omap f names | None => omap f names end).
  cbn beta. rewrite E. rewrite !length_cons. by rewrite IH.
Qed.

(** The run of [sub_by_name] on present names, seen from the copy: the
    dataset returned and its two tables are the objects that [deepcopy] has
    allocated, and they hold the selection. *)
Lemma run_sub_by_name_copy (w : world) (self : loc) d c g (n_cells n_genes : nat)
    (cell_name gene_name : option (list string)) :
  snapshot w self = Some (d, c, g) →
  consistent n_cells n_genes (d, c, g) →
  present cell_name (_cell_name c) → present gene_name (_gene_name g) →
  ∃ w' d' c' g',
    sub_by_name self cell_name gene_name w = (Val (fresh (dom (data_objs w))), w')
    ∧ snapshot w' (fresh (dom (data_objs w))) = Some (d', c', g')
    ∧ _cells d' = fresh (dom (cell_objs w))
    ∧ _genes d' = fresh (dom (gene_objs w))
    ∧ _bin_type d' = _bin_type d
    ∧ _cell_name c' = from_option Some (_cell_name c) cell_name
    ∧ _gene_name g' = from_option Some (_gene_name g) gene_name
    ∧ consistent (from_option length n_cells cell_name)
        (from_option length n_genes gene_name) (d', c', g').
Proof.
  intros Hsnap Hcons Hpc Hpg.
  set (ci := (λ names, Z.of_nat <$> first_positions (_cell_name c) names) <$> cell_name).
  set (gi := (λ names, Z.of_nat <$> first_positions (_gene_name g) names) <$> gene_name).
  destruct (consistent_elim _ _ _ _ _ Hcons)
    as (m & p & Hm & Hwf & Hshape & Hp & Hlen & H1 & H2 & H3 & H4 & H5 & H6).
  pose proof Hcons as (_ & _ & (a & Ea & Ha) & _ & _ & _ & (b & Eb & Hb) & _).
  simpl in Ea, Eb.
  unfold sub_by_name.
  rewrite run_bind, (run_deepcopy _ _ _ _ _ Hsnap). cbn beta iota.
  set (ld := fresh (dom (data_objs w))).
  set (lc := fresh (dom (cell_objs w))).
  set (lg := fresh (dom (gene_objs w))).
  set (d1 := set_cells (set_genes d lg) lc).
  set (w1 := with_data _ _).
  assert (Hd1 : data_objs w1 !! ld = Some d1) by (subst w1; simpl; apply lookup_insert_eq).
  assert (Hc1 : cell_objs w1 !! lc = Some c) by (subst w1; simpl; apply lookup_insert_eq).
  assert (Hg1 : gene_objs w1 !! lg = Some g) by (subst w1; simpl; apply lookup_insert_eq).
  assert (Hsnap1 : snapshot w1 ld = Some (d1, c, g)) by (by apply snapshot_intro).
  assert (Hcons1 : consistent n_cells n_genes (d1, c, g)).
  { destruct Hcons as (A1 & A2 & A3 & A4 & A5 & A6 & A7 & A8). by repeat split. }
  rewrite run_bind.
  destruct (run_requested_names (cell_names ld) (_cell_name c) w1 cell_name n_cells)
    as (-> & Hci & Hcn & Hco); [by eapply run_cell_names | done..|].
  fold ci in Hci, Hcn, Hco |- *.
  cbn beta iota. rewrite run_bind.
  destruct (run_requested_names (gene_names ld) (_gene_name g) w1 gene_name n_genes)
    as (-> & Hgi & Hgn & Hgo); [by eapply run_gene_names | done..|].
  fold gi in Hgi, Hgn, Hgo |- *.
  cbn beta iota.
  destruct (run_sub_by_index w1 ld d1 c g n_cells n_genes ci gi m p)
    as (m1 & m2 & E1 & E2 & Hrun); try done.
  destruct (selected_rows m m1 _ _ ci Hwf Hshape Hci E1) as [Hwf1 Hsh1].
  destruct (selected_cols m1 m2 _ _ gi Hwf1 Hsh1 Hgi E2) as [Hwf2 Hsh2].
  assert (Hr : from_option length n_cells ci = from_option length n_cells cell_name).
  { subst ci. rewrite (requested_length _ a _ n_cells Ea Ha Hpc).
    destruct cell_name; [done|]. by simpl. }
  assert (Hg' : from_option length n_genes gi = from_option length n_genes gene_name).
  { subst gi. rewrite (requested_length _ b _ n_genes Eb Hb Hpg).
    destruct gene_name; [done|]. by simpl. }
  eexists _, _, _, _. split; [exact Hrun|]. split.
  { apply snapshot_intro; simpl; apply lookup_insert_eq. }
  do 3 (split; [done|]). split; [|split].
  - subst ci. destruct cell_name as [names|]; [|done]. simpl in *.
    injection Hcn as Hcn. by destruct (_cell_name c).
  - subst gi. destruct gene_name as [names|]; [|done]. simpl in *.
    injection Hgn as Hgn. by destruct (_gene_name g).
  - rewrite <- Hr, <- Hg'.
    by apply (sliced_consistent n_cells n_genes d1 c g ci gi m2 p).
Qed.

(** C7.  [sub_by_name] leaves the store it is called in as it was, whatever
    the names and whatever the outcome: every dataset, cell and gene object
    and every file that existed keeps its content, and so does the receiver
    with its matrix, tables, positions and bin type.  When the dataset
    satisfies its invariant and the requested names are present, the call
    works on a deep copy and returns it: the dataset returned, its cell
    table and its gene table are three objects that did not exist before the
    call, none of them an object of the receiver, and it is this copy that
    holds the selection, with the requested names on each axis, the sizes of
    the request and the bin type of the receiver. *)
Theorem sub_by_name_non_destructive (w : world) (self : loc) (d : StereoExpData)
    (c : Cell) (g : Gene) (cell_name gene_name : option (list string)) :
  snapshot w self = Some (d, c, g) →
  let r := sub_by_name self cell_name gene_name w in
  (∀ l, is_Some (data_objs w !! l) → data_objs r.2 !! l = data_objs w !! l)
  ∧ (∀ l, is_Some (cell_objs w !! l) → cell_objs r.2 !! l = cell_objs w !! l)
  ∧ (∀ l, is_Some (gene_objs w !! l) → gene_objs r.2 !! l = gene_objs w !! l)
  ∧ files r.2 = files w
  ∧ snapshot r.2 self = Some (d, c, g)
  ∧ ∀ n_cells n_genes,
      consistent n_cells n_genes (d, c, g) →
      present cell_name (_cell_name c) → present gene_name (_gene_name g) →
      ∃ copy d' c' g',
        r.1 = Val copy
        ∧ snapshot r.2 copy = Some (d', c', g')
        ∧ copy ≠ self ∧ _cells d' ≠ _cells d ∧ _genes d' ≠ _genes d
        ∧ data_objs w !! copy = None
        ∧ cell_objs w !! _cells d' = None
        ∧ gene_objs w !! _genes d' = None
        ∧ _bin_type d' = _bin_type d
        ∧ _cell_name c' = from_option Some (_cell_name c) cell_name
        ∧ _gene_name g' = from_option Some (_gene_name g) gene_name
        ∧ consistent (from_option length n_cells cell_name)
            (from_option length n_genes gene_name) (d', c', g').
Proof.
  intros Hsnap r. subst r.
  destruct (snapshot_elim _ _ _ _ _ Hsnap) as (Hd & Hc & Hg).
  assert (Hframe :
    let r := sub_by_name self cell_name gene_name w in
    (∀ l, is_Some (data_objs w !! l) → data_objs r.2 !! l = data_objs w !! l)
    ∧ (∀ l, is_Some (cell_objs w !! l) → cell_objs r.2 !! l = cell_objs w !! l)
    ∧ (∀ l, is_Some (gene_objs w !! l) → gene_objs r.2 !! l = gene_objs w !! l)
    ∧ files r.2 = files w).
  { cbv zeta. unfold sub_by_name.
    rewrite run_bind, (run_deepcopy _ _ _ _ _ Hsnap). cbn beta iota.
    set (ld := fresh (dom (data_objs w))).
    set (lc := fresh (dom (cell_objs w))).
    set (lg := fresh (dom (gene_objs w))).
    set (d1 := set_cells (set_genes d lg) lc).
    set (w1 := with_data _ _).
    set (rest := mbind _ _).
    assert (Hd1 : data_objs w1 !! ld = Some d1)
      by (subst w1; simpl; apply lookup_insert_eq).
    assert (Hc1 : cell_objs w1 !! lc = Some c)
      by (subst w1; simpl; apply lookup_insert_eq).
    assert (Hg1 : gene_objs w1 !! lg = Some g)
      by (subst w1; simpl; apply lookup_insert_eq).
    assert (Hkept : kept ld lc lg w1 (rest w1).2).
    { assert (Hk : keeps ld lc lg rest).
      { subst rest. apply keeps_seq.
        - destruct cell_name; [|apply keeps_ret].
          apply keeps_fmap, keeps_for_each. intros i.
          unfold cell_names, Cell_cell_name.
          repeat first [ apply keeps_ret | apply keeps_get_data | apply keeps_get_cell
                       | apply keeps_lift | apply keeps_seq; [|intros ?] ].
        - intros ci. apply keeps_seq.
          + destruct gene_name; [|apply keeps_ret].
            apply keeps_fmap, keeps_for_each. intros i.
            unfold gene_names.
            repeat first [ apply keeps_ret | apply keeps_get_data | apply keeps_get_gene
                         | apply keeps_lift | apply keeps_seq; [|intros ?] ].
          + intros gi. apply keeps_sub_by_index. }
      apply Hk. repeat split; try done; eauto. }
    destruct Hkept as (Kd & Kc & Kg & Kf & _).
    split; [|split; [|split]].
    - intros l Hl. pose proof (fresh_other _ _ Hl) as Hne.
      rewrite Kd by done. subst w1. simpl. by rewrite lookup_insert_ne.
    - intros l Hl. pose proof (fresh_other _ _ Hl) as Hne.
      rewrite Kc by done. subst w1. simpl. by rewrite lookup_insert_ne.
    - intros l Hl. pose proof (fresh_other _ _ Hl) as Hne.
      rewrite Kg by done. subst w1. simpl. by rewrite lookup_insert_ne.
    - done. }
  destruct Hframe as (Fd & Fc & Fg & Ff).
  split; [exact Fd|]. split; [exact Fc|]. split; [exact Fg|]. split; [exact Ff|].
  split.
  { apply snapshot_intro; [rewrite Fd | rewrite Fc | rewrite Fg]; eauto. }
  intros n_cells n_genes Hcons Hpc Hpg.
  destruct (run_sub_by_name_copy w self d c g n_cells n_genes cell_name gene_name)
    as (w' & d' & c' & g' & -> & Hsnap' & Hdc & Hdg & Hbt & Hcn & Hgn & Hcons');
    try done.
  exists (fresh (dom (data_objs w))), d', c', g'.
  split; [done|]. split; [exact Hsnap'|]. rewrite Hdc, Hdg.
  split; [symmetry; apply fresh_other; eauto|].
  split; [intros E; by rewrite <- E, fresh_lookup in Hc|].
  split; [intros E; by rewrite <- E, fresh_lookup in Hg|].
  split; [apply fresh_lookup|]. split; [apply fresh_lookup|].
  split; [apply fresh_lookup|]. done.
Qed.

Lemma sub_by_name_non_destructive_witness :
  snapshot (sub_by_name 1%positive (Some ["c2"; "c0"; "c2"]) (Some ["g1"])
              small_world).2 1%positive
  = Some (small_data, small_cells, small_genes)
  ∧ ∃ copy d' c' g',
      (sub_by_name 1%positive (Some ["c2"; "c0"; "c2"]) (Some ["g1"]) small_world).1
      = Val copy
      ∧ snapshot (sub_by_name 1%positive (Some ["c2"; "c0"; "c2"]) (Some ["g1"])
                    small_world).2 copy = Some (d', c', g')
      ∧ copy ≠ 1%positive ∧ _cells d' ≠ 1%positive ∧ _genes d' ≠ 1%positive
      ∧ _cell_name c' = Some ["c2"; "c0"; "c2"] ∧ _gene_name g' = Some ["g1"]
      ∧ consistent 3 1 (d', c', g').
Proof.
  destruct (sub_by_name_non_destructive small_world 1%positive small_data
              small_cells small_genes (Some ["c2"; "c0"; "c2"]) (Some ["g1"])
              eq_refl) as (_ & _ & _ & _ & Hself & Hcopy).
  split; [exact Hself|].
  destruct (Hcopy 3%nat 2%nat small_world_consistent)
    as (copy & d' & c' & g' & E & Hs & Hne & Hnc & Hng & _ & _ & _ & _ & Hcn & Hgn & Hk).
  - intros names [= <-]. eexists. split; [reflexivity|].
    repeat constructor; rewrite !elem_of_cons; naive_solver.
  - intros names [= <-]. eexists. split; [reflexivity|].
    repeat constructor; rewrite !elem_of_cons; naive_solver.
  - exists copy, d', c', g'.
    split; [exact E|]. split; [exact Hs|]. split; [exact Hne|].
    split; [exact Hnc|]. split; [exact Hng|]. split; [exact Hcn|].
    split; [exact Hgn | exact Hk].
Defined.

Lemma framed (m : matrix) (idx cols : list string) :
  matrix_wf m → shape m = (length idx, length cols) →
  ∃ rows, pd_DataFrame (Some (dense m)) (Some idx) (Some cols)
          = Val (mkFrame (Values rows) (Index idx) (Index cols))
          ∧ length rows = length idx
          ∧ ∀ i j, rows !! i ≫= (.!! j) = entry m i j.
Proof.
  intros Hwf Hsh. destruct (dense_entry m Hwf) as (rows & Hdense & Hwfd & Hent).
  exists rows. rewrite Hdense, Hsh in *. simpl in *. split; [|split; [|done]].
  - by rewrite bool_decide_eq_true_2 by done.
  - by destruct Hwfd as [-> _].
Qed.

Lemma run_to_df (w : world) (self : loc) d c g :
  snapshot w self = Some (d, c, g) →
  to_df self w
  = (pd_DataFrame (if issparse (_exp_matrix d) then toarray <$> _exp_matrix d
                   else _exp_matrix d) (_cell_name c) (_gene_name g), w).
Proof.
  intros Hsnap. destruct (snapshot_elim _ _ _ _ _ Hsnap) as (Hd & Hc & Hg).
  unfold to_df. rewrite run_bind, (run_get_data _ _ _ Hd). cbn beta iota.
  rewrite run_bind, (run_gene_names _ _ _ _ Hd Hg). cbn beta iota.
  rewrite run_bind, (run_cell_names _ _ _ _ Hd Hc). cbn beta iota.
  apply run_lift.
Qed.

(** For names that are all present, [exp_matrix2df] returns the frame of
    the requested lines and columns: its index and its columns are the
    requested names in the order of the request (the names of the dataset
    for an axis without request), and it holds, at line [k] and column [l],
    the entry of the matrix at the first position of the [k]-th requested
    cell name and of the [l]-th requested gene name.  The store is not
    changed: unlike [sub_by_name], the function makes no copy. *)
Theorem exp_matrix2df_frames_requested (w : world) (self : loc) (d : StereoExpData)
    (c : Cell) (g : Gene) (n_cells n_genes : nat)
    (cell_name gene_name : option (list string)) :
  snapshot w self = Some (d, c, g) →
  consistent n_cells n_genes (d, c, g) →
  present cell_name (_cell_name c) → present gene_name (_gene_name g) →
  ∃ rows a b,
    _cell_name c = Some a ∧ _gene_name g = Some b
    ∧ exp_matrix2df self cell_name gene_name w
      = (Val (mkFrame (Values rows) (Index (default a cell_name))
                (Index (default b gene_name))), w)
    ∧ length rows = length (default a cell_name)
    ∧ ∀ k l i j,
        origin (_cell_name c) cell_name k = Some i →
        origin (_gene_name g) gene_name l = Some j →
        rows !! k ≫= (.!! l) = (_exp_matrix d ≫= λ m, entry m i j).
Proof.
  intros Hsnap Hcons Hpc Hpg.
  destruct (consistent_elim _ _ _ _ _ Hcons) as (m & p & Hm & Hwf & Hshape & _).
  pose proof Hcons as (_ & _ & (a & Ea & Ha) & _ & _ & _ & (b & Eb & Hb) & _).
  simpl in Ea, Eb.
  destruct (run_exp_matrix2df w self d c g n_cells n_genes cell_name gene_name m)
    as (m1 & m2 & E1 & E2 & Hrun); try done.
  set (ci := (λ names, Z.of_nat <$> first_positions (_cell_name c) names) <$> cell_name)
    in *.
  set (gi := (λ names, Z.of_nat <$> first_positions (_gene_name g) names) <$> gene_name)
    in *.
  destruct (run_requested_names (cell_names self) (_cell_name c) w cell_name n_cells)
    as (_ & Hci & _ & Hco);
    [eapply run_cell_names; by apply snapshot_elim in Hsnap as (? & ? & ?) | done | |].
  { intros l. rewrite Ea. by intros [= <-]. }
  destruct (run_requested_names (gene_names self) (_gene_name g) w gene_name n_genes)
    as (_ & Hgi & _ & Hgo);
    [eapply run_gene_names; by apply snapshot_elim in Hsnap as (? & ? & ?) | done | |].
  { intros l. rewrite Eb. by intros [= <-]. }
  fold ci in Hci, Hco. fold gi in Hgi, Hgo.
  destruct (selected_rows m m1 _ _ ci Hwf Hshape Hci E1) as [Hwf1 Hsh1].
  destruct (selected_cols m1 m2 _ _ gi Hwf1 Hsh1 Hgi E2) as [Hwf2 Hsh2].
  assert (Hr : from_option length n_cells ci = length (default a cell_name))
    by (subst ci; by apply requested_length).
  assert (Hc : from_option length n_genes gi = length (default b gene_name))
    by (subst gi; by apply requested_length).
  destruct (framed m2 (default a cell_name) (default b gene_name) Hwf2)
    as (rows & Hframe & Hlen & Hent); [by rewrite Hsh2, Hr, Hc|].
  exists rows, a, b. split; [done|]. split; [done|]. split; [|split; [done|]].
  - rewrite Hrun, Ea, Eb.
    replace (from_option Some (Some a) cell_name) with (Some (default a cell_name))
      by (by destruct cell_name).
    replace (from_option Some (Some b) gene_name) with (Some (default b gene_name))
      by (by destruct gene_name).
    by rewrite Hframe.
  - intros k l i j Hk Hl. rewrite Hent, Hm. simpl.
    rewrite (selected_cols_entry m1 m2 gi k l j); try done.
    + apply (selected_rows_entry m m1 ci k i j Hwf); try done.
      * by rewrite Hshape.
      * rewrite Hshape. by apply Hco.
    + by rewrite Hsh1.
    + rewrite Hsh1. by apply Hgo.
Qed.

Lemma exp_matrix2df_frames_requested_witness :
  ∃ rows,
    exp_matrix2df 1%positive (Some ["c2"; "c0"]) None small_world
    = (Val (mkFrame (Values rows) (Index ["c2"; "c0"]) (Index ["g0"; "g1"])),
       small_world)
    ∧ rows !! 0%nat ≫= (.!! 1%nat) = Some 4.
Proof.
  destruct (exp_matrix2df_frames_requested small_world 1%positive small_data
              small_cells small_genes 3 2 (Some ["c2"; "c0"]) None eq_refl
              small_world_consistent)
    as (rows & a & b & Ea & Eb & Hrun & _ & Hent).
  - intros names [= <-]. eexists. split; [reflexivity|].
    repeat constructor; rewrite !elem_of_cons; naive_solver.
  - done.
  - injection Ea as <-. injection Eb as <-. exists rows. split; [exact Hrun|].
    by rewrite (Hent 0%nat 1%nat 2%nat 1%nat eq_refl eq_refl).
Defined.

(** [exp_matrix2df] is [sub_by_name] followed by [to_df]: for names that
    are all present, the frame it returns is the frame of the dataset that
    [sub_by_name] returns for the same names. *)
Theorem exp_matrix2df_is_sub_by_name_to_df (w : world) (self : loc)
    (d : StereoExpData) (c : Cell) (g : Gene) (n_cells n_genes : nat)
    (cell_name gene_name : option (list string)) :
  snapshot w self = Some (d, c, g) →
  consistent n_cells n_genes (d, c, g) →
  present cell_name (_cell_name c) → present gene_name (_gene_name g) →
  ∃ copy w' frame,
    sub_by_name self cell_name gene_name w = (Val copy, w')
    ∧ to_df copy w' = (Val frame, w')
    ∧ exp_matrix2df self cell_name gene_name w = (Val frame, w).
Proof.
  intros Hsnap Hcons Hpc Hpg.
  destruct (consistent_elim _ _ _ _ _ Hcons) as (m & p & Hm & Hwf & Hshape & _).
  destruct (run_sub_by_name w self d c g n_cells n_genes cell_name gene_name m)
    as (m1 & m2 & copy & w' & d' & c' & g' & E1 & E2 & Hrun & Hsnap' & Hm2 & Hcn & Hgn
        & Hci & Hgi & _); try done.
  destruct (run_exp_matrix2df w self d c g n_cells n_genes cell_name gene_name m)
    as (m1' & m2' & E1' & E2' & Hexp); try done.
  rewrite E1 in E1'. injection E1' as <-. rewrite E2 in E2'. injection E2' as <-.
  set (ci := (λ names, Z.of_nat <$> first_positions (_cell_name c) names) <$> cell_name)
    in *.
  set (gi := (λ names, Z.of_nat <$> first_positions (_gene_name g) names) <$> gene_name)
    in *.
  pose proof Hcons as (_ & _ & (a & Ea & Ha) & _ & _ & _ & (b & Eb & Hb) & _).
  simpl in Ea, Eb.
  destruct (selected_rows m m1 _ _ ci Hwf Hshape Hci E1) as [Hwf1 Hsh1].
  destruct (selected_cols m1 m2 _ _ gi Hwf1 Hsh1 Hgi E2) as [Hwf2 Hsh2].
  assert (Hr : from_option length n_cells ci = length (default a cell_name))
    by (subst ci; by apply requested_length).
  assert (Hc : from_option length n_genes gi = length (default b gene_name))
    by (subst gi; by apply requested_length).
  destruct (framed m2 (default a cell_name) (default b gene_name) Hwf2)
    as (rows & Hframe & _); [by rewrite Hsh2, Hr, Hc|].
  assert (Hi : from_option Some (_cell_name c) cell_name = Some (default a cell_name))
    by (rewrite Ea; by destruct cell_name).
  assert (Hj : from_option Some (_gene_name g) gene_name = Some (default b gene_name))
    by (rewrite Eb; by destruct gene_name).
  exists copy, w', (mkFrame (Values rows) (Index (default a cell_name))
                      (Index (default b gene_name))).
  split; [exact Hrun|]. split.
  - rewrite (run_to_df _ _ _ _ _ Hsnap'), Hm2, densified, Hcn, Hgn, Hi, Hj.
    by rewrite Hframe.
  - by rewrite Hexp, Hi, Hj, Hframe.
Qed.

Lemma exp_matrix2df_is_sub_by_name_to_df_witness :
  ∃ copy w' frame,
    sub_by_name 1%positive (Some ["c2"; "c0"]) (Some ["g1"]) small_world = (Val copy, w')
    ∧ to_df copy w' = (Val frame, w')
    ∧ exp_matrix2df 1%positive (Some ["c2"; "c0"]) (Some ["g1"]) small_world
      = (Val frame, small_world).
Proof.
  apply (exp_matrix2df_is_sub_by_name_to_df small_world 1%positive small_data
           small_cells small_genes 3 2 (Some ["c2"; "c0"]) (Some ["g1"]) eq_refl
           small_world_consistent).
  - intros names [= <-]. eexists. split; [reflexivity|].
    repeat constructor; rewrite !elem_of_cons; naive_solver.
  - intros names [= <-]. eexists. split; [reflexivity|].
    repeat constructor; rewrite !elem_of_cons; naive_solver.
Defined.

(** [exp_matrix2df] resolves a name as [sub_by_name] does, and fails alike:
    a requested cell or gene name that the dataset does not hold raises the
    [IndexError] of indexing the empty array of matches at 0, whose message
    does not tell the name.  The store is as before. *)
Theorem exp_matrix2df_absent_name (w : world) (self : loc) (d : StereoExpData)
    (c : Cell) (g : Gene) (cell_name gene_name : option (list string)) :
  snapshot w self = Some (d, c, g) →
  (∃ names, cell_name = Some names ∧ Exists (absent (_cell_name c)) names)
  ∨ (∃ names, gene_name = Some names ∧ Exists (absent (_gene_name g)) names) →
  exp_matrix2df self cell_name gene_name w
  = (Raise (IndexError "index 0 is out of bounds for axis 0 with size 0"), w).
Proof.
  intros Hsnap Habs. destruct (snapshot_elim _ _ _ _ _ Hsnap) as (Hd & Hc & Hg).
  pose proof (run_cell_names _ _ _ _ Hd Hc) as Hc1.
  pose proof (run_gene_names _ _ _ _ Hd Hg) as Hg1.
  unfold exp_matrix2df. rewrite run_bind.
  assert (Hcell : (∃ ci, (match cell_name with
                          | Some names => Some <$> resolve_names (cell_names self) names
                          | None => mret None
                          end) w = (Val ci, w)
                         ∧ ∀ names, cell_name = Some names →
                             ¬ Exists (absent (_cell_name c)) names)
                  ∨ (match cell_name with
                     | Some names => Some <$> resolve_names (cell_names self) names
                     | None => mret None
                     end) w = (Raise (out_of_bounds 0 0), w)).
  { destruct cell_name as [names|]; [|left; by exists None].
    rewrite run_fmap.
    destruct (run_resolve_names _ _ _ names Hc1) as [(Hall & ks & -> & _)|(_ & ->)];
      [left|by right].
    eexists. split; [done|]. intros ? [= <-] Hex. by eapply not_all_present. }
  destruct Hcell as [(ci & -> & Hci)| ->]; [|done].
  cbn beta iota. rewrite run_bind.
  destruct Habs as [(names & -> & Hex)|(names & -> & Hex)];
    [by destruct (Hci names eq_refl)|].
  rewrite run_fmap.
  destruct (run_resolve_names _ _ _ names Hg1) as [(Hall & _)|(_ & ->)]; [|done].
  by destruct (not_all_present _ _ Hall Hex).
Qed.

Lemma exp_matrix2df_absent_name_witness :
  exp_matrix2df 1%positive None (Some ["g1"; "g7"]) small_world
  = (Raise (IndexError "index 0 is out of bounds for axis 0 with size 0"), small_world).
Proof.
  apply (exp_matrix2df_absent_name small_world 1%positive small_data small_cells
           small_genes _ _ eq_refl).
  right. exists ["g1"; "g7"]. split; [done|].
  apply Exists_cons_tl, Exists_cons_hd. intros l [= <-].
  rewrite !elem_of_cons, elem_of_nil. naive_solver.
Defined.

(** On a dataset that holds no matrix the two ways to a frame part.
    [to_df] hands [None] to the constructor of the frame and returns a frame
    whose labels are the names of the dataset and whose every value is NaN;
    [exp_matrix2df] without names calls [toarray] on [None] and raises an
    [AttributeError]. *)
Theorem frames_without_matrix (w : world) (self : loc) (d : StereoExpData)
    (c : Cell) (g : Gene) :
  snapshot w self = Some (d, c, g) → _exp_matrix d = None →
  to_df self w
  = (Val (mkFrame AllNaN (Index (default [] (_cell_name c)))
            (Index (default [] (_gene_name g)))), w)
  ∧ exp_matrix2df self None None w
    = (Raise (AttributeError "'NoneType' object has no attribute 'toarray'"), w).
Proof.
  intros Hsnap Hm. destruct (snapshot_elim _ _ _ _ _ Hsnap) as (Hd & Hc & Hg). split.
  - by rewrite (run_to_df _ _ _ _ _ Hsnap), Hm.
  - unfold exp_matrix2df.
    rewrite run_bind, run_ret. cbn beta iota.
    rewrite run_bind, run_ret. cbn beta iota.
    rewrite run_bind, (run_get_data _ _ _ Hd). cbn beta iota.
    rewrite run_bind, run_ret. cbn beta iota.
    rewrite run_bind, run_ret. cbn beta iota.
    rewrite run_bind, Hm. reflexivity.
Qed.

Lemma frames_without_matrix_witness :
  to_df 1%positive reader_world = (Val (mkFrame AllNaN (Index []) (Index [])), reader_world)
  ∧ exp_matrix2df 1%positive None None reader_world
    = (Raise (AttributeError "'NoneType' object has no attribute 'toarray'"),
       reader_world).
Proof.
  apply (frames_without_matrix reader_world 1%positive reader_data
           (mkCell None None None None None) (mkGene None []) eq_refl eq_refl).
Defined.

(** ** Groups of a clustering *)

Lemma compress_count {A} (mask : list bool) (a : list A) :
  length mask = length a →
  length (compress mask a) = length (filter (λ b, b = true) mask).
Proof.
  revert a. unfold compress.
  induction mask as [|x mask IH]; intros [|y a] Ha; try done.
  injection Ha as Ha. specialize (IH a Ha).
  change (zip (x :: mask) (y :: a)) with ((x, y) :: zip mask a).
  rewrite !filter_cons. cbn [fst].
  destruct (decide (x = true)); rewrite ?fmap_cons, ?length_cons; by rewrite IH.
Qed.

Lemma compress_length {A B} (mask : list bool) (a : list A) (b : list B) :
  length mask = length a → length mask = length b →
  length (compress mask a) = length (compress mask b).
Proof. intros Ha Hb. by rewrite !compress_count. Qed.

Lemma compress_lookup {A} (mask : list bool) (a : list A) (x : A) :
  x ∈ compress mask a ↔ ∃ k, mask !! k = Some true ∧ a !! k = Some x.
Proof.
  unfold compress. rewrite list_elem_of_fmap. split.
  - intros ([b y] & -> & He). apply list_elem_of_filter in He as [Hb He].
    simpl in Hb. subst b. apply list_elem_of_lookup in He as [k Hk].
    rewrite lookup_zip_with in Hk. exists k.
    destruct (mask !! k) as [b|]; [simpl in Hk|done].
    destruct (a !! k) as [y'|]; [simpl in Hk|done]. by injection Hk as -> ->.
  - intros (k & Hm & Ha). exists (true, x). split; [done|].
    apply list_elem_of_filter. split; [done|].
    apply list_elem_of_lookup. exists k. by rewrite lookup_zip_with, Hm, Ha.
Qed.

(** The check of the groups: the first group that is no label of the
    clustering raises. *)
Lemma run_check_groups (groups cluster : list string) (w : world) :
  let check : string → py unit :=
    (λ g, if bool_decide (g ∉ cluster)
          then raise (ValueError ("cluster " +:+ g +:+ " is not in all cluster."))
          else mret ()) in
  (groups ⊆ cluster ∧ (∃ us, for_each check groups w = (Val us, w)))
  ∨ (∃ before g after,
       groups = before ++ g :: after ∧ before ⊆ cluster ∧ (g ∉ cluster)
       ∧ for_each check groups w
         = (Raise (ValueError ("cluster " +:+ g +:+ " is not in all cluster.")), w)).
Proof.
  intros check. induction groups as [|g groups IH].
  - left. split; [by intros ? ?%elem_of_nil|]. by exists [].
  - assert (Hrun : for_each check (g :: groups) w
                   = (y ← check g; ys ← for_each check groups; mret (y :: ys)) w)
      by reflexivity.
    rewrite Hrun, run_bind. clear Hrun.
    destruct (decide (g ∈ cluster)) as [Hg|Hg].
    + assert (Hc : check g w = (Val (), w)).
      { unfold check. by rewrite bool_decide_eq_false_2 by (by intros H; apply H). }
      rewrite Hc. cbn beta iota. rewrite run_bind.
      destruct IH as [(Hsub & us & ->)|(before & g' & after & -> & Hb & Hn & ->)].
      * left. split; [|by eexists].
        intros x [->|Hx]%elem_of_cons; [done | by apply Hsub].
      * right. exists (g :: before), g', after. split; [done|]. split; [|by split].
        intros x [->|Hx]%elem_of_cons; [done | by apply Hb].
    + assert (Hc : check g w
                   = (Raise (ValueError ("cluster " +:+ g +:+ " is not in all cluster.")),
                      w)).
      { unfold check. by rewrite bool_decide_eq_true_2 by done. }
      rewrite Hc. right. exists [], g, groups. split; [done|]. split; [|by split].
      by intros ? ?%elem_of_nil.
Qed.

(** [select_group] checks the groups before it reads anything: when a
    requested group is no label of the clustering, it raises a [ValueError]
    whose message names the first such group in the order of the request,
    and the store is as before. *)
Theorem select_group_unknown_group (w : world) (st_data : loc)
    (groups : string + list string) (cluster : list string) (g : string) :
  g ∈ match groups with inl g => [g] | inr gs => gs end →
  g ∉ cluster →
  ∃ before g0 after,
    match groups with inl g => [g] | inr gs => gs end = before ++ g0 :: after
    ∧ before ⊆ cluster
    ∧ (g0 ∉ cluster)
    ∧ select_group st_data groups cluster w
      = (Raise (ValueError ("cluster " +:+ g0 +:+ " is not in all cluster.")), w)
    ∧ mentions g0 ("cluster " +:+ g0 +:+ " is not in all cluster.") = true.
Proof.
  intros Hg Hn. unfold select_group.
  set (gs := match groups with inl g => [g] | inr gs => gs end) in *.
  destruct (run_check_groups gs cluster w)
    as [(Hsub & _)|(before & g0 & after & Hgs & Hb & Hn0 & E)].
  - destruct Hn. by apply Hsub.
  - exists before, g0, after. do 3 (split; [done|]). split.
    + rewrite run_bind. cbn zeta in E. by rewrite E.
    + exact (mentions_app _ _ _).
Qed.

Lemma select_group_unknown_group_witness :
  select_group 1%positive (inr ["1"; "9"; "8"]) ["1"; "2"; "1"] small_world
  = (Raise (ValueError "cluster 9 is not in all cluster."), small_world).
Proof.
  destruct (select_group_unknown_group small_world 1%positive (inr ["1"; "9"; "8"])
              ["1"; "2"; "1"] "8") as (before & g0 & after & Hgs & Hb & Hn & H1 & _).
  - rewrite !elem_of_cons. naive_solver.
  - rewrite !elem_of_cons, elem_of_nil. naive_solver.
  - rewrite H1. clear H1.
    destruct before as [|x before]; simpl in Hgs.
    { injection Hgs as <- _. destruct Hn. by left. }
    injection Hgs as <- Hgs.
    destruct before as [|y before]; simpl in Hgs.
    { by injection Hgs as <- _. }
    injection Hgs as <- Hgs.
    assert (Hy : "9" ∈ ["1"; "2"; "1"]) by (apply Hb; right; left).
    rewrite !elem_of_cons, elem_of_nil in Hy. naive_solver.
Defined.

(** For groups that are all labels of the clustering, and a clustering
    that has one label per cell, [select_group] returns the frame of the
    cells whose label is among the groups, in the order of the dataset: the
    lines of the dense matrix and the cell names are taken at the same
    places, so that every line is under the name of its cell, and the
    columns are the gene names.  A name is in the index of the frame exactly
    when it is the name of a cell whose label is among the groups.  The
    store is not changed. *)
Theorem select_group_frames_the_groups (w : world) (self : loc) (d : StereoExpData)
    (c : Cell) (g : Gene) (n_cells n_genes : nat)
    (groups : string + list string) (cluster : list string) :
  snapshot w self = Some (d, c, g) →
  consistent n_cells n_genes (d, c, g) →
  length cluster = n_cells →
  match groups with inl g => [g] | inr gs => gs end ⊆ cluster →
  let mask := (λ l, bool_decide (l ∈ match groups with inl g => [g] | inr gs => gs end))
                <$> cluster in
  ∃ m rows a b,
    _exp_matrix d = Some m ∧ _cell_name c = Some a ∧ _gene_name g = Some b
    ∧ length rows = n_cells
    ∧ (∀ i j, rows !! i ≫= (.!! j) = entry m i j)
    ∧ select_group self groups cluster w
      = (Val (mkFrame (Values (compress mask rows)) (Index (compress mask a)) (Index b)),
         w)
    ∧ length (compress mask rows) = length (compress mask a)
    ∧ ∀ x, x ∈ compress mask a
           ↔ ∃ k l, cluster !! k = Some l
                    ∧ l ∈ match groups with inl g => [g] | inr gs => gs end
                    ∧ a !! k = Some x.
Proof.
  intros Hsnap Hcons Hlen Hsub mask.
  destruct (snapshot_elim _ _ _ _ _ Hsnap) as (Hd & Hc & Hg).
  destruct (consistent_elim _ _ _ _ _ Hcons) as (m & p & Hm & Hwf & Hshape & _).
  pose proof Hcons as (_ & _ & (a & Ea & Ha) & _ & _ & _ & (b & Eb & Hb) & _).
  simpl in Ea, Eb.
  destruct (dense_entry m Hwf) as (rows & Hdense & Hwfd & Hent).
  rewrite Hshape in Hdense. simpl in Hdense.
  assert (Hrows : length rows = n_cells)
    by (rewrite Hdense in Hwfd; by destruct Hwfd as [-> _]).
  assert (Hmask : length mask = n_cells) by (subst mask; by rewrite length_fmap).
  assert (Hcl : length (compress mask rows) = length (compress mask a))
    by (apply compress_length; congruence).
  exists m, rows, a, b. do 5 (split; [done|]). split; [|split; [done|]]; cycle 1.
  { intros x. rewrite compress_lookup. subst mask. split.
    - intros (k & Hk & Hx). rewrite list_lookup_fmap in Hk.
      destruct (cluster !! k) as [l|] eqn:El; [|done]. simpl in Hk.
      injection Hk as Hk. apply bool_decide_eq_true in Hk. by exists k, l.
    - intros (k & l & Hk & Hl & Hx). exists k. split; [|done].
      rewrite list_lookup_fmap, Hk. simpl. by rewrite bool_decide_eq_true_2. }
  unfold select_group.
  set (gs := match groups with inl g => [g] | inr gs => gs end) in *.
  destruct (run_check_groups gs cluster w)
    as [(_ & us & E)|(before & g0 & after & Hgs & _ & Hn0 & _)];
    [|destruct Hn0; apply Hsub; rewrite Hgs, elem_of_app; right; left].
  cbn zeta in E. rewrite run_bind, E. cbn beta iota.
  rewrite run_bind, (run_get_data _ _ _ Hd). cbn beta iota.
  rewrite Hm, densified, Hdense. cbn [from_option mask_rows]. fold mask.
  rewrite run_bind, run_lift, bool_decide_eq_true_2 by done. cbn beta iota.
  rewrite run_bind, (run_cell_names _ _ _ _ Hd Hc), Ea. cbn beta iota.
  cbn [from_option]. unfold np_mask.
  rewrite run_bind, run_lift, bool_decide_eq_true_2 by congruence. cbn beta iota.
  rewrite run_bind, (run_gene_names _ _ _ _ Hd Hg), Eb. cbn beta iota.
  rewrite run_bind, run_ret. cbn beta iota. rewrite run_lift. f_equal.
  unfold pd_DataFrame. cbn [from_option labels_length].
  rewrite bool_decide_eq_true_2; [done|]. by split.
Qed.

Lemma select_group_frames_the_groups_witness :
  ∃ rows,
    select_group 1%positive (inl "1") ["1"; "2"; "1"] small_world
    = (Val (mkFrame (Values (compress [true; false; true] rows)) (Index ["c0"; "c2"])
              (Index ["g0"; "g1"])), small_world)
    ∧ length rows = 3%nat.
Proof.
  destruct (select_group_frames_the_groups small_world 1%positive small_data
              small_cells small_genes 3 2 (inl "1") ["1"; "2"; "1"] eq_refl
              small_world_consistent eq_refl)
    as (m & rows & a & b & _ & Ea & Eb & Hr & _ & Hrun & _).
  - intros x ->%list_elem_of_singleton. by left.
  - injection Ea as <-. injection Eb as <-. by exists rows.
Defined.

(** ** Selections of the interactive scatter *)

(** A selection whose labels are positions of the dataset: the dataset
    shown is copied, the copy is cut down to the lines selected, and the
    dataset shown is as it was. *)
Lemma run_selection (w : world) (self : InteractiveScatter) d c g
    (n_cells n_genes : nat) (pos index : list Z) (drop : bool) (m : matrix) :
  snapshot w (scatter_data self) = Some (d, c, g) →
  consistent n_cells n_genes (d, c, g) →
  _exp_matrix d = Some m →
  (if drop then Index_drop (scatter_rows self) pos else inl pos) = inl index →
  in_range n_cells index →
  ∃ copy w' d' c' g' m',
    generate_selected_expr_matrix self (Some pos) drop w
    = (Done (mkScatter (scatter_data self) (scatter_rows self) (Some copy)), w')
    ∧ copy ≠ scatter_data self
    ∧ snapshot w copy = None
    ∧ snapshot w' (scatter_data self) = Some (d, c, g)
    ∧ snapshot w' copy = Some (d', c', g')
    ∧ consistent (length index) n_genes (d', c', g')
    ∧ _cell_name c' = (λ a, gather a (resolve n_cells <$> index)) <$> _cell_name c
    ∧ _exp_matrix d' = Some m'
    ∧ select_rows m index = Val m'.
Proof.
  intros Hsnap Hcons Hm Hsel Hin.
  destruct (snapshot_elim _ _ _ _ _ Hsnap) as (Hd & Hc & Hg).
  destruct (consistent_elim _ _ _ _ _ Hcons)
    as (m0 & p & Hm0 & Hwf & Hshape & Hp & _).
  rewrite Hm in Hm0. injection Hm0 as <-.
  unfold generate_selected_expr_matrix. rewrite Hsel.
  rewrite run_bind, (run_deepcopy _ _ _ _ _ Hsnap). cbn beta iota.
  set (ld := fresh (dom (data_objs w))).
  set (lc := fresh (dom (cell_objs w))).
  set (lg := fresh (dom (gene_objs w))).
  set (d1 := set_cells (set_genes d lg) lc).
  set (w1 := with_data _ _).
  assert (Hd1 : data_objs w1 !! ld = Some d1) by (subst w1; simpl; apply lookup_insert_eq).
  assert (Hc1 : cell_objs w1 !! lc = Some c) by (subst w1; simpl; apply lookup_insert_eq).
  assert (Hg1 : gene_objs w1 !! lg = Some g) by (subst w1; simpl; apply lookup_insert_eq).
  assert (Hsnap1 : snapshot w1 ld = Some (d1, c, g)) by (by apply snapshot_intro).
  assert (Hcons1 : consistent n_cells n_genes (d1, c, g)).
  { destruct Hcons as (A1 & A2 & A3 & A4 & A5 & A6 & A7 & A8). by repeat split. }
  assert (Hci : ∀ index0, Some index = Some index0 → in_range n_cells index0)
    by (by intros ? [= <-]).
  assert (Hgi : ∀ index0, @None (list Z) = Some index0 → in_range n_genes index0)
    by done.
  destruct (run_sub_by_index w1 ld d1 c g n_cells n_genes (Some index) None m p)
    as (m1 & m2 & E1 & E2 & Hrun); try done.
  rewrite Hrun.
  destruct (selected_rows m m1 _ _ (Some index) Hwf Hshape Hci E1) as [Hwf1 Hsh1].
  simpl in E2. injection E2 as <-.
  assert (Hnd : scatter_data self ≠ ld) by (apply fresh_other; eauto).
  assert (Hnc : _cells d ≠ lc) by (apply fresh_other; eauto).
  assert (Hng : _genes d ≠ lg) by (apply fresh_other; eauto).
  eexists ld, _, _, _, _, m1. split; [reflexivity|]. split; [done|]. split.
  { unfold snapshot. subst ld. by rewrite fresh_lookup. }
  split.
  { apply snapshot_intro; simpl.
    - by rewrite !lookup_insert_ne.
    - by rewrite !lookup_insert_ne.
    - by rewrite !lookup_insert_ne. }
  split.
  { apply snapshot_intro; simpl; apply lookup_insert_eq. }
  split.
  { by apply (sliced_consistent n_cells n_genes d1 c g (Some index) None m1 p). }
  by repeat split.
Qed.

(** Without [drop], the labels selected are used as positions of the
    cells, and a negative one counts from the end.  On a consistent
    dataset with positions in range, the selection is a new dataset object
    that satisfies the invariant with one cell per label: its cell names and
    the lines of its matrix are those at the positions selected, in the
    order and with the repetitions of the selection.  The dataset shown
    keeps its matrix, tables and positions. *)
Theorem selection_keeps_the_shown_dataset (w : world) (self : InteractiveScatter)
    (d : StereoExpData) (c : Cell) (g : Gene) (n_cells n_genes : nat) (pos : list Z) :
  snapshot w (scatter_data self) = Some (d, c, g) →
  consistent n_cells n_genes (d, c, g) →
  in_range n_cells pos →
  ∃ copy w' d' c' g',
    generate_selected_expr_matrix self (Some pos) false w
    = (Done (mkScatter (scatter_data self) (scatter_rows self) (Some copy)), w')
    ∧ copy ≠ scatter_data self
    ∧ snapshot w copy = None
    ∧ snapshot w' (scatter_data self) = Some (d, c, g)
    ∧ snapshot w' copy = Some (d', c', g')
    ∧ consistent (length pos) n_genes (d', c', g')
    ∧ _cell_name c' = (λ a, gather a (resolve n_cells <$> pos)) <$> _cell_name c
    ∧ ∀ k i j, pos !! k = Some i →
        (_exp_matrix d' ≫= λ m, entry m k j)
        = (_exp_matrix d ≫= λ m, entry m (resolve n_cells i) j).
Proof.
  intros Hsnap Hcons Hin.
  destruct (consistent_elim _ _ _ _ _ Hcons) as (m & p & Hm & Hwf & Hshape & _).
  destruct (run_selection w self d c g n_cells n_genes pos pos false m)
    as (copy & w' & d' & c' & g' & m' & Hrun & Hne & Hnew & Hold & Hcopy & Hc' & Hn
        & Hm' & Hsel); try done.
  exists copy, w', d', c', g'. do 7 (split; [done|]).
  intros k i j Hk. rewrite Hm', Hm. simpl.
  destruct (select_rows_spec m pos Hwf) as (m1 & E & _ & _ & Hent);
    [by rewrite Hshape|].
  rewrite Hsel in E. injection E as <-.
  rewrite (Hent k i j Hk). by rewrite Hshape.
Qed.

Lemma selection_keeps_the_shown_dataset_witness :
  ∃ copy w' d' c' g',
    generate_selected_expr_matrix (mkScatter 1%positive 3 None) (Some [-1; 0]) false
      small_world
    = (Done (mkScatter 1%positive 3 (Some copy)), w')
    ∧ copy ≠ 1%positive
    ∧ snapshot w' 1%positive = Some (small_data, small_cells, small_genes)
    ∧ snapshot w' copy = Some (d', c', g')
    ∧ consistent 2 2 (d', c', g')
    ∧ _cell_name c' = Some ["c2"; "c0"]
    ∧ (_exp_matrix d' ≫= λ m, entry m 0 1) = Some 4.
Proof.
  destruct (selection_keeps_the_shown_dataset small_world (mkScatter 1%positive 3 None)
              small_data small_cells small_genes 3 2 [-1; 0] eq_refl
              small_world_consistent)
    as (copy & w' & d' & c' & g' & H1 & H2 & H3 & H4 & H5 & H6 & H7 & H8).
  - repeat constructor; lia.
  - exists copy, w', d', c', g'. do 6 (split; [done|]).
    by rewrite (H8 0%nat (-1) 1%nat eq_refl).
Defined.

(** With [drop], the labels selected are dropped from the index of the
    scatter frame, which has one line per cell and the default labels, and
    the cells that are left are selected.  On a consistent dataset with
    labels that are all in the index, the selection is a new dataset object
    that satisfies the invariant, and its cell names are the names of the
    cells whose label was not selected, in the order of the dataset.  The
    dataset shown keeps its matrix, tables and positions. *)
Theorem selection_dropped_keeps_the_rest (w : world) (self : InteractiveScatter)
    (d : StereoExpData) (c : Cell) (g : Gene) (n_cells n_genes : nat) (pos : list Z) :
  snapshot w (scatter_data self) = Some (d, c, g) →
  consistent n_cells n_genes (d, c, g) →
  scatter_rows self = n_cells →
  Forall (λ l, 0 <= l < Z.of_nat n_cells) pos →
  let rest := filter (λ i, Z.of_nat i ∉ pos) (seq 0 n_cells) in
  ∃ copy w' d' c' g',
    generate_selected_expr_matrix self (Some pos) true w
    = (Done (mkScatter (scatter_data self) (scatter_rows self) (Some copy)), w')
    ∧ copy ≠ scatter_data self
    ∧ snapshot w copy = None
    ∧ snapshot w' (scatter_data self) = Some (d, c, g)
    ∧ snapshot w' copy = Some (d', c', g')
    ∧ consistent (length rest) n_genes (d', c', g')
    ∧ _cell_name c' = (λ a, gather a rest) <$> _cell_name c
    ∧ ∀ k i j, rest !! k = Some i →
        (_exp_matrix d' ≫= λ m, entry m k j) = (_exp_matrix d ≫= λ m, entry m i j).
Proof.
  intros Hsnap Hcons Hrows Hpos rest.
  destruct (consistent_elim _ _ _ _ _ Hcons) as (m & p & Hm & Hwf & Hshape & _).
  assert (Hfound : filter (λ l, ¬ (0 <= l < Z.of_nat n_cells)) pos = []).
  { clear -Hpos. induction pos as [|x l IH]; [done|].
    apply Forall_cons in Hpos as [Hx Hl].
    rewrite filter_cons, decide_False by (by intros H; apply H). by apply IH. }
  set (index := filter (λ i, i ∉ pos) (Z.of_nat <$> seq 0 n_cells)).
  assert (Hindex : index = Z.of_nat <$> rest).
  { subst index rest. generalize (seq 0 n_cells). intros l.
    induction l as [|x l IH]; [done|].
    rewrite fmap_cons, !filter_cons.
    destruct (decide (Z.of_nat x ∉ pos)); by rewrite ?fmap_cons, IH. }
  assert (Hrest : Forall (λ i, (i < n_cells)%nat) rest).
  { apply Forall_forall. intros i [_ Hi]%list_elem_of_filter.
    apply elem_of_seq in Hi. lia. }
  assert (Hres : resolve n_cells <$> index = rest).
  { rewrite Hindex, <- list_fmap_compose. rewrite <- (list_fmap_id rest) at 2.
    apply list_fmap_ext. intros k i _. simpl. apply resolve_of_nat. }
  assert (Hin : in_range n_cells index).
  { rewrite Hindex. apply Forall_fmap. eapply Forall_impl; [exact Hrest|].
    simpl. intros; lia. }
  assert (Hdrop : Index_drop (scatter_rows self) pos = inl index).
  { unfold Index_drop. rewrite Hrows.
    by rewrite decide_True. }
  destruct (run_selection w self d c g n_cells n_genes pos index true m)
    as (copy & w' & d' & c' & g' & m' & Hrun & Hne & Hnew & Hold & Hcopy & Hc' & Hn
        & Hm' & Hsel); try done.
  exists copy, w', d', c', g'.
  assert (Hlen : length index = length rest) by (by rewrite Hindex, length_fmap).
  rewrite Hlen in Hc'. rewrite Hres in Hn. do 7 (split; [done|]).
  intros k i j Hk. rewrite Hm', Hm. simpl.
  destruct (select_rows_spec m index Hwf) as (m1 & E & _ & _ & Hent);
    [by rewrite Hshape|].
  rewrite Hsel in E. injection E as <-.
  rewrite (Hent k (Z.of_nat i) j) by (by rewrite Hindex, list_lookup_fmap, Hk).
  by rewrite Hshape, resolve_of_nat.
Qed.

Lemma selection_dropped_keeps_the_rest_witness :
  ∃ copy w' d' c' g',
    generate_selected_expr_matrix (mkScatter 1%positive 3 None) (Some [2; 0; 2]) true
      small_world
    = (Done (mkScatter 1%positive 3 (Some copy)), w')
    ∧ copy ≠ 1%positive
    ∧ snapshot w' 1%positive = Some (small_data, small_cells, small_genes)
    ∧ snapshot w' copy = Some (d', c', g')
    ∧ consistent 1 2 (d', c', g')
    ∧ _cell_name c' = Some ["c1"].
Proof.
  destruct (selection_dropped_keeps_the_rest small_world (mkScatter 1%positive 3 None)
              small_data small_cells small_genes 3 2 [2; 0; 2] eq_refl
              small_world_consistent eq_refl)
    as (copy & w' & d' & c' & g' & H1 & H2 & H3 & H4 & H5 & H6 & H7 & H8).
  - repeat constructor; lia.
  - by exists copy, w', d', c', g'.
Defined.

(** With [drop], a selected label that the index of the scatter frame does
    not hold, a negative one for instance, raises the [KeyError] of
    [Index.drop], which carries the labels not found: the dataset is not
    copied, the store is as before, and the selection of the scatter is not
    assigned. *)
Theorem selection_dropped_unknown_label (w : world) (self : InteractiveScatter)
    (pos : list Z) (l : Z) :
  l ∈ pos → ¬ (0 <= l < Z.of_nat (scatter_rows self)) →
  ∃ not_found,
    generate_selected_expr_matrix self (Some pos) true w
    = (Fails (KeyError not_found), w)
    ∧ l ∈ not_found
    ∧ ∀ x, x ∈ not_found ↔ x ∈ pos ∧ ¬ (0 <= x < Z.of_nat (scatter_rows self)).
Proof.
  intros Hl Hout.
  exists (filter (λ l, ¬ (0 <= l < Z.of_nat (scatter_rows self))) pos).
  assert (Hin : l ∈ filter (λ l, ¬ (0 <= l < Z.of_nat (scatter_rows self))) pos)
    by (by apply list_elem_of_filter).
  split; [|split; [done|]].
  - unfold generate_selected_expr_matrix, Index_drop.
    rewrite decide_False; [done|]. intros E. rewrite E in Hin.
    by apply elem_of_nil in Hin.
  - intros x. rewrite list_elem_of_filter. tauto.
Qed.

Lemma selection_dropped_unknown_label_witness :
  ∃ not_found,
    generate_selected_expr_matrix (mkScatter 1%positive 3 None) (Some [0; -1; 3]) true
      small_world
    = (Fails (KeyError not_found), small_world)
    ∧ -1 ∈ not_found ∧ 0 ∉ not_found.
Proof.
  destruct (selection_dropped_unknown_label small_world (mkScatter 1%positive 3 None)
              [0; -1; 3] (-1)) as (nf & H1 & H2 & H3).
  - rewrite !elem_of_cons. naive_solver.
  - simpl. lia.
  - exists nf. split; [done|]. split; [done|].
    intros [_ H]%H3. simpl in H. lia.
Defined.
